(** * UCLA Assignment Exporter: a shallow embedding of [app.py]

    The development follows the layout of the script: the Python built-ins
    it relies on ([str.lower], [in], [str.strip], [re.sub], [float],
    [datetime.date]), the pandas operations of the transformation steps
    (boolean masks, [groupby(...).sum()], [drop_duplicates], [merge],
    [sort_values]) and then the functions and numbered steps of [app.py]
    itself, followed by the reading of the uploads and the sidebar.  A Python
    string is modelled as a string over the code points 0 to 255 (Latin-1):
    a character of [string] is the code point of that number, with the case
    mapping and the whitespace that Python gives it.  pandas is followed as
    of its versions 2.1 and 2.2. *)

From Stdlib Require Import List Bool Arith NArith ZArith Lia String Ascii.
From Stdlib Require Import Permutation Sorted Finite.
From Stdlib Require Import Floats.SpecFloat.
From Stdlib Require DecimalString DecimalN DecimalFacts DecimalPos.
Import ListNotations.

Local Open Scope string_scope.
Local Open Scope list_scope.

(* ===================================================================== *)
(** * Python strings *)
(* ===================================================================== *)

Module PyStr.

(** [str.lower] on one character: [A]..[Z] and, above 127, the capital
    letters 192..222 of Latin-1 (all of that range but the sign 215) move
    up by 32; every other code point below 256 is its own lower case. *)
Definition lower_char (c : ascii) : ascii :=
  let n := nat_of_ascii c in
  if ((65 <=? n)%nat && (n <=? 90)%nat)
     || ((192 <=? n)%nat && (n <=? 222)%nat && negb (n =? 215)%nat)
  then ascii_of_nat (n + 32) else c.

(** [s.lower()] *)
Fixpoint lower (s : string) : string :=
  match s with
  | EmptyString => EmptyString
  | String c t => String (lower_char c) (lower t)
  end.

(** [sub in s]: [sub] occurs in [s] as a contiguous substring. *)
Fixpoint contains (sub s : string) : bool :=
  String.prefix sub s ||
  match s with
  | EmptyString => false
  | String _ t => contains sub t
  end.

(** The code points below 256 that [str.isspace] accepts: the controls
    9..13 and 28..31, the space, NEL (133) and the no-break space (160).
    [str.strip] and the regular expression class [\s] use the same test. *)
Definition is_space (c : ascii) : bool :=
  let n := nat_of_ascii c in
  ((9 <=? n)%nat && (n <=? 13)%nat) || ((28 <=? n)%nat && (n <=? 32)%nat)
  || (n =? 133)%nat || (n =? 160)%nat.

(** [s.lstrip()] *)
Fixpoint lstrip (s : string) : string :=
  match s with
  | EmptyString => EmptyString
  | String c t => if is_space c then lstrip t else s
  end.

(** [s.rstrip()] *)
Fixpoint rstrip (s : string) : string :=
  match s with
  | EmptyString => EmptyString
  | String c t =>
      match rstrip t with
      | EmptyString => if is_space c then EmptyString else String c EmptyString
      | t' => String c t'
      end
  end.

(** [s.strip()] *)
Definition strip (s : string) : string := rstrip (lstrip s).

(** [re.sub(r"\s+", " ", s)]: every maximal run of whitespace becomes one
    space.  [in_run] records that the previous character was whitespace,
    i.e. that the current match of [\s+] is still being extended. *)
Fixpoint collapse_from (in_run : bool) (s : string) : string :=
  match s with
  | EmptyString => EmptyString
  | String c t =>
      if is_space c
      then (if in_run then collapse_from true t
            else String " "%char (collapse_from true t))
      else String c (collapse_from false t)
  end.

Definition collapse_ws (s : string) : string := collapse_from false s.

(** [s.replace(old, empty)] for a one-character [old]: every occurrence of
    [old] is removed. *)
Fixpoint remove_char (old : ascii) (s : string) : string :=
  match s with
  | EmptyString => EmptyString
  | String c t =>
      if Ascii.eqb c old then remove_char old t else String c (remove_char old t)
  end.

(** Insertion-ordered [dict] with string keys: assigning to a key that is
    already present replaces its value and keeps its position. *)
Definition dict (V : Type) := list (string * V).

Fixpoint dict_set {V} (k : string) (v : V) (d : dict V) : dict V :=
  match d with
  | [] => [(k, v)]
  | (k', v') :: t =>
      if String.eqb k' k then (k', v) :: t else (k', v') :: dict_set k v t
  end.

Fixpoint dict_get {V} (k : string) (d : dict V) : option V :=
  match d with
  | [] => None
  | (k', v') :: t => if String.eqb k' k then Some v' else dict_get k t
  end.

(** [s.split()]: the maximal runs of characters that are not whitespace. *)
Fixpoint split (s : string) : list string :=
  match s with
  | EmptyString => []
  | String c t =>
      if is_space c then split t
      else
        match t with
        | EmptyString => [String c EmptyString]
        | String d _ =>
            if is_space d then String c EmptyString :: split t
            else match split t with
                 | w :: ws => String c w :: ws
                 | [] => [String c EmptyString]
                 end
        end
  end.

(** [not any(c.isspace() for c in s)] *)
Fixpoint no_space (s : string) : bool :=
  match s with
  | EmptyString => true
  | String c t => negb (is_space c) && no_space t
  end.

(** A word: a non-empty string without whitespace. *)
Definition is_word (w : string) : bool :=
  negb (String.eqb w EmptyString) && no_space w.

(** [str(n)] for a natural number *)
Definition decimal_N (n : N) : string :=
  DecimalString.NilEmpty.string_of_uint (N.to_uint n).

Definition decimal (n : nat) : string := decimal_N (N.of_nat n).

(** [c.isdigit()] for an ASCII character *)
Definition is_digit (c : ascii) : bool :=
  let n := nat_of_ascii c in (48 <=? n)%nat && (n <=? 57)%nat.

(** [s.isdigit()], also true of the empty string here *)
Fixpoint all_digits (s : string) : bool :=
  match s with
  | EmptyString => true
  | String c t => is_digit c && all_digits t
  end.

(** [int(s)] for a string of digits *)
Definition digits_value (s : string) : nat :=
  match DecimalString.NilEmpty.uint_of_string s with
  | Some d => N.to_nat (N.of_uint d)
  | None => O
  end.

Fixpoint zeros (k : nat) : string :=
  match k with
  | O => EmptyString
  | S k' => String "0"%char (zeros k')
  end.

(** [format(n, "0{width}d")] for [n >= 0]: the decimal digits, padded with
    zeros on the left up to [width] characters, never truncated. *)
Definition format_0d_N (width : nat) (n : N) : string :=
  let s := decimal_N n in zeros (width - String.length s) ++ s.

Definition format_0d (width : nat) (n : nat) : string :=
  format_0d_N width (N.of_nat n).

End PyStr.

(* ===================================================================== *)
(** * Python floats *)
(* ===================================================================== *)

(** A Python [float] is an IEEE 754 binary64 value; every NaN is the same
    value here.  Finite values are kept in the canonical form that
    [binary_round] produces, so equal numbers are equal terms, up to the
    sign of zero. *)
Module PyFloat.
Import PyStr.

Definition float := spec_float.
Definition prec : Z := 53.
Definition emax : Z := 1024.

Definition nan : float := S754_nan.
Definition zero : float := S754_zero false.

(** [m * 2^e], rounded to nearest even; exact whenever [m] has at most 53
    bits and [e] is in range. *)
Definition dyadic (m e : Z) : float := binary_normalize prec emax m e false.
Definition of_Z (z : Z) : float := dyadic z 0.

Definition fadd (x y : float) : float := SFadd prec emax x y.
Definition fsub (x y : float) : float := SFsub prec emax x y.

(** [math.isnan], [pd.isna] on a float *)
Definition is_nan (x : float) : bool :=
  match x with S754_nan => true | _ => false end.

(** [x == y] on floats *)
Definition feqb (x y : float) : bool := SFeqb x y.

(** ** [float(s)] for a string [s] *)

(** The characters [float] drops at both ends of its argument: the ASCII
    whitespace of C (9..13 and the space), and the whitespace above 127,
    which it first turns into spaces.  The controls 28..31 are whitespace
    for [str.strip] but not here. *)
Definition float_space (c : ascii) : bool :=
  let n := nat_of_ascii c in
  ((9 <=? n)%nat && (n <=? 13)%nat) || (n =? 32)%nat
  || (n =? 133)%nat || (n =? 160)%nat.

Fixpoint float_lstrip (s : string) : string :=
  match s with
  | EmptyString => EmptyString
  | String c t => if float_space c then float_lstrip t else s
  end.

Fixpoint float_rstrip (s : string) : string :=
  match s with
  | EmptyString => EmptyString
  | String c t =>
      match float_rstrip t with
      | EmptyString => if float_space c then EmptyString else String c EmptyString
      | t' => String c t'
      end
  end.

Definition float_strip (s : string) : string := float_rstrip (float_lstrip s).

Definition digit_val (c : ascii) : Z := Z.of_nat (nat_of_ascii c - 48).

(** The rest of a [digitpart] after its first digit: digits, each
    optionally preceded by one underscore.  Returns the accumulated value,
    the number of digits read and the unread rest. *)
Fixpoint digits_from (acc : Z) (cnt : Z) (s : string) : Z * Z * string :=
  match s with
  | EmptyString => (acc, cnt, s)
  | String c t =>
      if is_digit c then digits_from (10 * acc + digit_val c) (cnt + 1) t
      else if Ascii.eqb c "_"%char then
        match t with
        | String c' t' =>
            if is_digit c'
            then digits_from (10 * acc + digit_val c') (cnt + 1) t'
            else (acc, cnt, s)
        | EmptyString => (acc, cnt, s)
        end
      else (acc, cnt, s)
  end.

(** [digitpart ::= digit (["_"] digit)*], continuing from [acc]. *)
Definition digitpart (acc : Z) (s : string) : option (Z * Z * string) :=
  match s with
  | String c t =>
      if is_digit c then Some (digits_from (10 * acc + digit_val c) 1 t) else None
  | EmptyString => None
  end.

(** [number ::= [digitpart] "." digitpart | digitpart ["."]]; the result is
    [(m, k, rest)] for the value [m / 10^k]. *)
Definition number (s : string) : option (Z * Z * string) :=
  match digitpart 0 s with
  | Some (ip, _, rest) =>
      match rest with
      | String "."%char rest' =>
          match digitpart ip rest' with
          | Some (m, k, rest'') => Some (m, k, rest'')
          | None => Some (ip, 0%Z, rest')
          end
      | _ => Some (ip, 0%Z, rest)
      end
  | None =>
      match s with
      | String "."%char rest' => digitpart 0 rest'
      | _ => None
      end
  end.

(** [[sign]]: [(negative, rest)] *)
Definition sign (s : string) : bool * string :=
  match s with
  | String "-"%char t => (true, t)
  | String "+"%char t => (false, t)
  | _ => (false, s)
  end.

(** [exponent ::= ("e" | "E") [sign] digitpart], to the end of the string;
    an absent exponent is [0]. *)
Definition exponent (s : string) : option Z :=
  match s with
  | EmptyString => Some 0%Z
  | String c t =>
      if Ascii.eqb (lower_char c) "e"%char then
        let '(neg, t') := sign t in
        match digitpart 0 t' with
        | Some (e, _, EmptyString) => Some (if neg then (- e)%Z else e)
        | _ => None
        end
      else None
  end.

(** The binary64 value nearest to [m * 10^e10] for [m >= 0], ties to even. *)
Definition of_decimal (neg : bool) (m e10 : Z) : float :=
  match m with
  | Zpos p =>
      match e10 with
      | Zneg q =>
          SFdiv prec emax (S754_finite neg p 0) (S754_finite false (10 ^ q)%positive 0)
      | _ => binary_round prec emax neg (p * Z.to_pos (10 ^ e10))%positive 0
      end
  | _ => S754_zero neg
  end.

(** [float(s)]: [None] stands for the [ValueError] raised on a string that
    is not a float literal.  No code point from 128 to 255 is a decimal
    digit, so away from the ends only ASCII takes part in a literal. *)
Definition py_float (s : string) : option float :=
  let '(neg, body) := sign (float_strip s) in
  let word := lower body in
  if String.eqb word "nan" then Some nan
  else if String.eqb word "inf" || String.eqb word "infinity"
  then Some (S754_infinity neg)
  else
    match number body with
    | Some (m, k, rest) =>
        match exponent rest with
        | Some e => Some (of_decimal neg m (e - k))
        | None => None
        end
    | None => None
    end.

(** ** Ordering and key equality as pandas uses them *)

(** Two floats are the same group or join key when they compare equal or
    are both NaN (pandas hashes every NaN to one key). *)
Definition same_key (x y : float) : bool :=
  (is_nan x && is_nan y) || feqb x y.

(** A representative of the floats that are the same key: the sign of a
    zero is dropped. *)
Definition key_float (x : float) : float :=
  match x with
  | S754_zero _ => S754_zero false
  | _ => x
  end.

Definition float_eq_dec (x y : float) : {x = y} + {x <> y}.
Proof.
  decide equality; try apply Bool.bool_dec; try apply Z.eq_dec; apply Pos.eq_dec.
Defined.

(** Ascending order with NaN last ([na_position="last"]). *)
Definition fleb (x y : float) : bool :=
  if is_nan y then true
  else if is_nan x then false
  else match SFcompare x y with
       | Some Gt => false
       | _ => true
       end.

End PyFloat.

(* ===================================================================== *)
(** * Python exceptions *)
(* ===================================================================== *)

Module Py.

Inductive exn : Type :=
| ValueError (msg : string)
| KeyError (key : string)
| OverflowError (msg : string).

(** The outcome of code that may raise. *)
Inductive result (A : Type) : Type :=
| Ok (a : A)
| Raise (e : exn).
Arguments Ok {A} a.
Arguments Raise {A} e.

Definition bind {A B} (r : result A) (k : A -> result B) : result B :=
  match r with
  | Ok a => k a
  | Raise e => Raise e
  end.

(** [None], an empty string: the values of [str | None] that are false in
    a condition. *)
Definition truthy (o : option string) : bool :=
  match o with
  | Some s => negb (String.eqb s EmptyString)
  | None => false
  end.

End Py.

Notation "x <- r ;; k" := (Py.bind r (fun x => k))
  (at level 61, r at next level, right associativity).

(* ===================================================================== *)
(** * Python dates *)
(* ===================================================================== *)

(** [datetime.date]: the three fields and the proleptic Gregorian ordinal
    arithmetic of the [datetime] module, on which [weekday] and the
    subtraction of a [timedelta] are built. *)
Module PyDate.
Import Py PyStr.
Local Open Scope Z_scope.

Record date : Type := mkdate { year : Z; month : Z; day : Z }.

Definition MINYEAR : Z := 1.
Definition MAXYEAR : Z := 9999.
Definition MAXORDINAL : Z := 3652059.

Definition is_leap (y : Z) : bool :=
  (y mod 4 =? 0) && (negb (y mod 100 =? 0) || (y mod 400 =? 0)).

Definition days_before_year (y : Z) : Z :=
  let y := y - 1 in y * 365 + y / 4 - y / 100 + y / 400.

(** [_DAYS_IN_MONTH[month]] *)
Definition DAYS_IN_MONTH (m : Z) : Z :=
  nth (Z.to_nat m) [-1; 31; 28; 31; 30; 31; 30; 31; 31; 30; 31; 30; 31] 0.

(** [_DAYS_BEFORE_MONTH[month]] *)
Definition DAYS_BEFORE_MONTH (m : Z) : Z :=
  nth (Z.to_nat m) [-1; 0; 31; 59; 90; 120; 151; 181; 212; 243; 273; 304; 334] 0.

Definition days_in_month (y m : Z) : Z :=
  if (m =? 2) && is_leap y then 29 else DAYS_IN_MONTH m.

Definition days_before_month (y m : Z) : Z :=
  DAYS_BEFORE_MONTH m + Z.b2z ((2 <? m) && is_leap y).

Definition ymd2ord (y m d : Z) : Z :=
  days_before_year y + days_before_month y m + d.

Definition DI400Y : Z := 146097.
Definition DI100Y : Z := 36524.
Definition DI4Y : Z := 1461.

Definition ord2ymd (n : Z) : Z * Z * Z :=
  let n := n - 1 in
  let n400 := n / DI400Y in
  let n := n mod DI400Y in
  let year := n400 * 400 + 1 in
  let n100 := n / DI100Y in
  let n := n mod DI100Y in
  let n4 := n / DI4Y in
  let n := n mod DI4Y in
  let n1 := n / 365 in
  let n := n mod 365 in
  let year := year + n100 * 100 + n4 * 4 + n1 in
  if (n1 =? 4) || (n100 =? 4) then (year - 1, 12, 31)
  else
    let leapyear := (n1 =? 3) && (negb (n4 =? 24) || (n100 =? 3)) in
    let month := Z.shiftr (n + 50) 5 in
    let preceding := DAYS_BEFORE_MONTH month + Z.b2z ((2 <? month) && leapyear) in
    if n <? preceding then
      let month := month - 1 in
      let preceding :=
        preceding - (DAYS_IN_MONTH month + Z.b2z ((month =? 2) && leapyear)) in
      (year, month, n - preceding + 1)
    else (year, month, n - preceding + 1).

(** The field check of the [date] constructor. *)
Definition valid_date (d : date) : Prop :=
  MINYEAR <= year d <= MAXYEAR /\ 1 <= month d <= 12 /\
  1 <= day d <= days_in_month (year d) (month d).

Definition toordinal (d : date) : Z := ymd2ord (year d) (month d) (day d).

Definition fromordinal (n : Z) : date :=
  let '(y, m, d) := ord2ymd n in mkdate y m d.

(** [d.weekday()]: Monday is 0, Sunday is 6. *)
Definition weekday (d : date) : Z := (toordinal d + 6) mod 7.

(** [d - timedelta(days=k)] *)
Definition sub_days (d : date) (k : Z) : result date :=
  let o := toordinal d - k in
  if (0 <? o) && (o <=? MAXORDINAL) then Ok (fromordinal o)
  else Raise (OverflowError "date value out of range").

(** [(a - b).days] *)
Definition days_between (a b : date) : Z := toordinal a - toordinal b.

(** [a <= b]: dates compare as the tuples of their fields. *)
Definition date_leb (a b : date) : bool :=
  (year a <? year b) ||
  ((year a =? year b) &&
   ((month a <? month b) || ((month a =? month b) && (day a <=? day b)))).

(** [d.strftime("%Y%m%d")]; [%Y] is the year padded to four digits (what
    Python does on every platform from 3.13 on; before, years below 1000
    were left to the C library), [%m] and [%d] are two digits. *)
Definition strftime_Ymd (d : date) : string :=
  (format_0d 4 (Z.to_nat (year d)) ++ format_0d 2 (Z.to_nat (month d))
   ++ format_0d 2 (Z.to_nat (day d)))%string.

(** [d.strftime("%m/%d/%Y")] *)
Definition strftime_mdY (d : date) : string :=
  (format_0d 2 (Z.to_nat (month d)) ++ "/" ++ format_0d 2 (Z.to_nat (day d))
   ++ "/" ++ format_0d 4 (Z.to_nat (year d)))%string.

End PyDate.

(* ===================================================================== *)
(** * pandas: cells, tables and the operations the script calls *)
(* ===================================================================== *)

Module Pandas.
Import PyStr PyFloat Py.

(** A cell as the reader leaves it: text, an integer, or a float; a blank
    cell is the float NaN. *)
Inductive cell : Type :=
| Text (s : string)
| Int (n : Z)
| Num (f : float).

Definition NA : cell := Num nan.

(** [pd.isna(x)] *)
Definition isna (x : cell) : bool :=
  match x with
  | Num f => is_nan f
  | _ => false
  end.

(** A table: its header and its rows, each row aligned with the header.
    Headers are taken to be pairwise distinct, so [df[name]] is a column. *)
Record DataFrame : Type := mkdf { columns : list string; rows : list (list cell) }.

Fixpoint index_of (name : string) (cols : list string) : option nat :=
  match cols with
  | [] => None
  | c :: t =>
      if String.eqb c name then Some O
      else match index_of name t with
           | Some i => Some (S i)
           | None => None
           end
  end.

(** [name in df.columns] *)
Definition has_column (df : DataFrame) (name : string) : bool :=
  existsb (String.eqb name) (columns df).

(** [row[name]] *)
Definition at_col (df : DataFrame) (name : string) (row : list cell) : cell :=
  match index_of name (columns df) with
  | Some i => nth i row NA
  | None => NA
  end.

(** [df[name]] as the list of its cells *)
Definition get_col (df : DataFrame) (name : string) : list cell :=
  map (at_col df name) (rows df).

(** The row with [f] applied to its [i]-th cell, if it has one. *)
Fixpoint map_at (i : nat) (f : cell -> cell) (row : list cell) : list cell :=
  match i, row with
  | O, c :: t => f c :: t
  | S i', c :: t => c :: map_at i' f t
  | _, [] => []
  end.

(** [df.loc[mask]] for a boolean mask aligned with the rows *)
Fixpoint select {A} (mask : list bool) (l : list A) : list A :=
  match mask, l with
  | b :: mask', x :: l' => if b then x :: select mask' l' else select mask' l'
  | _, _ => []
  end.

Definition loc (mask : list bool) (df : DataFrame) : DataFrame :=
  mkdf (columns df) (select mask (rows df)).

(** Decimal rendering of an integer cell, [str(n)] *)
Definition str_int (n : Z) : string :=
  match n with
  | Zneg p => String "-"%char (decimal (Pos.to_nat p))
  | _ => decimal (Z.to_nat n)
  end.

Section Str.
(** [str(x)] of a float that is not NaN (the shortest decimal literal
    that reads back as [x]) is a built-in of the interpreter and is taken
    as given. *)
Variable str_float : float -> string.

(** [str(x)], and [astype(str)] on one cell *)
Definition py_str (x : cell) : string :=
  match x with
  | Text s => s
  | Int n => str_int n
  | Num f => if is_nan f then "nan" else str_float f
  end.

(** [series.astype(str)] *)
Definition astype_str (col : list cell) : list string := map py_str col.

(** [series.str.contains(pat, case=False, na=False)] on a column of
    strings, for a pattern without regular-expression operators *)
Definition str_contains_nocase (pat : string) (col : list string) : list bool :=
  map (fun s => contains (lower pat) (lower s)) col.
End Str.

(** The [str] of the few floats that occur in the examples. *)
Definition example_str_float (f : float) : string :=
  if float_eq_dec f (of_Z 20) then "20.0"
  else if float_eq_dec f (of_Z 25) then "25.0"
  else "0.0".

(** The float in a cell of a float column *)
Definition cell_float (x : cell) : float :=
  match x with
  | Num f => f
  | Int n => of_Z n
  | Text _ => nan
  end.

(** A column of integers that has to hold NaN becomes a float column:
    every integer turns into the nearest float. *)
Definition is_int (x : cell) : bool :=
  match x with
  | Int _ => true
  | _ => false
  end.

Definition upcast (x : cell) : cell :=
  match x with
  | Int n => Num (of_Z n)
  | _ => x
  end.

(** [series.fillna(v)] on one float *)
Definition fillna (v : float) (x : float) : float :=
  if is_nan x then v else x.

(** ** Group and join keys *)

Definition key : Type := string * float.

Definition key_eqb (a b : key) : bool :=
  String.eqb (fst a) (fst b) && same_key (snd a) (snd b).

Definition key_repr (k : key) : key := (fst k, key_float (snd k)).

(** Ascending on the name, then on the rate with NaN last. *)
Definition key_leb (a b : key) : bool :=
  match String.compare (fst a) (fst b) with
  | Lt => true
  | Gt => false
  | Eq => fleb (snd a) (snd b)
  end.

(** Equality of cells as [drop_duplicates] sees it; a column holds one
    numeric type, so an integer is never compared with a float. *)
Definition cell_eqb (a b : cell) : bool :=
  match a, b with
  | Text s, Text t => String.eqb s t
  | Int m, Int n => Z.eqb m n
  | Num f, Num g => same_key f g
  | _, _ => false
  end.

Section Generic.
Context {A : Type}.

(** Stable sort by insertion, the order [sort_values] gives on several
    columns. *)
Fixpoint insert_sorted (leb : A -> A -> bool) (x : A) (l : list A) : list A :=
  match l with
  | [] => [x]
  | y :: t => if leb x y then x :: l else y :: insert_sorted leb x t
  end.

Fixpoint sort_by (leb : A -> A -> bool) (l : list A) : list A :=
  match l with
  | [] => []
  | x :: t => insert_sorted leb x (sort_by leb t)
  end.

(** First occurrences, in order: [drop_duplicates] and the distinct
    group keys of [groupby]. *)
Fixpoint drop_duplicates_by (eqb : A -> A -> bool) (seen : list A) (l : list A)
  : list A :=
  match l with
  | [] => []
  | x :: t =>
      if existsb (eqb x) seen then drop_duplicates_by eqb seen t
      else x :: drop_duplicates_by eqb (x :: seen) t
  end.
End Generic.

(** [groupby(keys, dropna=False)[col].sum()]: one row per distinct key, NaN
    keys included, keys in ascending order; the sum of a group runs over
    its rows in table order and skips NaN values.  It is the compensated
    (Kahan) sum of pandas' [group_sum]: beside the running sum it carries
    the rounding error of the last addition and takes it off the next
    value; a compensation that comes out NaN, as it does once an infinity
    is added, is put back to zero. *)
Section GroupBy.
Context {A : Type}.
Variable key_of : A -> key.
Variable value_of : A -> float.

Definition group_keys (l : list A) : list key :=
  sort_by key_leb (drop_duplicates_by key_eqb [] (map key_of l)).

Definition group_rows (k : key) (l : list A) : list A :=
  filter (fun x => key_eqb k (key_of x)) l.

(** One value added: [y = val - compensation; t = sumx + y;
    compensation = t - sumx - y; sumx = t]. *)
Definition kahan_step (state : float * float) (val : float) : float * float :=
  let '(sumx, compensation) := state in
  let y := fsub val compensation in
  let t := fadd sumx y in
  let compensation := fsub (fsub t sumx) y in
  (t, if is_nan compensation then zero else compensation).

Definition sum_skipna (vs : list float) : float :=
  fst (fold_left (fun state v => if is_nan v then state else kahan_step state v)
                 vs (zero, zero)).

Definition groupby_sum (l : list A) : list (key * float) :=
  map (fun k => (k, sum_skipna (map value_of (group_rows k l)))) (group_keys l).
End GroupBy.

(** [left.merge(right, how="left", left_on=keys, right_on=keys)]: each left
    row, in order, once per right row with the same key (in the order of
    the right table), or once with nothing when there is none. *)
Section Merge.
Context {L R : Type}.
Variable lkey : L -> key.
Variable rkey : R -> key.

Definition matching (l : L) (right : list R) : list R :=
  filter (fun r => key_eqb (lkey l) (rkey r)) right.

Definition merge_row (right : list R) (l : L) : list (L * option R) :=
  match matching l right with
  | [] => [(l, None)]
  | ms => map (fun r => (l, Some r)) ms
  end.

Definition merge_left (left : list L) (right : list R) : list (L * option R) :=
  flat_map (merge_row right) left.
End Merge.

End Pandas.

(* ===================================================================== *)
(** * app.py *)
(* ===================================================================== *)

Module App.
Import PyStr PyFloat Py PyDate Pandas.

(** ** Helper functions *)

(** [not l], [df.empty] *)
Definition is_empty {A} (l : list A) : bool :=
  match l with [] => true | _ => false end.

(** [cols_lower = {c.lower(): c for c in df.columns}] *)
Definition cols_lower (columns : list string) : dict string :=
  fold_left (fun d c => dict_set (lower c) c d) columns [].

(** The inner loop [for k, v in cols_lower.items(): if cand.lower() in k:
    return v]. *)
Definition first_containing (cand : string) (d : dict string) : option string :=
  match find (fun kv => contains (lower cand) (fst kv)) d with
  | Some (_, v) => Some v
  | None => None
  end.

(** [infer_column(df, candidates)]; only [df.columns] is read. *)
Fixpoint infer_column (columns : list string) (candidates : list string)
  : option string :=
  match candidates with
  | [] => None
  | cand :: rest =>
      match dict_get (lower cand) (cols_lower columns) with
      | Some v => Some v
      | None =>
          match first_containing cand (cols_lower columns) with
          | Some v => Some v
          | None => infer_column columns rest
          end
      end
  end.

(** The reading of the inferencer in which every candidate is tried for an
    exact match before any substring fallback is attempted.  It follows the
    prose description of the inferencer, not the code, and exists to be
    compared with [infer_column]. *)
Fixpoint first_exact (d : dict string) (candidates : list string) : option string :=
  match candidates with
  | [] => None
  | cand :: rest =>
      match dict_get (lower cand) d with
      | Some v => Some v
      | None => first_exact d rest
      end
  end.

Fixpoint first_substring (d : dict string) (candidates : list string) : option string :=
  match candidates with
  | [] => None
  | cand :: rest =>
      match first_containing cand d with
      | Some v => Some v
      | None => first_substring d rest
      end
  end.

Definition infer_column_exact_first (columns candidates : list string) : option string :=
  match first_exact (cols_lower columns) candidates with
  | Some v => Some v
  | None => first_substring (cols_lower columns) candidates
  end.

(** A candidate matches a table when some lower-cased header contains the
    lower-cased candidate; an exact match is a special case. *)
Definition candidate_matches (cand : string) (d : dict string) : bool :=
  existsb (fun kv => contains (lower cand) (fst kv)) d.

(** The loop [while d.weekday() != 6: d -= timedelta(days=1)].  [None] means
    that [fuel] iterations were not enough. *)
Fixpoint back_to_sunday (fuel : nat) (d : date) : option (result date) :=
  match fuel with
  | O => None
  | S fuel' =>
      if negb (weekday d =? 6)%Z then
        match sub_days d 1 with
        | Ok d' => back_to_sunday fuel' d'
        | Raise e => Some (Raise e)
        end
      else Some (Ok d)
  end.

(** [most_recent_sunday(anchor)]; [today] is what [date.today()] returns. *)
Definition most_recent_sunday (fuel : nat) (today : date) (anchor : option date)
  : option (result date) :=
  let anchor := match anchor with None => today | Some a => a end in
  let dow := weekday anchor in
  let days_back := ((dow + 1) mod 7 + 0)%Z in
  back_to_sunday fuel anchor.

(** [s.str.replace(r"\s+", " ", regex=True).str.strip()] on one string *)
Definition canonical_spacing (s : string) : string := strip (collapse_ws s).

Section WithStr.
Variable str_float : float -> string.

Definition NAME_ERROR : exn :=
  ValueError "Could not determine employee name columns. Please map them in the sidebar.".

(** [c in df.columns] and [df[c]] for a name of type [str | None]; the
    script evaluates them only behind the test that [c] is a non-empty
    string. *)
Definition in_columns (df : DataFrame) (c : option string) : bool :=
  match c with
  | Some name => has_column df name
  | None => false
  end.

Definition column_of (df : DataFrame) (c : option string) : list cell :=
  match c with
  | Some name => get_col df name
  | None => []
  end.

(** [a.str.strip() + " " + b.str.strip()], row by row *)
Fixpoint first_last (a b : list string) : list string :=
  match a, b with
  | x :: a', y :: b' => (strip x ++ " " ++ strip y)%string :: first_last a' b'
  | _, _ => []
  end.

(** [normalize_name_parts(df, first_col, last_col, full_col)] *)
Definition normalize_name_parts (df : DataFrame)
    (first_col last_col full_col : option string) : result (list string) :=
  names <-
    (if truthy full_col && in_columns df full_col then
       Ok (astype_str str_float (column_of df full_col))
     else if truthy first_col && truthy last_col
             && in_columns df first_col && in_columns df last_col then
       Ok (first_last (astype_str str_float (column_of df first_col))
                      (astype_str str_float (column_of df last_col)))
     else
       let guessed := infer_column (columns df) ["employee name"; "name"] in
       if truthy guessed then Ok (astype_str str_float (column_of df guessed))
       else Raise NAME_ERROR) ;;
  Ok (map canonical_spacing names).

(** ** Transformations *)

(** Step 1: [payroll_df[client_col] = payroll_df[client_col].astype(str)] *)
Definition client_as_str (payroll_df : DataFrame) (client_col : string) : DataFrame :=
  match index_of client_col (columns payroll_df) with
  | Some i =>
      mkdf (columns payroll_df)
           (map (map_at i (fun c => Text (py_str str_float c))) (rows payroll_df))
  | None => payroll_df
  end.

(** [mask_ucla = payroll_df[client_col].str.contains("UCLA", case=False, na=False)] *)
Definition mask_ucla (payroll_df : DataFrame) (client_col : string) : list bool :=
  str_contains_nocase "UCLA"
    (astype_str str_float (get_col payroll_df client_col)).

(** The test behind [mask_ucla] for one row of the table as read. *)
Definition is_ucla_row (payroll_df : DataFrame) (client_col : string)
    (row : list cell) : bool :=
  contains (lower "UCLA") (lower (py_str str_float (at_col payroll_df client_col row))).

(** [payroll_ucla = payroll_df.loc[mask_ucla].copy()] *)
Definition payroll_ucla (payroll_df : DataFrame) (client_col : string)
  : result DataFrame :=
  if has_column payroll_df client_col then
    let df := client_as_str payroll_df client_col in
    Ok (loc (mask_ucla df client_col) df)
  else Raise (KeyError client_col).

(** [to_num(x)] *)
Definition to_num (x : cell) : float :=
  match py_float (remove_char ","%char (py_str str_float x)) with
  | Some f => f
  | None => nan
  end.

(** An hours cell after [.apply(to_num).fillna(0.0)] *)
Definition hours_field (x : cell) : float := fillna zero (to_num x).

(** A pay-rate cell after [.apply(to_num)] *)
Definition pay_rate_field (x : cell) : float := to_num x.

(** One row of the filtered payroll with its derived columns
    ["Employee Name"], ["Pay Rate"] and ["Hours"]. *)
Record PayRow : Type := mkpay
  { EmployeeName : string; PayRate : float; Hours : float }.

Definition pay_key (r : PayRow) : key := (EmployeeName r, PayRate r).


(** The records of lines 179 to 187 from the cells of the four roles, for
    a table in which every role has a column of its own; [with_hours]
    below follows the assignments whatever the roles are. *)
Fixpoint pay_rows (names : list string) (cells : list (cell * (cell * cell * cell)))
  : list PayRow :=
  match names, cells with
  | name :: names', (rate, (reg, ot, dt)) :: cells' =>
      mkpay name (pay_rate_field rate)
            (fadd (fadd (hours_field reg) (hours_field ot)) (hours_field dt))
      :: pay_rows names' cells'
  | _, _ => []
  end.

(** The script assigns to columns as it goes ([df[c] = ...] adds the
    column [c] or replaces it), and a later read of a column sees the last
    assignment.  For one row, [written] holds the cells assigned so far. *)
Definition read (df : DataFrame) (written : dict cell) (c : string)
    (row : list cell) : cell :=
  match dict_get c written with
  | Some v => v
  | None => at_col df c row
  end.

(** [c in df.columns] once the columns [written] have been assigned *)
Definition present (df : DataFrame) (written : list string) (c : string) : bool :=
  existsb (String.eqb c) written || has_column df c.

(** Lines 166 to 187 on one row of the filtered table: the cells of
    ["Employee Name"], ["Pay Rate"] and ["Hours"] as line 189 finds
    them. *)
Definition hours_row (df : DataFrame) (reg_col ot_col dt_col payrate_col : string)
    (name : string) (row : list cell) : cell * cell * cell :=
  let w := dict_set "Employee Name" (Text name) [] in
  let w := dict_set reg_col (Num (hours_field (read df w reg_col row))) w in
  let w := dict_set ot_col (Num (hours_field (read df w ot_col row))) w in
  let w := dict_set dt_col (Num (hours_field (read df w dt_col row))) w in
  let w := dict_set "Pay Rate" (Num (pay_rate_field (read df w payrate_col row))) w in
  let w := dict_set "Hours"
             (Num (fadd (fadd (cell_float (read df w reg_col row))
                              (cell_float (read df w ot_col row)))
                        (cell_float (read df w dt_col row)))) w in
  (read df w "Employee Name" row, read df w "Pay Rate" row, read df w "Hours" row).

(** A record has a string for its name.  When an hours role is the column
    ["Employee Name"], line 179, 180 or 181 has put numbers there: the
    script goes on with them, the records of this development do not. *)
Definition pay_record (t : cell * cell * cell) : option PayRow :=
  match t with
  | (Text name, Num rate, Num hours) => Some (mkpay name rate hours)
  | _ => None
  end.

Fixpoint records (l : list (cell * cell * cell)) : option (list PayRow) :=
  match l with
  | [] => Some []
  | t :: l' =>
      match pay_record t, records l' with
      | Some r, Some rs => Some (r :: rs)
      | _, _ => None
      end
  end.

(** Steps 2 and 3 up to the ["Hours"] column.  [None] is the case that
    [pay_record] leaves out; an exception raised before that is
    [Some (Raise e)]. *)
Definition with_hours (df : DataFrame)
    (first_col last_col full_name_col : option string)
    (reg_col ot_col dt_col payrate_col : string)
  : option (result (list PayRow)) :=
  match normalize_name_parts df first_col last_col full_name_col with
  | Raise e => Some (Raise e)
  | Ok names =>
      match find (fun c => negb (present df ["Employee Name"] c))
                 [reg_col; ot_col; dt_col] with
      | Some c => Some (Raise (ValueError ("Missing hours column: " ++ c)))
      | None =>
          if present df ["Employee Name"] payrate_col then
            option_map Ok
              (records
                 (map (fun p => hours_row df reg_col ot_col dt_col payrate_col
                                  (fst p) (snd p))
                      (combine names (rows df))))
          else
            Some (Raise (ValueError
                    "Could not find Pay Rate column in Payroll. Map it in the sidebar."))
      end
  end.

(** [summary = payroll_ucla.groupby(["Employee Name", "Pay Rate"],
    dropna=False, as_index=False)["Hours"].sum()] *)
Definition summary (payroll : list PayRow) : list PayRow :=
  map (fun kv => mkpay (fst (fst kv)) (snd (fst kv)) (snd kv))
      (groupby_sum pay_key Hours payroll).

(** Step 4: the roster with its [_name] and [_rate] columns, cut down to
    [[_name, _rate, assign_no_col]]. *)
Record RosterRow : Type := mkroster
  { r_name : string; r_rate : float; AssignNo : cell }.

Definition roster_key (r : RosterRow) : key := (r_name r, r_rate r).

Definition roster_eqb (a b : RosterRow) : bool :=
  key_eqb (roster_key a) (roster_key b) && cell_eqb (AssignNo a) (AssignNo b).

(** Lines 196 to 198 on one row: [_name] is assigned before the rate
    column is read, and [_rate] before the assignment column is. *)
Definition roster_row (assign_df : DataFrame)
    (assign_name_col assign_rate_col assign_no_col : string) (row : list cell)
  : RosterRow :=
  let name := canonical_spacing (py_str str_float (at_col assign_df assign_name_col row)) in
  let w := dict_set "_name" (Text name) [] in
  let rate := to_num (read assign_df w assign_rate_col row) in
  let w := dict_set "_rate" (Num rate) w in
  mkroster name rate (read assign_df w assign_no_col row).

Definition roster_rows (assign_df : DataFrame)
    (assign_name_col assign_rate_col assign_no_col : string) : list RosterRow :=
  map (roster_row assign_df assign_name_col assign_rate_col assign_no_col)
      (rows assign_df).

(** [assign_df_slim = assign_df[["_name", "_rate", assign_no_col]].drop_duplicates()],
    with the look-ups of lines 196 and 197 before it.  A single missing
    label raises [KeyError] with the label, the list look-up of line 198
    with the message of pandas. *)
Definition assign_df_slim (assign_df : DataFrame)
    (assign_name_col assign_rate_col assign_no_col : string)
  : result (list RosterRow) :=
  if negb (has_column assign_df assign_name_col) then
    Raise (KeyError assign_name_col)
  else if negb (present assign_df ["_name"] assign_rate_col) then
    Raise (KeyError assign_rate_col)
  else if negb (present assign_df ["_name"; "_rate"] assign_no_col) then
    Raise (KeyError ("['" ++ assign_no_col ++ "'] not in index"))
  else
    Ok (drop_duplicates_by roster_eqb []
          (roster_rows assign_df assign_name_col assign_rate_col assign_no_col)).

(** Step 5: the [_name] and [_rate] columns of [summary]. *)
Definition summary_key (r : PayRow) : key :=
  (canonical_spacing (py_str str_float (Text (EmployeeName r))),
   to_num (Num (PayRate r))).

(** A row of [joined]: the summary row and the ["Assignment #"] it
    received, NaN when no roster row has its key. *)
Record JoinedRow : Type := mkjoined { Assignment : cell; pay : PayRow }.

Definition joined_row (p : PayRow * option RosterRow) : JoinedRow :=
  match snd p with
  | Some r => mkjoined (AssignNo r) (fst p)
  | None => mkjoined NA (fst p)
  end.

(** The rows of the merge before the assignment column gets its type. *)
Definition merged (summary_rows : list PayRow) (slim : list RosterRow)
  : list JoinedRow :=
  map joined_row (merge_left summary_key roster_key summary_rows slim).

(** The assignment column of the merge is a float column when the
    roster's is an integer column and some record found no roster row. *)
Definition widened (summary_rows : list PayRow) (slim : list RosterRow) : bool :=
  forallb (fun e => is_int (AssignNo e)) slim
  && existsb (fun r => is_empty (matching summary_key roster_key r slim)) summary_rows.

(** [joined = summary.merge(assign_df_slim, how="left", ...)] followed by
    the renaming of step 6 *)
Definition joined (summary_rows : list PayRow) (slim : list RosterRow)
  : list JoinedRow :=
  if widened summary_rows slim
  then map (fun j => mkjoined (upcast (Assignment j)) (pay j)) (merged summary_rows slim)
  else merged summary_rows slim.
End WithStr.

(** Step 7: [joined.sort_values(["Employee Name", "Pay Rate"])] *)
Definition joined_leb (a b : JoinedRow) : bool :=
  key_leb (pay_key (pay a)) (pay_key (pay b)).

Definition sort_values (rows : list JoinedRow) : list JoinedRow :=
  sort_by joined_leb rows.

(** [[f"{we_id_prefix}{i:04d}" for i in range(1, n + 1)]] *)
Definition line_ids (we_id_prefix : string) (n : nat) : list string :=
  map (fun i => (we_id_prefix ++ format_0d 4 i)%string) (seq 1 n).

Record ExportRow : Type := mkexport
  { x_assignment : cell; x_name : string; x_rate : float;
    WorkDate : string; WeekendingDate : string;
    x_hours : float; UniqueLineID : string }.

(** [final]: the sorted rows with the two date columns and the line IDs,
    in the column order of [final_cols]. *)
Definition final (rows : list JoinedRow) (custom_we : date) : list ExportRow :=
  let we_str := strftime_mdY custom_we in
  let we_id_prefix := strftime_Ymd custom_we in
  let sorted := sort_values rows in
  map (fun p : JoinedRow * string =>
         let (j, id) := p in
         mkexport (Assignment j) (EmployeeName (pay j)) (PayRate (pay j))
                  we_str we_str (Hours (pay j)) id)
      (combine sorted (line_ids we_id_prefix (List.length sorted))).

(** Step 8: [unmatched = joined[joined["Assignment #"].isna()][["Employee
    Name", "Pay Rate", "Hours"]]], on the sorted rows *)
Definition unmatched (rows : list JoinedRow) : list PayRow :=
  map pay (filter (fun j => isna (Assignment j)) (sort_values rows)).

(** Step 9: the workbook and what the page shows. *)
Inductive Sheet : Type :=
| ExportSheet (rows : list ExportRow)
| UnmatchedSheet (rows : list PayRow).

Definition UNMATCHED_WARNING : string :=
  "Some rows could not be matched to an Assignment # (check name or pay rate differences). See below.".

Record Output : Type := mkoutput
  { preview : list ExportRow;
    warnings : list string;
    workbook : list (string * Sheet);
    file_name : string }.

(** Steps 6 to 9, from the merged rows to the download. *)
Definition export (rows : list JoinedRow) (custom_we : date) : Output :=
  let final_rows := final rows custom_we in
  let unmatched_rows := unmatched rows in
  mkoutput final_rows
    (if negb (is_empty unmatched_rows) then [UNMATCHED_WARNING] else [])
    (("Export", ExportSheet final_rows)
     :: (if negb (is_empty unmatched_rows)
         then [("Unmatched", UnmatchedSheet unmatched_rows)] else []))
    ("ucla_assignment_export_" ++ strftime_Ymd custom_we ++ ".xlsx").

(** The column mapping chosen in the sidebar. *)
Record Mapping : Type := mkmapping
  { client_col : string; reg_col : string; ot_col : string; dt_col : string;
    payrate_col : string;
    first_col : option string; last_col : option string;
    full_name_col : option string;
    assign_name_col : string; assign_rate_col : string; assign_no_col : string }.

(** The whole script after the files are read and the mapping is chosen.
    After the roster is prepared three things can still go wrong, all of
    them through the name of the assignment column: [_name] or [_rate]
    makes line 198 select that label twice and the merge refuses a label
    that is not unique; ["Employee Name"] or ["Pay Rate"] comes out of the
    merge with a suffix, so that the sort of line 216 misses its column;
    ["Hours"] likewise, which line 223 notices.  [None] is passed on from
    [with_hours]. *)
Definition run (str_float : float -> string)
    (payroll_df assign_df : DataFrame) (m : Mapping) (custom_we : date)
  : option (result Output) :=
  match payroll_ucla str_float payroll_df (client_col m) with
  | Raise e => Some (Raise e)
  | Ok ucla =>
      match with_hours str_float ucla (first_col m) (last_col m) (full_name_col m)
              (reg_col m) (ot_col m) (dt_col m) (payrate_col m) with
      | None => None
      | Some (Raise e) => Some (Raise e)
      | Some (Ok payroll) =>
          match assign_df_slim str_float assign_df
                  (assign_name_col m) (assign_rate_col m) (assign_no_col m) with
          | Raise e => Some (Raise e)
          | Ok slim =>
              if existsb (String.eqb (assign_no_col m)) ["_name"; "_rate"] then
                Some (Raise (ValueError
                        ("The column label '" ++ assign_no_col m ++ "' is not unique.")))
              else if existsb (String.eqb (assign_no_col m))
                        ["Employee Name"; "Pay Rate"] then
                Some (Raise (KeyError (assign_no_col m)))
              else if String.eqb (assign_no_col m) "Hours" then
                Some (Raise (KeyError "['Assignment #', 'Hours'] not in index"))
              else
                Some (Ok (export (joined str_float (summary payroll) slim) custom_we))
          end
      end
  end.

End App.

(* ===================================================================== *)
(** * app.py: reading the uploads *)
(* ===================================================================== *)

Module Reader.
Import PyStr PyFloat Py Pandas.

(** [s.endswith(suffix)]: some tail of [s] is [suffix]. *)
Fixpoint endswith (suffix s : string) : bool :=
  String.eqb s suffix ||
  match s with
  | EmptyString => false
  | String _ t => endswith suffix t
  end.

(** An uploaded file: its name, its bytes and the position of the next
    read. *)
Record File : Type := mkfile { name : string; data : string; position : nat }.

(** A table as a pandas reader returns it: a header label is whatever the
    header cell holds, a number for a numeric header. *)
Record RawTable : Type := mkraw { labels : list cell; body : list (list cell) }.

(** [str(e)] for the exceptions of this development *)
Definition exn_str (e : exn) : string :=
  match e with
  | ValueError msg => msg
  | KeyError key => ("'" ++ key ++ "'")%string
  | OverflowError msg => msg
  end.

Section Readers.
Variable str_float : float -> string.

(** [pd.read_csv(file)], [pd.read_excel(file, engine="openpyxl")] and
    [pd.read_excel(file)], as functions of the bytes and of the position
    the read starts from. *)
Variable read_csv : string -> nat -> result RawTable.
Variable read_excel_openpyxl : string -> nat -> result RawTable.
Variable read_excel : string -> nat -> result RawTable.

(** [[str(c).strip() for c in df.columns]] *)
Definition normalize_headers (labels : list cell) : list string :=
  map (fun c => strip (py_str str_float c)) labels.

(** [read_any_table(file)]; [file.seek(0)] puts the fallback reader at the
    start of the bytes, wherever the first reader stopped. *)
Definition read_any_table (file : File) : result DataFrame :=
  let name := lower (name file) in
  df <- (if endswith ".csv" name then read_csv (data file) (position file)
         else
           match read_excel_openpyxl (data file) (position file) with
           | Ok df => Ok df
           | Raise _ => read_excel (data file) 0
           end) ;;
  Ok (mkdf (normalize_headers (labels df)) (body df)).

(** What the page holds after the upload widgets and the reading of the
    files: the notice of [st.info], the failure of [st.error], or the two
    tables. *)
Inductive Page : Type :=
| Notice (msg : string)
| Failure (msg : string)
| Tables (payroll_df assign_df : DataFrame).

(** The script from the uploaders to the previews. *)
Definition load (payroll_file assign_file : option File) : Page :=
  match payroll_file, assign_file with
  | Some p, Some a =>
      match (payroll_df <- read_any_table p ;;
             assign_df <- read_any_table a ;;
             Ok (payroll_df, assign_df)) with
      | Ok (payroll_df, assign_df) => Tables payroll_df assign_df
      | Raise e => Failure ("Failed to read one of the files: " ++ exn_str e)
      end
  | _, _ => Notice "Upload both files to continue."
  end.
End Readers.

End Reader.

(* ===================================================================== *)
(** * app.py: the sidebar *)
(* ===================================================================== *)

Module Sidebar.
Import PyStr PyFloat Py Pandas App.

(** [list(df.columns).index(c) if c in df.columns else 0] for a column [c]
    that the inference may have left at [None] *)
Definition default_index (columns : list string) (c : option string) : nat :=
  match c with
  | Some name =>
      if existsb (String.eqb name) columns then
        match index_of name columns with
        | Some i => i
        | None => 0
        end
      else 0
  | None => 0
  end.

(** [st.sidebar.selectbox(label, options, index=i)]: the option at [i]
    until the operator picks the option at another position; [None] when
    there is nothing to choose from. *)
Definition selectbox (options : list string) (index : nat) (pick : option nat)
  : option string :=
  match pick with
  | Some i => nth_error options i
  | None => nth_error options index
  end.

Inductive NameMode : Type := FullNameColumn | FirstLast.

(** [st.sidebar.radio(label, ["Full name column", "First + Last"], index=i)] *)
Definition radio (index : nat) (pick : option NameMode) : NameMode :=
  match pick with
  | Some mode => mode
  | None => match index with O => FullNameColumn | _ => FirstLast end
  end.

(** What the operator did in the sidebar: for each widget the position
    picked, [None] for a widget left alone. *)
Record Picks : Type := mkpicks
  { pick_client : option nat; pick_reg : option nat; pick_ot : option nat;
    pick_dt : option nat; pick_payrate : option nat;
    pick_mode : option NameMode;
    pick_full : option nat; pick_first : option nat; pick_last : option nat;
    pick_assign_name : option nat; pick_assign_rate : option nat;
    pick_assign_no : option nat }.

Definition untouched : Picks :=
  mkpicks None None None None None None None None None None None None.

(** One role: the inferred column, then the selectbox that starts on it. *)
Definition choose (columns candidates : list string) (pick : option nat)
  : option string :=
  let inferred := infer_column columns candidates in
  selectbox columns (default_index columns inferred) pick.

Definition option_bind {A B} (o : option A) (k : A -> option B) : option B :=
  match o with
  | Some a => k a
  | None => None
  end.

(** The sidebar of the script, from the two headers to the mapping.  A
    selectbox over a table without columns returns [None]; no mapping
    comes out then. *)
Definition mapping (payroll_columns assign_columns : list string) (picks : Picks)
  : option Mapping :=
  option_bind (choose payroll_columns ["client"; "client name"; "venue"; "customer"]
                 (pick_client picks)) (fun client_col =>
  option_bind (choose payroll_columns ["Reg H (e)"; "Reg H"; "reg hours"; "regular hours"]
                 (pick_reg picks)) (fun reg_col =>
  option_bind (choose payroll_columns ["OT H (e)"; "OT H"; "ot hours"; "overtime hours"]
                 (pick_ot picks)) (fun ot_col =>
  option_bind (choose payroll_columns ["DT H (e)"; "DT H"; "doubletime hours"; "dt hours"]
                 (pick_dt picks)) (fun dt_col =>
  option_bind (choose payroll_columns ["pay rate"; "rate"; "payrate"; "pay_rate"]
                 (pick_payrate picks)) (fun payrate_col =>
  let full_name_col :=
    infer_column payroll_columns ["employee name"; "name"; "emp name"] in
  let name_mode := radio (if truthy full_name_col then 0 else 1) (pick_mode picks) in
  option_bind
    (match name_mode with
     | FullNameColumn =>
         option_bind (choose payroll_columns ["employee name"; "name"; "emp name"]
                        (pick_full picks)) (fun full_name_col =>
         Some (None, None, Some full_name_col))
     | FirstLast =>
         option_bind (choose payroll_columns ["first name"; "firstname"; "emp first name"]
                        (pick_first picks)) (fun first_col =>
         option_bind (choose payroll_columns ["last name"; "lastname"; "emp last name"]
                        (pick_last picks)) (fun last_col =>
         Some (Some first_col, Some last_col, None)))
     end) (fun names =>
  let '(first_col, last_col, full_name_col) := names in
  option_bind (choose assign_columns
                 ["employee name"; "name"; "firstname lastname"; "employee"]
                 (pick_assign_name picks)) (fun assign_name_col =>
  option_bind (choose assign_columns ["pay rate"; "rate"; "payrate"]
                 (pick_assign_rate picks)) (fun assign_rate_col =>
  option_bind (choose assign_columns
                 ["assign no"; "assignment #"; "assignment"; "assign #";
                  "assignment number"]
                 (pick_assign_no picks)) (fun assign_no_col =>
  Some (mkmapping client_col reg_col ot_col dt_col payrate_col
          first_col last_col full_name_col
          assign_name_col assign_rate_col assign_no_col)))))))))).

End Sidebar.

(* ===================================================================== *)
(** * Representatives of equal roster rows *)
(* ===================================================================== *)

Module Keys.
Import PyFloat Pandas App.

(** One representative for the cells that [cell_eqb] identifies: the sign
    of a zero is dropped. *)
Definition cell_repr (c : cell) : cell :=
  match c with
  | Num f => Num (key_float f)
  | _ => c
  end.

(** One representative for the roster rows that [drop_duplicates]
    identifies. *)
Definition roster_repr (r : RosterRow) : key * cell :=
  (key_repr (roster_key r), cell_repr (AssignNo r)).

End Keys.

(* ===================================================================== *)
(** * Checkers over ranges of integers *)
(* ===================================================================== *)

Module Checks.
Import PyStr PyDate.
Local Open Scope Z_scope.

(** [p] holds at [start], [start + 1], ..., [count] values in all. *)
Fixpoint all_from (p : Z -> bool) (start : Z) (count : nat) : bool :=
  match count with
  | O => true
  | S k => p start && all_from p (start + 1) k
  end.

(** Below [bound], the padded number has exactly [w] characters, all of
    them digits. *)
Definition fits (w : nat) (bound : nat) : bool :=
  all_from (fun z => (String.length (format_0d_N w (Z.to_N z)) =? w)%nat
                     && all_digits (format_0d_N w (Z.to_N z)))
           0 bound.

(** The month and day of the day numbered [n] from 0 within a year: the
    last part of [ord2ymd]. *)
Definition month_day (leapyear : bool) (n : Z) : Z * Z :=
  let month := Z.shiftr (n + 50) 5 in
  let preceding := DAYS_BEFORE_MONTH month + Z.b2z ((2 <? month) && leapyear) in
  if n <? preceding then
    let month := month - 1 in
    let preceding :=
      preceding - (DAYS_IN_MONTH month + Z.b2z ((month =? 2) && leapyear)) in
    (month, n - preceding + 1)
  else (month, n - preceding + 1).

(** Day [n] of the year lands on a valid month and day, and the days before
    that month plus the day count back to [n]. *)
Definition month_day_ok (leapyear : bool) (n : Z) : bool :=
  let '(m, d) := month_day leapyear n in
  (1 <=? m) && (m <=? 12) && (1 <=? d)
  && (d <=? DAYS_IN_MONTH m + Z.b2z ((m =? 2) && leapyear))
  && (DAYS_BEFORE_MONTH m + Z.b2z ((2 <? m) && leapyear) + d =? n + 1).

End Checks.

(* ===================================================================== *)
(** * Facts about the string functions *)
(* ===================================================================== *)

Module StrFacts.
Import PyStr.

Lemma lstrip_cons_nonspace c t :
  is_space c = false -> lstrip (String c t) = String c t.
Proof. intros H. simpl. now rewrite H. Qed.

Lemma rstrip_cons_nonspace c t :
  is_space c = false -> rstrip (String c t) = String c (rstrip t).
Proof. intros H. simpl. rewrite H. now destruct (rstrip t). Qed.

Lemma rstrip_cons_space c t :
  is_space c = true ->
  rstrip (String c t) =
  match rstrip t with EmptyString => EmptyString | r => String c r end.
Proof. intros H. simpl. rewrite H. reflexivity. Qed.

(** Inside a run of whitespace the collapsed text never starts with
    whitespace. *)
Lemma lstrip_collapse_true s :
  lstrip (collapse_from true s) = collapse_from true s.
Proof.
  induction s as [|c t IH]; simpl; [reflexivity|].
  destruct (is_space c) eqn:Hc; [exact IH|].
  simpl. now rewrite Hc.
Qed.

Lemma collapse_true_lstrip s :
  collapse_from true s = lstrip (collapse_from false s).
Proof.
  destruct s as [|c t]; simpl; [reflexivity|].
  destruct (is_space c) eqn:Hc; simpl.
  - now rewrite lstrip_collapse_true.
  - now rewrite Hc.
Qed.

Lemma canonical_tail s :
  rstrip (collapse_from true s) = strip (collapse_ws s).
Proof. unfold strip, collapse_ws. now rewrite collapse_true_lstrip. Qed.

(** Leading whitespace disappears. *)
Lemma strip_collapse_space c t :
  is_space c = true ->
  strip (collapse_ws (String c t)) = strip (collapse_ws t).
Proof.
  intros Hc. unfold strip at 1. unfold collapse_ws at 1. simpl. rewrite Hc.
  simpl. rewrite lstrip_collapse_true. apply canonical_tail.
Qed.

(** A character that is not whitespace stays where it is. *)
Lemma strip_collapse_nonspace c t :
  is_space c = false ->
  strip (collapse_ws (String c t)) = String c (rstrip (collapse_ws t)).
Proof.
  intros Hc. unfold strip, collapse_ws. simpl. rewrite Hc.
  rewrite lstrip_cons_nonspace by assumption.
  now apply rstrip_cons_nonspace.
Qed.

Lemma rstrip_collapse_nonspace d t :
  is_space d = false ->
  rstrip (collapse_ws (String d t)) = strip (collapse_ws (String d t)).
Proof.
  intros Hd. rewrite strip_collapse_nonspace by assumption.
  unfold collapse_ws. simpl. rewrite Hd. now apply rstrip_cons_nonspace.
Qed.

Lemma rstrip_collapse_space d t :
  is_space d = true ->
  rstrip (collapse_ws (String d t)) =
  match strip (collapse_ws t) with
  | EmptyString => EmptyString
  | r => String " "%char r
  end.
Proof.
  intros Hd. unfold collapse_ws at 1. simpl. rewrite Hd.
  rewrite rstrip_cons_space by reflexivity. now rewrite canonical_tail.
Qed.

Lemma split_cons2 c d t :
  split (String c (String d t)) =
  if is_space c then split (String d t)
  else if is_space d then String c EmptyString :: split (String d t)
       else match split (String d t) with
            | w :: ws => String c w :: ws
            | [] => [String c EmptyString]
            end.
Proof. reflexivity. Qed.

(** Every word of [split] is non-empty. *)
Lemma split_nonempty s : Forall (fun w => w <> EmptyString) (split s).
Proof.
  induction s as [|c t IH]; simpl; [constructor|].
  destruct (is_space c); [exact IH|].
  destruct t as [|d t']; [repeat constructor; discriminate|].
  destruct (is_space d).
  - constructor; [discriminate | exact IH].
  - destruct (split (String d t')) as [|w ws].
    + repeat constructor; discriminate.
    + inversion IH; subst. constructor; [discriminate | assumption].
Qed.

Lemma split_cons_nonspace d t :
  is_space d = false -> split (String d t) <> [].
Proof.
  intros Hd. simpl. rewrite Hd. destruct t as [|e t']; [discriminate|].
  destruct (is_space e); [discriminate|].
  destruct (split (String e t')); discriminate.
Qed.

Lemma concat_nil_iff ws :
  Forall (fun w => w <> EmptyString) ws ->
  String.concat " " ws = EmptyString -> ws = [].
Proof.
  intros H E. destruct ws as [|w ws]; [reflexivity|].
  inversion H as [|? ? Hw _]; subst. simpl in E.
  destruct ws; [contradiction|].
  destruct w; [contradiction | discriminate].
Qed.

Lemma concat_cons_char c w ws :
  String.concat " " (String c w :: ws) = String c (String.concat " " (w :: ws)).
Proof. simpl. now destruct ws. Qed.

(** The canonical spacing of a string is its words joined by single
    spaces. *)
Lemma strip_collapse_split s :
  strip (collapse_ws s) = String.concat " " (split s).
Proof.
  induction s as [|c t IH]; [reflexivity|].
  destruct (is_space c) eqn:Hc.
  - rewrite strip_collapse_space by assumption. simpl. now rewrite Hc.
  - rewrite strip_collapse_nonspace by assumption.
    destruct t as [|d t']; [simpl; now rewrite Hc|].
    destruct (is_space d) eqn:Hd.
    + rewrite rstrip_collapse_space by assumption.
      rewrite strip_collapse_space in IH by assumption.
      change (split (String c (String d t')))
        with (if is_space c then split (String d t')
              else if is_space d then String c EmptyString :: split (String d t')
                   else match split (String d t') with
                        | w :: ws => String c w :: ws
                        | [] => [String c EmptyString]
                        end).
      rewrite Hc, Hd.
      assert (Hs : split (String d t') = split t') by (simpl; now rewrite Hd).
      rewrite Hs in *. rewrite IH.
      destruct (split t') as [|w ws] eqn:Hw; [reflexivity|].
      pose proof (split_nonempty t') as Hne. rewrite Hw in Hne.
      destruct (String.concat " " (w :: ws)) eqn:Hcat.
      * apply concat_nil_iff in Hcat; [discriminate | assumption].
      * change (String.concat " " (String c EmptyString :: w :: ws))
          with (String c (String " "%char (String.concat " " (w :: ws)))).
        now rewrite Hcat.
    + rewrite rstrip_collapse_nonspace by assumption. rewrite IH.
      change (split (String c (String d t')))
        with (if is_space c then split (String d t')
              else if is_space d then String c EmptyString :: split (String d t')
                   else match split (String d t') with
                        | w :: ws => String c w :: ws
                        | [] => [String c EmptyString]
                        end).
      rewrite Hc, Hd.
      destruct (split (String d t')) as [|w ws] eqn:Hw.
      * exfalso. now apply (split_cons_nonspace d t').
      * now rewrite concat_cons_char.
Qed.

Lemma split_word_then_space w rest :
  is_word w = true ->
  split (w ++ String " "%char rest) = w :: split rest.
Proof.
  induction w as [|c w' IH]; [discriminate|].
  unfold is_word. simpl no_space. intros H.
  apply andb_prop in H as [_ H]. apply andb_prop in H as [Hc Hw].
  apply negb_true_iff in Hc.
  destruct w' as [|d w''].
  - simpl. now rewrite Hc.
  - assert (Hd : is_space d = false).
    { simpl in Hw. apply andb_prop in Hw as [Hd _]. now apply negb_true_iff. }
    assert (Hw' : is_word (String d w'') = true).
    { unfold is_word. now rewrite Hw. }
    specialize (IH Hw').
    change (split (String c (String d w'') ++ String " "%char rest))
      with (if is_space c then split (String d w'' ++ String " "%char rest)
            else if is_space d
                 then String c EmptyString :: split (String d w'' ++ String " "%char rest)
                 else match split (String d w'' ++ String " "%char rest) with
                      | w :: ws => String c w :: ws
                      | [] => [String c EmptyString]
                      end).
    now rewrite Hc, Hd, IH.
Qed.

Lemma split_word w : is_word w = true -> split w = [w].
Proof.
  induction w as [|c w' IH]; [discriminate|].
  unfold is_word. simpl no_space. intros H.
  apply andb_prop in H as [_ H]. apply andb_prop in H as [Hc Hw].
  apply negb_true_iff in Hc.
  destruct w' as [|d w''].
  - simpl. now rewrite Hc.
  - assert (Hd : is_space d = false).
    { simpl in Hw. apply andb_prop in Hw as [Hd _]. now apply negb_true_iff. }
    assert (Hw' : is_word (String d w'') = true).
    { unfold is_word. now rewrite Hw. }
    specialize (IH Hw').
    change (split (String c (String d w'')))
      with (if is_space c then split (String d w'')
            else if is_space d then String c EmptyString :: split (String d w'')
                 else match split (String d w'') with
                      | w :: ws => String c w :: ws
                      | [] => [String c EmptyString]
                      end).
    now rewrite Hc, Hd, IH.
Qed.

(** Splitting words joined by single spaces gives the words back. *)
Lemma split_concat ws :
  forallb is_word ws = true -> split (String.concat " " ws) = ws.
Proof.
  induction ws as [|w ws IH]; [reflexivity|].
  simpl forallb. intros H. apply andb_prop in H as [Hw Hws].
  destruct ws as [|w' ws'].
  - simpl. now apply split_word.
  - change (String.concat " " (w :: w' :: ws'))
      with (w ++ String " "%char (String.concat " " (w' :: ws')))%string.
    rewrite split_word_then_space by assumption.
    now rewrite IH.
Qed.

(** The words of [split] are words. *)
Lemma split_words s : forallb is_word (split s) = true.
Proof.
  induction s as [|c t IH]; [reflexivity|].
  destruct t as [|d t'].
  - simpl. destruct (is_space c) eqn:Hc; [reflexivity|].
    simpl. unfold is_word. simpl. now rewrite Hc.
  - rewrite split_cons2.
    destruct (is_space c) eqn:Hc; [exact IH|].
    destruct (is_space d) eqn:Hd.
    + cbn [forallb]. rewrite IH. unfold is_word. simpl. now rewrite Hc.
    + destruct (split (String d t')) as [|w ws].
      * simpl. unfold is_word. simpl. now rewrite Hc.
      * cbn [forallb] in *. apply andb_prop in IH as [Hw Hws].
        rewrite Hws, andb_true_r. unfold is_word in *. simpl.
        rewrite Hc. simpl. now apply andb_prop in Hw as [_ ->].
Qed.

End StrFacts.

(* ===================================================================== *)
(** * Column inference *)
(* ===================================================================== *)

Module InferColumn.
Import PyStr App.

Lemma prefix_refl s : String.prefix s s = true.
Proof.
  induction s as [|c t IH]; [reflexivity|].
  simpl. destruct (ascii_dec c c); [exact IH | congruence].
Qed.

Lemma contains_refl s : contains s s = true.
Proof. destruct s; cbn [contains]; now rewrite prefix_refl. Qed.

Lemma dict_get_in {V} k (d : dict V) v :
  dict_get k d = Some v -> In (k, v) d.
Proof.
  induction d as [|[k' v'] t IH]; simpl; [discriminate|].
  destruct (String.eqb_spec k' k) as [->|_].
  - intros [= ->]. now left.
  - intros H. right. now apply IH.
Qed.

Lemma first_containing_none cand d :
  first_containing cand d = None <-> candidate_matches cand d = false.
Proof.
  unfold first_containing, candidate_matches.
  induction d as [|[k v] t IH]; simpl; [tauto|].
  destruct (contains (lower cand) k); simpl; [split; discriminate | exact IH].
Qed.

(** An exact match is in particular a substring match. *)
Lemma exact_matches cand d v :
  dict_get (lower cand) d = Some v -> candidate_matches cand d = true.
Proof.
  intros H. apply dict_get_in in H. unfold candidate_matches.
  apply existsb_exists. exists (lower cand, v). split; [assumption|].
  apply contains_refl.
Qed.

Lemma infer_column_skip columns pre rest :
  (forall c, In c pre -> candidate_matches c (cols_lower columns) = false) ->
  infer_column columns (pre ++ rest) = infer_column columns rest.
Proof.
  induction pre as [|c pre IH]; intros H; [reflexivity|].
  simpl. assert (Hc : candidate_matches c (cols_lower columns) = false)
    by (apply H; now left).
  destruct (dict_get (lower c) (cols_lower columns)) eqn:E.
  - apply exact_matches in E. congruence.
  - apply first_containing_none in Hc. rewrite Hc.
    apply IH. intros c' Hc'. apply H. now right.
Qed.

Lemma infer_column_none columns candidates :
  infer_column columns candidates = None <->
  (forall c, In c candidates -> candidate_matches c (cols_lower columns) = false).
Proof.
  induction candidates as [|c rest IH]; simpl.
  - split; [intros _ c [] | reflexivity].
  - destruct (dict_get (lower c) (cols_lower columns)) eqn:E.
    + split; [discriminate|]. intros H.
      apply exact_matches in E. rewrite (H c) in E; [discriminate | now left].
    + destruct (first_containing c (cols_lower columns)) eqn:F.
      * split; [discriminate|]. intros H.
        assert (Hc : candidate_matches c (cols_lower columns) = false)
          by (apply H; now left).
        apply first_containing_none in Hc. congruence.
      * apply first_containing_none in F. rewrite IH. split.
        -- intros H c' [<-|Hc']; [assumption | now apply H].
        -- intros H c' Hc'. apply H. now right.
Qed.

(** With headers that differ even when lower-cased, the dictionary is the
    header list itself, each header under its lower-cased form. *)
Lemma dict_set_fresh {V} k (v : V) d :
  ~ In k (map fst d) -> dict_set k v d = d ++ [(k, v)].
Proof.
  induction d as [|[k' v'] t IH]; simpl; [reflexivity|].
  intros H. destruct (String.eqb_spec k' k) as [->|_]; [tauto|].
  rewrite IH; [reflexivity | tauto].
Qed.

Lemma cols_lower_distinct columns :
  NoDup (map lower columns) ->
  cols_lower columns = map (fun c => (lower c, c)) columns.
Proof.
  unfold cols_lower.
  enough (G : forall d, NoDup (map fst d ++ map lower columns) ->
            fold_left (fun d c => dict_set (lower c) c d) columns d
            = d ++ map (fun c => (lower c, c)) columns).
  { intros H. now apply (G []). }
  induction columns as [|c t IH]; intros d H; simpl.
  - now rewrite app_nil_r.
  - simpl in H. rewrite dict_set_fresh.
    + rewrite IH.
      * now rewrite <- app_assoc.
      * rewrite map_app. simpl. rewrite <- app_assoc. exact H.
    + apply NoDup_remove_2 in H. intros Hin. apply H, in_or_app. now left.
Qed.

(** C1 (as the code has it).  The candidates are tried one at a time, in
    order; for each one the exact case-insensitive match is looked up and,
    failing that, the first header that contains it, before the next
    candidate is considered.  Hence the answer belongs to the first
    candidate that matches some header by either rule: its exact match if
    it has one, otherwise the first header containing it.  Nothing is
    returned exactly when no candidate matches.  The headers are looked up
    through their lower-cased forms, in header order when these are
    pairwise different.  For the headers ["Reg H (e)", "Client Name"] and
    the candidates ["reg hours", "Reg H (e)"] the answer is "Reg H (e)". *)
Theorem infer_column_first_matching_candidate :
  (forall columns pre c post,
      (forall c', In c' pre -> candidate_matches c' (cols_lower columns) = false) ->
      candidate_matches c (cols_lower columns) = true ->
      infer_column columns (pre ++ c :: post) =
      match dict_get (lower c) (cols_lower columns) with
      | Some v => Some v
      | None => first_containing c (cols_lower columns)
      end) /\
  (forall columns candidates,
      infer_column columns candidates = None <->
      (forall c, In c candidates -> candidate_matches c (cols_lower columns) = false)) /\
  (forall columns,
      NoDup (map lower columns) ->
      cols_lower columns = map (fun c => (lower c, c)) columns) /\
  infer_column ["Reg H (e)"; "Client Name"] ["reg hours"; "Reg H (e)"]
  = Some "Reg H (e)".
Proof.
  split; [|split; [exact infer_column_none
                  |split; [exact cols_lower_distinct | reflexivity]]].
  intros columns pre c post Hpre Hc.
  rewrite infer_column_skip by assumption. simpl.
  destruct (dict_get (lower c) (cols_lower columns)); [reflexivity|].
  destruct (first_containing c (cols_lower columns)) eqn:F; [reflexivity|].
  apply first_containing_none in F. congruence.
Qed.

Lemma infer_column_first_matching_candidate_witness :
  infer_column ["Client ID"; "Client Name"] (["venue"] ++ "client name" :: ["customer"])
  = Some "Client Name".
Proof.
  apply (proj1 infer_column_first_matching_candidate
           ["Client ID"; "Client Name"] ["venue"] "client name" ["customer"]).
  - intros c' [<-|[]]. reflexivity.
  - reflexivity.
Defined.

(** C1 as stated fails: with the headers ["Client ID", "Client Name"] and
    the candidates of the client role, the second candidate has an exact
    match, yet the substring match of the first candidate is returned. *)
Lemma infer_column_substring_before_later_exact :
  dict_get (lower "client name") (cols_lower ["Client ID"; "Client Name"])
  = Some "Client Name" /\
  dict_get (lower "client") (cols_lower ["Client ID"; "Client Name"]) = None /\
  infer_column_exact_first ["Client ID"; "Client Name"]
    ["client"; "client name"; "venue"; "customer"] = Some "Client Name" /\
  infer_column ["Client ID"; "Client Name"]
    ["client"; "client name"; "venue"; "customer"] = Some "Client ID" /\
  infer_column ["Client ID"; "Client Name"]
    ["client"; "client name"; "venue"; "customer"]
  <> infer_column_exact_first ["Client ID"; "Client Name"]
       ["client"; "client name"; "venue"; "customer"].
Proof. repeat split; try reflexivity. discriminate. Qed.

End InferColumn.

(* ===================================================================== *)
(** * Name normalisation *)
(* ===================================================================== *)

Module Names.
Import PyStr PyFloat Py Pandas App StrFacts InferColumn.

Lemma canonical_spacing_split s :
  canonical_spacing s = String.concat " " (split s).
Proof. apply strip_collapse_split. Qed.


(** Every entry of [cols_lower] maps the lower-cased header to a header. *)
Lemma dict_set_keys (k v : string) d :
  Forall (fun kv => fst kv = lower (snd kv)) d -> k = lower v ->
  Forall (fun kv => fst kv = lower (snd kv)) (dict_set k v d).
Proof.
  intros Hd Hk. induction d as [|[k' v'] t IH]; simpl.
  - now repeat constructor.
  - inversion Hd as [|? ? Hh Ht]; subst.
    destruct (String.eqb_spec k' (lower v)) as [->|_].
    + constructor; [reflexivity | assumption].
    + constructor; [assumption | now apply IH].
Qed.

Lemma cols_lower_keys columns :
  Forall (fun kv => fst kv = lower (snd kv)) (cols_lower columns).
Proof.
  unfold cols_lower.
  enough (G : forall d, Forall (fun kv => fst kv = lower (snd kv)) d ->
            Forall (fun kv => fst kv = lower (snd kv))
                   (fold_left (fun d c => dict_set (lower c) c d) columns d))
    by (apply G; constructor).
  induction columns as [|c t IH]; intros d Hd; simpl; [assumption|].
  apply IH. now apply dict_set_keys.
Qed.

(** What [infer_column] returns is the value of an entry whose key
    contains one of the lower-cased candidates. *)
Lemma infer_column_some columns candidates v :
  infer_column columns candidates = Some v ->
  exists k cand, In (k, v) (cols_lower columns) /\ In cand candidates /\
                 contains (lower cand) k = true.
Proof.
  induction candidates as [|c rest IH]; simpl; [discriminate|].
  destruct (dict_get (lower c) (cols_lower columns)) eqn:E.
  - intros [= ->]. exists (lower c), c. split; [now apply dict_get_in|].
    split; [now left | apply contains_refl].
  - unfold first_containing.
    destruct (find (fun kv => contains (lower c) (fst kv)) (cols_lower columns))
      as [[k v']|] eqn:F.
    + intros [= ->]. apply find_some in F as [Hin Hc].
      exists k, c. split; [assumption|]. split; [now left | exact Hc].
    + intros H. destruct (IH H) as (k & cand & Hin & Hc & Hk).
      exists k, cand. split; [assumption|]. split; [now right | assumption].
Qed.

(** A guessed name column has a name, so the test [if guessed:] is the
    test that something was found. *)
Lemma guessed_truthy columns :
  truthy (infer_column columns ["employee name"; "name"])
  = match infer_column columns ["employee name"; "name"] with
    | Some _ => true
    | None => false
    end.
Proof.
  destruct (infer_column columns ["employee name"; "name"]) as [g|] eqn:E;
    [|reflexivity].
  apply infer_column_some in E as (k & cand & Hin & Hc & Hk).
  pose proof (cols_lower_keys columns) as Hkeys.
  rewrite Forall_forall in Hkeys. specialize (Hkeys _ Hin). simpl in Hkeys.
  destruct g as [|a g']; [|reflexivity].
  subst k. exfalso.
  destruct Hc as [<-|[<-|[]]]; discriminate.
Qed.

Lemma first_last_length a b :
  List.length a = List.length b ->
  List.length (first_last a b) = List.length a.
Proof.
  revert b. induction a as [|x a IH]; intros [|y b] H; simpl in *;
    try reflexivity; try discriminate.
  f_equal. apply IH. now injection H.
Qed.

Section WithStr.
Variable str_float : float -> string.

(** The strings that [normalize_name_parts] starts from, by source. *)
Lemma column_of_length df c :
  List.length (astype_str str_float (column_of df (Some c)))
  = List.length (rows df).
Proof. unfold astype_str, column_of, get_col. now rewrite !length_map. Qed.

Lemma first_last_map {A} (g1 g2 : A -> string) (l : list A) :
  first_last (map g1 l) (map g2 l)
  = map (fun x => (strip (g1 x) ++ " " ++ strip (g2 x))%string) l.
Proof.
  induction l as [|x l IH]; [reflexivity|]. cbn [map first_last]. now rewrite IH.
Qed.

Lemma normalize_length df fc lc full names :
  normalize_name_parts str_float df fc lc full = Ok names ->
  List.length names = List.length (rows df).
Proof.
  unfold normalize_name_parts.
  destruct (truthy full && in_columns df full) eqn:E1.
  - cbn [bind]. intro H. injection H as <-. rewrite length_map.
    destruct full as [c|]; [apply column_of_length | discriminate].
  - destruct (truthy fc && truthy lc && in_columns df fc && in_columns df lc) eqn:E2.
    + cbn [bind]. intro H. injection H as <-. rewrite length_map.
      destruct fc as [a|]; [|discriminate]. destruct lc as [b|];
        [|rewrite andb_false_r in E2; discriminate].
      rewrite first_last_length; rewrite !column_of_length; reflexivity.
    + rewrite guessed_truthy.
      destruct (infer_column (columns df) ["employee name"; "name"]) as [g|];
        [|discriminate].
      cbn [bind]. intro H. injection H as <-. rewrite length_map.
      apply column_of_length.
Qed.

(** C8.  When no full-name column is usable, no first/last pair is usable
    and the guess over "employee name" and "name" finds no header, the
    normaliser raises the error that asks for a manual mapping.  In every
    other case it returns one name per row, made from the cells of that
    row: the string of the full-name cell; or, without a usable full-name
    column, the stripped string of the first-name cell, a space and the
    stripped string of the last-name cell; or else the string of the
    guessed column's cell.  In each case the runs of whitespace of that
    string are collapsed to one space and its ends are stripped, which
    leaves its words joined by single spaces; a no-break space is
    whitespace like any other. *)
Theorem normalize_name_parts_spec df first_col last_col full_col :
  let usable_full := truthy full_col && in_columns df full_col in
  let usable_pair := truthy first_col && truthy last_col
                     && in_columns df first_col && in_columns df last_col in
  let guessed := infer_column (columns df) ["employee name"; "name"] in
  let tidy := fun s => strip (collapse_ws s) in
  let text := fun c row => py_str str_float (at_col df c row) in
  (usable_full = false -> usable_pair = false -> guessed = None ->
   normalize_name_parts str_float df first_col last_col full_col
   = Raise (ValueError
       "Could not determine employee name columns. Please map them in the sidebar.")) /\
  (forall c,
      full_col = Some c -> usable_full = true ->
      normalize_name_parts str_float df first_col last_col full_col
      = Ok (map (fun row => tidy (text c row)) (rows df))) /\
  (forall a b,
      first_col = Some a -> last_col = Some b ->
      usable_full = false -> usable_pair = true ->
      normalize_name_parts str_float df first_col last_col full_col
      = Ok (map (fun row =>
                   tidy (strip (text a row) ++ " " ++ strip (text b row))%string)
                (rows df))) /\
  (forall g,
      usable_full = false -> usable_pair = false -> guessed = Some g ->
      normalize_name_parts str_float df first_col last_col full_col
      = Ok (map (fun row => tidy (text g row)) (rows df))) /\
  (forall names,
      normalize_name_parts str_float df first_col last_col full_col = Ok names ->
      List.length names = List.length (rows df)) /\
  (forall s, tidy s = String.concat " " (split s)) /\
  tidy (String "009"%char (String "160"%char "Jane" ++ String "160"%char "Doe  ")%string)
  = "Jane Doe".
Proof.
  intros usable_full usable_pair guessed tidy text.
  repeat match goal with |- _ /\ _ => split end.
  - intros Hf Hp Hg. unfold normalize_name_parts.
    fold usable_full usable_pair guessed. rewrite Hf, Hp, Hg. reflexivity.
  - intros c -> Hf. unfold normalize_name_parts.
    fold usable_full. rewrite Hf. cbn [bind column_of].
    unfold astype_str, get_col. rewrite !map_map. reflexivity.
  - intros a b -> -> Hf Hp. unfold normalize_name_parts.
    fold usable_full usable_pair. rewrite Hf, Hp. cbn [bind column_of].
    unfold astype_str, get_col. rewrite !map_map.
    rewrite (first_last_map (fun row => py_str str_float (at_col df a row))
                            (fun row => py_str str_float (at_col df b row))).
    rewrite map_map. reflexivity.
  - intros g Hf Hp Hg. unfold normalize_name_parts.
    fold usable_full usable_pair guessed. rewrite Hf, Hp, Hg.
    cbn [truthy]. destruct (String.eqb_spec g EmptyString) as [->|_].
    + pose proof (guessed_truthy (columns df)) as Ht. fold guessed in Ht.
      rewrite Hg in Ht. discriminate Ht.
    + cbn [negb bind column_of]. unfold astype_str, get_col. rewrite !map_map.
      reflexivity.
  - apply normalize_length.
  - apply strip_collapse_split.
  - reflexivity.
Qed.
End WithStr.

Lemma normalize_name_parts_spec_witness :
  normalize_name_parts example_str_float
    (mkdf ["First"; "Last"; "Client"]
       [[Text " Mary  Ann "; Text "Doe "; Text "UCLA"]; [NA; Text "Roe"; Text "UCLA"]])
    (Some "First") (Some "Last") None
  = Ok ["Mary Ann Doe"; "nan Roe"]
  /\
  normalize_name_parts example_str_float (mkdf ["Emp"; "Client"] [[Text "x"; Text "UCLA"]])
    None None None
  = Raise (ValueError
      "Could not determine employee name columns. Please map them in the sidebar.").
Proof.
  split.
  - apply (proj1 (proj2 (proj2 (normalize_name_parts_spec example_str_float
             (mkdf ["First"; "Last"; "Client"]
                [[Text " Mary  Ann "; Text "Doe "; Text "UCLA"];
                 [NA; Text "Roe"; Text "UCLA"]])
             (Some "First") (Some "Last") None))) "First" "Last");
      reflexivity.
  - apply (proj1 (normalize_name_parts_spec example_str_float
             (mkdf ["Emp"; "Client"] [[Text "x"; Text "UCLA"]]) None None None));
      reflexivity.
Defined.

End Names.

(* ===================================================================== *)
(** * Numeric coercion *)
(* ===================================================================== *)

Module Coercion.
Import PyStr PyFloat Py Pandas App.

Lemma remove_char_app old a b :
  remove_char old (a ++ b) = (remove_char old a ++ remove_char old b)%string.
Proof.
  induction a as [|c a IH]; simpl; [reflexivity|].
  destruct (Ascii.eqb c old); simpl; now rewrite IH.
Qed.

Lemma remove_char_gone old s : contains (String old EmptyString) (remove_char old s) = false.
Proof.
  induction s as [|c t IH]; [reflexivity|].
  simpl remove_char. destruct (Ascii.eqb_spec c old) as [->|Hne]; [exact IH|].
  cbn [contains]. rewrite IH, orb_false_r. simpl.
  destruct (ascii_dec old c); [congruence | reflexivity].
Qed.

Lemma dict_get_set {V} k k' (v : V) d :
  dict_get k (dict_set k' v d) = if String.eqb k' k then Some v else dict_get k d.
Proof.
  induction d as [|[a b] d IH]; [reflexivity|].
  cbn [dict_set dict_get]. destruct (String.eqb_spec a k') as [->|Hne].
  - cbn [dict_get]. destruct (String.eqb k' k); reflexivity.
  - cbn [dict_get]. rewrite IH. destruct (String.eqb_spec a k) as [->|Hak]; [|reflexivity].
    destruct (String.eqb_spec k' k) as [->|_]; [congruence | reflexivity].
Qed.

(** A read sees the last assignment to its column. *)
Lemma read_set df k v w c row :
  read df (dict_set k v w) c row = if String.eqb k c then v else read df w c row.
Proof. unfold read. rewrite dict_get_set. destruct (String.eqb k c); reflexivity. Qed.

Lemma read_nil df c row : read df [] c row = at_col df c row.
Proof. reflexivity. Qed.

Ltac eqb_cases :=
  repeat match goal with
         | |- context [String.eqb ?a ?a] => rewrite (String.eqb_refl a)
         | H : ?a <> ?b |- context [String.eqb ?a ?b] =>
             rewrite (proj2 (String.eqb_neq a b) H)
         | H : ?a <> ?b |- context [String.eqb ?b ?a] =>
             rewrite (proj2 (String.eqb_neq b a) (not_eq_sym H))
         end.

Lemma not_in4 {A} (x a b c d : A) :
  ~ In x [a; b; c; d] -> x <> a /\ x <> b /\ x <> c /\ x <> d.
Proof. cbn [In]. intuition congruence. Qed.

Lemma not_in3 {A} (x a b c : A) : ~ In x [a; b; c] -> x <> a /\ x <> b /\ x <> c.
Proof. cbn [In]. intuition congruence. Qed.

Lemma NoDup3 {A} (a b c : A) : NoDup [a; b; c] -> a <> b /\ a <> c /\ b <> c.
Proof.
  intros H. inversion H as [|? ? Ha H']; subst. inversion H' as [|? ? Hb _]; subst.
  cbn [In] in Ha, Hb. intuition congruence.
Qed.


Lemma records_length l rs : records l = Some rs -> List.length rs = List.length l.
Proof.
  revert rs. induction l as [|t l IH]; intros rs H.
  - injection H as <-. reflexivity.
  - cbn [records] in H. destruct (pay_record t); [|discriminate].
    destruct (records l) as [ps|]; [|discriminate]. injection H as <-.
    cbn [List.length]. now rewrite (IH ps eq_refl).
Qed.

Lemma records_map {B} (g : PayRow -> B) (h : cell * cell * cell -> B) l rs :
  records l = Some rs ->
  (forall t r, In t l -> pay_record t = Some r -> g r = h t) ->
  map g rs = map h l.
Proof.
  revert rs. induction l as [|t l IH]; intros rs H Hg.
  - injection H as <-. reflexivity.
  - cbn [records] in H. destruct (pay_record t) as [p|] eqn:Ep; [|discriminate].
    destruct (records l) as [ps|]; [|discriminate]. injection H as <-.
    cbn [map]. f_equal.
    + apply Hg; [now left | exact Ep].
    + apply IH; [reflexivity|]. intros t' r Ht'. apply Hg. now right.
Qed.

Lemma map_snd_combine {A B} (a : list A) (b : list B) :
  List.length a = List.length b -> map snd (combine a b) = b.
Proof.
  revert b. induction a as [|x a IH]; intros [|y b] H; try reflexivity; try discriminate.
  cbn [combine map snd]. f_equal. apply IH. now injection H.
Qed.

Lemma map_fst_combine {A B} (a : list A) (b : list B) :
  List.length a = List.length b -> map fst (combine a b) = a.
Proof.
  revert b. induction a as [|x a IH]; intros [|y b] H; try reflexivity; try discriminate.
  cbn [combine map fst]. f_equal. apply IH. now injection H.
Qed.

Section WithStr.
Variable str_float : float -> string.

(** A thousands separator anywhere in the text is ignored. *)
Lemma to_num_comma a b :
  to_num str_float (Text (a ++ "," ++ b)) = to_num str_float (Text (a ++ b)).
Proof.
  unfold to_num. simpl py_str.
  rewrite !remove_char_app. reflexivity.
Qed.

Lemma pay_rows_fields names cells r :
  In r (pay_rows str_float names cells) ->
  exists rate reg ot dt,
    In (rate, (reg, ot, dt)) cells /\
    PayRate r = to_num str_float rate /\
    Hours r = fadd (fadd (hours_field str_float reg) (hours_field str_float ot))
                   (hours_field str_float dt).
Proof.
  revert cells. induction names as [|n names IH]; intros cells; [intros []|].
  destruct cells as [|[rate [[reg ot] dt]] cells]; [intros []|].
  simpl. intros [<-|H].
  - exists rate, reg, ot, dt. split; [now left|]. split; reflexivity.
  - destruct (IH _ H) as (rate' & reg' & ot' & dt' & Hin & Hr & Hh).
    exists rate', reg', ot', dt'. split; [now right|]. now split.
Qed.

(** ** Lines 166 to 187 on one row *)

(** When the four roles are columns of their own, each derived cell comes
    from the cell of its role in the table as filtered. *)
Lemma hours_row_separate df reg ot dt rate name row :
  NoDup [reg; ot; dt] ->
  ~ In "Employee Name" [reg; ot; dt; rate] ->
  ~ In "Pay Rate" [reg; ot; dt] ->
  ~ In rate [reg; ot; dt] ->
  hours_row str_float df reg ot dt rate name row
  = (Text name,
     Num (pay_rate_field str_float (at_col df rate row)),
     Num (fadd (fadd (hours_field str_float (at_col df reg row))
                     (hours_field str_float (at_col df ot row)))
               (hours_field str_float (at_col df dt row)))).
Proof.
  intros Hnd Hname Hpay Hrate.
  apply NoDup3 in Hnd as (H1 & H2 & H3).
  apply not_in4 in Hname as (H4 & H5 & H6 & H7).
  apply not_in3 in Hpay as (H8 & H9 & H10).
  apply not_in3 in Hrate as (H11 & H12 & H13).
  assert (C1 : "Employee Name" <> "Pay Rate") by discriminate.
  assert (C2 : "Employee Name" <> "Hours") by discriminate.
  assert (C3 : "Pay Rate" <> "Hours") by discriminate.
  unfold hours_row. cbv zeta. rewrite !read_set. eqb_cases.
  rewrite !read_nil. reflexivity.
Qed.

(** The name cell is the normalised name or, when an hours role is the
    column ["Employee Name"], a number. *)
Lemma hours_row_name df reg ot dt rate name row :
  (~ In "Employee Name" [reg; ot; dt] ->
   fst (fst (hours_row str_float df reg ot dt rate name row)) = Text name) /\
  (In "Employee Name" [reg; ot; dt] ->
   exists f, fst (fst (hours_row str_float df reg ot dt rate name row)) = Num f).
Proof.
  unfold hours_row. cbv zeta. cbn [fst]. rewrite !read_set.
  change (String.eqb "Hours" "Employee Name") with false.
  change (String.eqb "Pay Rate" "Employee Name") with false.
  rewrite String.eqb_refl. cbn [In].
  destruct (String.eqb_spec dt "Employee Name") as [->|Hd].
  { split; [intros H; exfalso; apply H; tauto | intros _; eexists; reflexivity]. }
  destruct (String.eqb_spec ot "Employee Name") as [->|Ho].
  { split; [intros H; exfalso; apply H; tauto | intros _; eexists; reflexivity]. }
  destruct (String.eqb_spec reg "Employee Name") as [->|Hr].
  { split; [intros H; exfalso; apply H; tauto | intros _; eexists; reflexivity]. }
  split; [reflexivity|]. intros [H|[H|[H|[]]]]; congruence.
Qed.

Lemma hours_row_record df reg ot dt rate name row r :
  pay_record (hours_row str_float df reg ot dt rate name row) = Some r ->
  EmployeeName r = name /\ ~ In "Employee Name" [reg; ot; dt].
Proof.
  intros H.
  destruct (in_dec String.string_dec "Employee Name" [reg; ot; dt]) as [Hin|Hin].
  - exfalso. destruct (proj2 (hours_row_name df reg ot dt rate name row) Hin) as (f & E).
    destruct (hours_row str_float df reg ot dt rate name row) as [[a b] c].
    cbn [fst] in E. subst a. discriminate H.
  - split; [|exact Hin].
    pose proof (proj1 (hours_row_name df reg ot dt rate name row) Hin) as E.
    destruct (hours_row str_float df reg ot dt rate name row) as [[a b] c].
    cbn [fst] in E. subst a. cbn [pay_record] in H.
    destruct b; try discriminate. destruct c; try discriminate.
    injection H as <-. reflexivity.
Qed.

Lemma records_separate df reg ot dt rate names rws :
  NoDup [reg; ot; dt] ->
  ~ In "Employee Name" [reg; ot; dt; rate] ->
  ~ In "Pay Rate" [reg; ot; dt] ->
  ~ In rate [reg; ot; dt] ->
  records (map (fun p => hours_row str_float df reg ot dt rate (fst p) (snd p))
               (combine names rws))
  = Some (pay_rows str_float names
            (map (fun row => (at_col df rate row,
                              (at_col df reg row, at_col df ot row, at_col df dt row)))
                 rws)).
Proof.
  intros Hnd Hname Hpay Hrate. revert rws.
  induction names as [|n names IH]; intros [|row rws]; try reflexivity.
  cbn [combine map records pay_rows fst snd].
  rewrite (hours_row_separate df reg ot dt rate n row Hnd Hname Hpay Hrate).
  cbn [pay_record]. rewrite IH. reflexivity.
Qed.

Lemma with_hours_inv df fc lc full reg ot dt rate payroll :
  with_hours str_float df fc lc full reg ot dt rate = Some (Ok payroll) ->
  exists names,
    normalize_name_parts str_float df fc lc full = Ok names /\
    Forall (fun c => present df ["Employee Name"] c = true) [reg; ot; dt; rate] /\
    records (map (fun p => hours_row str_float df reg ot dt rate (fst p) (snd p))
                 (combine names (rows df)))
    = Some payroll.
Proof.
  unfold with_hours.
  destruct (normalize_name_parts str_float df fc lc full) as [names|e]; [|discriminate].
  cbn [find].
  destruct (present df ["Employee Name"] reg) eqn:Er; cbn [negb]; [|discriminate].
  destruct (present df ["Employee Name"] ot) eqn:Eo; cbn [negb]; [|discriminate].
  destruct (present df ["Employee Name"] dt) eqn:Ed; cbn [negb]; [|discriminate].
  destruct (present df ["Employee Name"] rate) eqn:Ep; [|discriminate].
  intros H. exists names. split; [reflexivity|]. split; [repeat constructor; assumption|].
  destruct (records _) as [rs|]; [|discriminate]. cbn [option_map] in H.
  injection H as <-. reflexivity.
Qed.

Lemma present_has df written c : has_column df c = true -> present df written c = true.
Proof. intros H. unfold present. rewrite H. apply orb_true_r. Qed.

(** With the four roles in columns of their own the records are those of
    [pay_rows]. *)
Lemma with_hours_separate df fc lc full reg ot dt rate names :
  normalize_name_parts str_float df fc lc full = Ok names ->
  NoDup [reg; ot; dt] ->
  ~ In "Employee Name" [reg; ot; dt; rate] ->
  ~ In "Pay Rate" [reg; ot; dt] ->
  ~ In rate [reg; ot; dt] ->
  has_column df reg = true -> has_column df ot = true ->
  has_column df dt = true -> has_column df rate = true ->
  with_hours str_float df fc lc full reg ot dt rate
  = Some (Ok (pay_rows str_float names
                (map (fun row => (at_col df rate row,
                                  (at_col df reg row, at_col df ot row, at_col df dt row)))
                     (rows df)))).
Proof.
  intros Hn Hnd Hname Hpay Hrate Hr Ho Hd Hp. unfold with_hours. rewrite Hn.
  cbn [find]. rewrite !present_has by assumption. cbn [negb].
  rewrite (records_separate df reg ot dt rate names (rows df) Hnd Hname Hpay Hrate).
  reflexivity.
Qed.

Lemma hours_row_nums df reg ot dt rate name row :
  exists a f g, hours_row str_float df reg ot dt rate name row = (a, Num f, Num g).
Proof.
  unfold hours_row. cbv zeta.
  match goal with
  | |- exists a f g, (?x, ?y, ?z) = _ =>
      assert (Hy : exists f, y = Num f);
      [|assert (Hz : exists g, z = Num g);
        [|destruct Hy as [f ->]; destruct Hz as [g ->]; now exists x, f, g]]
  end.
  - rewrite (read_set df "Hours" _ _ "Pay Rate").
    change (String.eqb "Hours" "Pay Rate") with false. cbv iota.
    rewrite (read_set df "Pay Rate" _ _ "Pay Rate"), String.eqb_refl.
    eexists. reflexivity.
  - rewrite (read_set df "Hours" _ _ "Hours"), String.eqb_refl. eexists. reflexivity.
Qed.

Lemma records_some df reg ot dt rate l :
  ~ In "Employee Name" [reg; ot; dt] ->
  exists payroll,
    records (map (fun p => hours_row str_float df reg ot dt rate (fst p) (snd p)) l)
    = Some payroll.
Proof.
  intros Hn. induction l as [|[n row] l [ps IH]]; [now exists []|].
  cbn [map records fst snd]. rewrite IH.
  pose proof (proj1 (hours_row_name df reg ot dt rate n row) Hn) as E.
  destruct (hours_row_nums df reg ot dt rate n row) as (a & f & g & E').
  rewrite E' in E |- *. cbn [fst] in E. subst a. cbn [pay_record]. eexists. reflexivity.
Qed.

Lemma records_names df reg ot dt rate l payroll :
  records (map (fun p => hours_row str_float df reg ot dt rate (fst p) (snd p)) l)
  = Some payroll ->
  map EmployeeName payroll = map fst l.
Proof.
  intros H.
  rewrite (records_map EmployeeName
             (fun t => match fst (fst t) with Text n => n | _ => EmptyString end) _ _ H).
  - rewrite map_map. apply map_ext_in. intros [n row] Hin. cbn [fst snd].
    assert (Hrec : exists r, pay_record (hours_row str_float df reg ot dt rate n row)
                             = Some r).
    { clear -H Hin. revert payroll H. induction l as [|p l IH]; [destruct Hin|].
      intros payroll H. cbn [map records] in H.
      destruct (pay_record (hours_row str_float df reg ot dt rate (fst p) (snd p)))
        as [r|] eqn:E; [|discriminate].
      destruct (records _) as [rs|] eqn:E'; [|discriminate].
      destruct Hin as [->|Hin]; [exists r; exact E|]. exact (IH Hin rs eq_refl). }
    destruct Hrec as [r Er]. apply hours_row_record in Er as [_ Hn].
    now rewrite (proj1 (hours_row_name df reg ot dt rate n row) Hn).
  - intros [[a b] c] r _ E. cbn [fst]. destruct a; try discriminate.
    destruct b; try discriminate. destruct c; try discriminate.
    injection E as <-. reflexivity.
Qed.

Lemma with_hours_some df fc lc full reg ot dt rate names :
  normalize_name_parts str_float df fc lc full = Ok names ->
  ~ In "Employee Name" [reg; ot; dt] ->
  present df ["Employee Name"] reg = true -> present df ["Employee Name"] ot = true ->
  present df ["Employee Name"] dt = true -> present df ["Employee Name"] rate = true ->
  exists payroll,
    with_hours str_float df fc lc full reg ot dt rate = Some (Ok payroll) /\
    records (map (fun p => hours_row str_float df reg ot dt rate (fst p) (snd p))
                 (combine names (rows df)))
    = Some payroll.
Proof.
  intros Hn Hname Hr Ho Hd Hp. unfold with_hours. rewrite Hn.
  cbn [find]. rewrite Hr, Ho, Hd, Hp. cbn [negb].
  destruct (records_some df reg ot dt rate (combine names (rows df)) Hname) as [ps E].
  rewrite E. exists ps. split; reflexivity.
Qed.


(** The records are left out only when an hours role is the column
    ["Employee Name"]. *)
Lemma with_hours_none df fc lc full reg ot dt rate :
  with_hours str_float df fc lc full reg ot dt rate = None ->
  In "Employee Name" [reg; ot; dt].
Proof.
  intros H.
  destruct (in_dec String.string_dec "Employee Name" [reg; ot; dt]) as [Hin|Hin];
    [exact Hin | exfalso].
  unfold with_hours in H.
  destruct (normalize_name_parts str_float df fc lc full) as [names|e]; [|discriminate].
  destruct (find _ _); [discriminate|].
  destruct (present df ["Employee Name"] rate); [|discriminate].
  destruct (records_some df reg ot dt rate (combine names (rows df)) Hin) as [ps E].
  rewrite E in H. discriminate.
Qed.

(** The pay rate of line 186 is read from the table as filtered when its
    column is none of the columns assigned before. *)
Lemma hours_row_rate df reg ot dt rate name row :
  ~ In rate ["Employee Name"; reg; ot; dt] ->
  snd (fst (hours_row str_float df reg ot dt rate name row))
  = Num (pay_rate_field str_float (at_col df rate row)).
Proof.
  intros H. cbn [In] in H.
  assert (H1 : "Employee Name" <> rate) by tauto.
  assert (H2 : reg <> rate) by tauto.
  assert (H3 : ot <> rate) by tauto.
  assert (H4 : dt <> rate) by tauto.
  unfold hours_row. cbv zeta. cbn [fst snd].
  rewrite (read_set df "Hours" _ _ "Pay Rate").
  change (String.eqb "Hours" "Pay Rate") with false. cbv iota.
  rewrite (read_set df "Pay Rate" _ _ "Pay Rate"), String.eqb_refl.
  rewrite (read_set df dt _ _ rate), (proj2 (String.eqb_neq dt rate) H4).
  rewrite (read_set df ot _ _ rate), (proj2 (String.eqb_neq ot rate) H3).
  rewrite (read_set df reg _ _ rate), (proj2 (String.eqb_neq reg rate) H2).
  rewrite (read_set df "Employee Name" _ _ rate),
    (proj2 (String.eqb_neq "Employee Name" rate) H1).
  reflexivity.
Qed.

Lemma with_hours_rates df fc lc full reg ot dt rate payroll :
  ~ In rate ["Employee Name"; reg; ot; dt] ->
  with_hours str_float df fc lc full reg ot dt rate = Some (Ok payroll) ->
  map PayRate payroll
  = map (fun row => pay_rate_field str_float (at_col df rate row)) (rows df).
Proof.
  intros Hrate H.
  destruct (with_hours_inv _ _ _ _ _ _ _ _ _ H) as (names & En & _ & Er).
  rewrite (records_map PayRate
             (fun t => match snd (fst t) with Num f => f | _ => nan end) _ _ Er).
  - rewrite map_map.
    rewrite <- (map_snd_combine names (rows df)) at 2
      by exact (Names.normalize_length _ _ _ _ _ _ En).
    rewrite map_map. apply map_ext. intros [n row]. cbn [fst snd].
    now rewrite hours_row_rate.
  - intros [[a b] c] r _ E. cbn [fst snd]. destruct a; try discriminate.
    destruct b; try discriminate. destruct c; try discriminate.
    injection E as <-. reflexivity.
Qed.

(** The hours of line 187 are the three filled fields when the hours roles
    are three columns, none of them assigned otherwise. *)
Lemma hours_row_hours df reg ot dt rate name row :
  NoDup [reg; ot; dt] ->
  ~ In "Employee Name" [reg; ot; dt] ->
  ~ In "Pay Rate" [reg; ot; dt] ->
  snd (hours_row str_float df reg ot dt rate name row)
  = Num (fadd (fadd (hours_field str_float (at_col df reg row))
                    (hours_field str_float (at_col df ot row)))
              (hours_field str_float (at_col df dt row))).
Proof.
  intros Hnd Hname Hpay.
  apply NoDup3 in Hnd as (H1 & H2 & H3).
  apply not_in3 in Hname as (H4 & H5 & H6).
  apply not_in3 in Hpay as (H8 & H9 & H10).
  unfold hours_row. cbv zeta. cbn [snd].
  rewrite (read_set df "Hours" _ _ "Hours"), String.eqb_refl.
  rewrite (read_set df "Pay Rate" _ _ reg), (read_set df "Pay Rate" _ _ ot),
    (read_set df "Pay Rate" _ _ dt).
  rewrite (proj2 (String.eqb_neq "Pay Rate" reg) H8),
    (proj2 (String.eqb_neq "Pay Rate" ot) H9),
    (proj2 (String.eqb_neq "Pay Rate" dt) H10).
  rewrite !read_set. eqb_cases. rewrite !read_nil. reflexivity.
Qed.

Lemma with_hours_hours df fc lc full reg ot dt rate payroll :
  NoDup [reg; ot; dt] ->
  ~ In "Employee Name" [reg; ot; dt] ->
  ~ In "Pay Rate" [reg; ot; dt] ->
  with_hours str_float df fc lc full reg ot dt rate = Some (Ok payroll) ->
  map Hours payroll
  = map (fun row => fadd (fadd (hours_field str_float (at_col df reg row))
                               (hours_field str_float (at_col df ot row)))
                         (hours_field str_float (at_col df dt row)))
        (rows df).
Proof.
  intros Hnd Hname Hpay H.
  destruct (with_hours_inv _ _ _ _ _ _ _ _ _ H) as (names & En & _ & Er).
  rewrite (records_map Hours
             (fun t => match snd t with Num f => f | _ => nan end) _ _ Er).
  - rewrite map_map.
    rewrite <- (map_snd_combine names (rows df)) at 2
      by exact (Names.normalize_length _ _ _ _ _ _ En).
    rewrite map_map. apply map_ext. intros [n row]. cbn [fst snd].
    now rewrite hours_row_hours.
  - intros [[a b] c] r _ E. cbn [fst snd]. destruct a; try discriminate.
    destruct b; try discriminate. destruct c; try discriminate.
    injection E as <-. reflexivity.
Qed.
End WithStr.

End Coercion.

(* ===================================================================== *)
(** * The client filter *)
(* ===================================================================== *)

Module Filter.
Import PyStr PyFloat Py Pandas App.

Lemma nth_map_at i f row :
  nth i (map_at i f row) NA
  = if (i <? List.length row)%nat then f (nth i row NA) else NA.
Proof.
  revert row. induction i as [|i IH]; intros [|c t]; simpl; try reflexivity.
  rewrite IH. reflexivity.
Qed.

Lemma select_map {A} (p : A -> bool) (l : list A) :
  select (map p l) l = filter p l.
Proof.
  induction l as [|x l IH]; simpl; [reflexivity|].
  destruct (p x); now rewrite IH.
Qed.

Lemma filter_map_comm {A B} (g : A -> B) (p : B -> bool) (l : list A) :
  filter p (map g l) = map g (filter (fun x => p (g x)) l).
Proof.
  induction l as [|x l IH]; simpl; [reflexivity|].
  destruct (p (g x)); simpl; now rewrite IH.
Qed.

Lemma has_column_index df name :
  has_column df name = true -> exists i, index_of name (columns df) = Some i.
Proof.
  unfold has_column. induction (columns df) as [|c t IH]; simpl; [discriminate|].
  rewrite (String.eqb_sym name c).
  destruct (String.eqb c name); [now exists O|].
  simpl. intros H. destruct (IH H) as [i ->]. now exists (S i).
Qed.

Section WithStr.
Variable str_float : float -> string.

(** Turning the client cell into its string does not change the string
    the mask looks at. *)
Lemma client_str_same i row :
  py_str str_float (nth i (map_at i (fun c => Text (py_str str_float c)) row) NA)
  = py_str str_float (nth i row NA).
Proof.
  rewrite nth_map_at. destruct (i <? List.length row)%nat eqn:E; [reflexivity|].
  apply Nat.ltb_ge in E. now rewrite (nth_overflow row NA E).
Qed.

(** C6.  With the client column present, the filtered payroll consists of
    exactly the rows whose client value, as a string, contains "UCLA" in
    any letter case, in their original order and with the client cell
    stored as that string.  A blank client cell reads "nan" and is left
    out; "UCLA Extension" is kept and "UCSB" is not. *)
Theorem payroll_ucla_spec :
  (forall df client_col,
      has_column df client_col = true ->
      payroll_ucla str_float df client_col
      = Ok (client_as_str str_float
              (mkdf (columns df) (filter (is_ucla_row str_float df client_col) (rows df)))
              client_col)) /\
  (forall df client_col row,
      is_ucla_row str_float df client_col row
      = contains "ucla" (lower (py_str str_float (at_col df client_col row)))) /\
  (forall df client_col row,
      isna (at_col df client_col row) = true ->
      is_ucla_row str_float df client_col row = false) /\
  is_ucla_row str_float (mkdf ["Client"] []) "Client" [Text "UCLA Extension"] = true /\
  is_ucla_row str_float (mkdf ["Client"] []) "Client" [Text "UCSB"] = false /\
  is_ucla_row str_float (mkdf ["Client"] []) "Client" [NA] = false.
Proof.
  repeat match goal with |- _ /\ _ => split end; try reflexivity.
  - intros df client_col Hc. unfold payroll_ucla. rewrite Hc. f_equal.
    destruct (has_column_index _ _ Hc) as [i Hi].
    unfold client_as_str, loc, mask_ucla, str_contains_nocase, astype_str, get_col.
    simpl columns. rewrite Hi. simpl. f_equal.
    rewrite !map_map.
    rewrite <- (map_map (map_at i (fun c => Text (py_str str_float c)))
                  (fun row => contains (lower "UCLA")
                     (lower (py_str str_float
                        (at_col (mkdf (columns df)
                           (map (map_at i (fun c => Text (py_str str_float c))) (rows df)))
                           client_col row))))).
    rewrite select_map, filter_map_comm. f_equal.
    apply filter_ext. intros row. unfold is_ucla_row, at_col. simpl columns.
    rewrite Hi. now rewrite client_str_same.
  - intros df client_col row H. unfold is_ucla_row.
    destruct (at_col df client_col row) as [s|n|f]; try discriminate.
    simpl in H. simpl. now rewrite H.
Qed.
End WithStr.

Lemma payroll_ucla_spec_witness :
  payroll_ucla example_str_float
    (mkdf ["Client"; "Name"]
          [[Text "UCLA Extension"; Text "A"]; [Text "UCSB"; Text "B"]; [NA; Text "C"];
           [Text "ucla health"; Text "D"]])
    "Client"
  = Ok (mkdf ["Client"; "Name"]
             [[Text "UCLA Extension"; Text "A"]; [Text "ucla health"; Text "D"]]).
Proof.
  apply (proj1 (payroll_ucla_spec example_str_float)
           (mkdf ["Client"; "Name"]
                 [[Text "UCLA Extension"; Text "A"]; [Text "UCSB"; Text "B"];
                  [NA; Text "C"]; [Text "ucla health"; Text "D"]]) "Client").
  reflexivity.
Defined.

End Filter.

(* ===================================================================== *)
(** * Dates *)
(* ===================================================================== *)

Module DateFacts.
Import Py PyDate Checks.
Local Open Scope Z_scope.

Lemma all_from_spec p start count :
  all_from p start count = true ->
  forall i, start <= i < start + Z.of_nat count -> p i = true.
Proof.
  revert start. induction count as [|k IH]; intros start H i Hi; [lia|].
  simpl in H. apply andb_prop in H as [H0 H1].
  destruct (Z.eq_dec i start) as [->|Hne]; [assumption|].
  apply (IH (start + 1) H1). lia.
Qed.

(** The month and day are right for each of the 365 day numbers that reach
    this part of [ord2ymd], in plain and in leap years. *)
Lemma month_day_checked :
  all_from (month_day_ok false) 0 365 && all_from (month_day_ok true) 0 365 = true.
Proof. vm_compute. reflexivity. Qed.

(** [ord2ymd] by its quotients: 400-year cycles [a], centuries [b],
    four-year cycles [c], years [d] and the day of the year. *)
Lemma ord2ymd_parts n :
  ord2ymd n =
  let a := (n - 1) / 146097 in
  let r := (n - 1) mod 146097 in
  let b := r / 36524 in
  let r1 := r mod 36524 in
  let c := r1 / 1461 in
  let r2 := r1 mod 1461 in
  let d := r2 / 365 in
  let doy := r2 mod 365 in
  let year := a * 400 + 1 + b * 100 + c * 4 + d in
  if (d =? 4) || (b =? 4) then (year - 1, 12, 31)
  else
    let '(m, dd) := month_day ((d =? 3) && (negb (c =? 24) || (b =? 3))) doy in
    (year, m, dd).
Proof.
  unfold ord2ymd, month_day, DI400Y, DI100Y, DI4Y. cbv zeta.
  destruct (_ || _); [reflexivity|].
  destruct (_ <? _); reflexivity.
Qed.

Lemma year_parts a b c d :
  0 <= a -> 0 <= b <= 3 -> 0 <= c <= 24 -> 0 <= d <= 3 ->
  let y := a * 400 + 1 + b * 100 + c * 4 + d in
  days_before_year y = 146097 * a + 36524 * b + 1461 * c + 365 * d /\
  is_leap y = (d =? 3) && (negb (c =? 24) || (b =? 3)).
Proof.
  intros Ha Hb Hc Hd y. subst y. split.
  - unfold days_before_year. Z.div_mod_to_equations. lia.
  - unfold is_leap.
    destruct (Z.eqb_spec d 3), (Z.eqb_spec c 24), (Z.eqb_spec b 3);
    destruct (Z.eqb_spec ((a * 400 + 1 + b * 100 + c * 4 + d) mod 4) 0);
    destruct (Z.eqb_spec ((a * 400 + 1 + b * 100 + c * 4 + d) mod 100) 0);
    destruct (Z.eqb_spec ((a * 400 + 1 + b * 100 + c * 4 + d) mod 400) 0);
    simpl; try reflexivity; exfalso; Z.div_mod_to_equations; lia.
Qed.

Lemma month_day_spec leap doy :
  0 <= doy < 365 ->
  let '(m, d) := month_day leap doy in
  1 <= m <= 12 /\ 1 <= d <= DAYS_IN_MONTH m + Z.b2z ((m =? 2) && leap) /\
  DAYS_BEFORE_MONTH m + Z.b2z ((2 <? m) && leap) + d = doy + 1.
Proof.
  intros H. pose proof month_day_checked as C. apply andb_prop in C as [Cf Ct].
  assert (Hok : month_day_ok leap doy = true).
  { destruct leap; [apply (all_from_spec _ _ _ Ct) | apply (all_from_spec _ _ _ Cf)];
      simpl; lia. }
  unfold month_day_ok in Hok. destruct (month_day leap doy) as [m d].
  repeat (apply andb_prop in Hok as [Hok ?]). lia.
Qed.

Lemma days_in_month_table y m :
  days_in_month y m = DAYS_IN_MONTH m + Z.b2z ((m =? 2) && is_leap y).
Proof.
  unfold days_in_month. destruct (Z.eqb_spec m 2) as [->|]; simpl.
  - now destruct (is_leap y).
  - lia.
Qed.

(** Every ordinal from 1 on converts to a date with valid month and day
    and converts back to itself. *)
Lemma ord2ymd_ymd2ord n :
  1 <= n ->
  let '(y, m, d) := ord2ymd n in
  ymd2ord y m d = n /\ 1 <= y /\ 1 <= m <= 12 /\ 1 <= d <= days_in_month y m.
Proof.
  intros Hn. rewrite ord2ymd_parts. cbv zeta.
  pose proof (Z.div_mod (n - 1) 146097 ltac:(lia)) as E0.
  pose proof (Z.mod_pos_bound (n - 1) 146097 ltac:(lia)) as B0.
  pose proof (Z.div_pos (n - 1) 146097 ltac:(lia) ltac:(lia)) as A0.
  set (a := (n - 1) / 146097) in *. set (r := (n - 1) mod 146097) in *.
  pose proof (Z.div_mod r 36524 ltac:(lia)) as E1.
  pose proof (Z.mod_pos_bound r 36524 ltac:(lia)) as B1.
  set (b := r / 36524) in *. set (r1 := r mod 36524) in *.
  pose proof (Z.div_mod r1 1461 ltac:(lia)) as E2.
  pose proof (Z.mod_pos_bound r1 1461 ltac:(lia)) as B2.
  set (c := r1 / 1461) in *. set (r2 := r1 mod 1461) in *.
  pose proof (Z.div_mod r2 365 ltac:(lia)) as E3.
  pose proof (Z.mod_pos_bound r2 365 ltac:(lia)) as B3.
  set (d := r2 / 365) in *. set (doy := r2 mod 365) in *.
  assert (Hb : 0 <= b <= 4) by lia.
  assert (Hc : 0 <= c <= 24) by lia.
  assert (Hd : 0 <= d <= 4) by lia.
  destruct (Z.eqb_spec d 4) as [D4|D4]; simpl orb.
  - (* the last day of a four-year cycle *)
    assert (Hc' : c <= 23) by lia. assert (Hb' : b <= 3) by lia.
    destruct (year_parts a b c 3 A0 ltac:(lia) ltac:(lia) ltac:(lia)) as [Y L].
    replace (a * 400 + 1 + b * 100 + c * 4 + d - 1)
      with (a * 400 + 1 + b * 100 + c * 4 + 3) by lia.
    rewrite days_in_month_table. unfold ymd2ord, days_before_month.
    rewrite Y, L.
    destruct (Z.eqb_spec c 24); [lia|]. 
    change (DAYS_BEFORE_MONTH 12) with 334. change (DAYS_IN_MONTH 12) with 31.
    simpl Z.b2z. lia.
  - destruct (Z.eqb_spec b 4) as [B4|B4].
    + (* the last day of a 400-year cycle *)
      assert (c = 0 /\ d = 0 /\ doy = 0) as (C0 & D0 & Y0) by lia.
      destruct (year_parts a 3 24 3 A0 ltac:(lia) ltac:(lia) ltac:(lia)) as [Y L].
      replace (a * 400 + 1 + b * 100 + c * 4 + d - 1)
        with (a * 400 + 1 + 3 * 100 + 24 * 4 + 3) by lia.
      rewrite days_in_month_table. unfold ymd2ord, days_before_month.
      rewrite Y, L.
      change (DAYS_BEFORE_MONTH 12) with 334. change (DAYS_IN_MONTH 12) with 31.
      simpl Z.b2z. lia.
    + destruct (year_parts a b c d A0 ltac:(lia) ltac:(lia) ltac:(lia)) as [Y L].
      pose proof (month_day_spec ((d =? 3) && (negb (c =? 24) || (b =? 3))) doy B3) as M.
      destruct (month_day ((d =? 3) && (negb (c =? 24) || (b =? 3))) doy) as [m dd].
      rewrite days_in_month_table. unfold ymd2ord, days_before_month.
      rewrite Y, L. lia.
Qed.

Lemma toordinal_fromordinal n : 1 <= n -> toordinal (fromordinal n) = n.
Proof.
  intros Hn. pose proof (ord2ymd_ymd2ord n Hn) as H.
  unfold toordinal, fromordinal. destruct (ord2ymd n) as [[y m] d]. simpl. tauto.
Qed.

Lemma days_before_year_succ y :
  days_before_year (y + 1) = days_before_year y + 365 + Z.b2z (is_leap y).
Proof.
  unfold days_before_year, is_leap.
  replace (y + 1 - 1) with y by lia.
  destruct (Z.eqb_spec (y mod 4) 0); destruct (Z.eqb_spec (y mod 100) 0);
    destruct (Z.eqb_spec (y mod 400) 0); simpl Z.b2z;
    Z.div_mod_to_equations; lia.
Qed.

Lemma days_before_year_mono a b :
  a <= b -> days_before_year a + 365 * (b - a) <= days_before_year b.
Proof.
  intros H. unfold days_before_year. Z.div_mod_to_equations. lia.
Qed.

Lemma month_cases m :
  1 <= m <= 12 ->
  m = 1 \/ m = 2 \/ m = 3 \/ m = 4 \/ m = 5 \/ m = 6 \/
  m = 7 \/ m = 8 \/ m = 9 \/ m = 10 \/ m = 11 \/ m = 12.
Proof. lia. Qed.

Ltac each_month H :=
  apply month_cases in H;
  repeat (destruct H as [H|H]); subst.

Ltac calendar :=
  cbv [days_before_month days_in_month DAYS_BEFORE_MONTH DAYS_IN_MONTH nth
       Z.to_nat Pos.to_nat Pos.iter_op Init.Nat.add Z.eqb Z.ltb Z.compare
       Pos.compare Pos.compare_cont Pos.eqb andb Z.b2z].

(** Within a year: the days before a month and the days of that month are
    the days before the next one, and at most the whole year. *)
Lemma days_through_month y m :
  1 <= m <= 12 ->
  0 <= days_before_month y m /\
  days_before_month y m + days_in_month y m <= 365 + Z.b2z (is_leap y) /\
  (forall m', m < m' <= 12 ->
              days_before_month y m + days_in_month y m <= days_before_month y m').
Proof.
  intros Hm.
  repeat split;
    [ | | intros m' Hm'; assert (Hm'' : 1 <= m' <= 12) by lia; each_month Hm''];
    each_month Hm; unfold days_before_month, days_in_month;
    destruct (is_leap y); calendar; lia.
Qed.

Lemma toordinal_bounds d :
  valid_date d ->
  days_before_year (year d) + 1 <= toordinal d <= days_before_year (year d + 1)
  /\ 1 <= toordinal d <= MAXORDINAL.
Proof.
  intros (Hy & Hm & Hd). unfold MINYEAR, MAXYEAR in Hy.
  destruct (days_through_month (year d) (month d) Hm) as (H0 & H1 & _).
  pose proof (days_before_year_succ (year d)) as Hs.
  pose proof (days_before_year_mono 1 (year d) ltac:(lia)) as Hlo.
  pose proof (days_before_year_mono (year d + 1) 10000 ltac:(lia)) as Hhi.
  change (days_before_year 1) with 0 in Hlo.
  change (days_before_year 10000) with 3652059 in Hhi.
  unfold toordinal, ymd2ord, MAXORDINAL. lia.
Qed.

Lemma fromordinal_valid n :
  1 <= n <= MAXORDINAL -> valid_date (fromordinal n).
Proof.
  intros Hn. pose proof (ord2ymd_ymd2ord n ltac:(lia)) as H.
  unfold fromordinal, valid_date. destruct (ord2ymd n) as [[y m] d]. simpl.
  destruct H as (Ho & Hy & Hm & Hd). split; [|now split].
  unfold MINYEAR, MAXYEAR. split; [assumption|].
  destruct (Z_le_gt_dec y 9999) as [|Hbig]; [assumption|exfalso].
  pose proof (days_before_year_mono 10000 y ltac:(lia)) as Hmono.
  change (days_before_year 10000) with 3652059 in Hmono.
  destruct (days_through_month y m Hm) as (H0 & _).
  unfold ymd2ord, MAXORDINAL in *. lia.
Qed.

(** Dates compare like their ordinals. *)
Lemma date_leb_ordinal a b :
  valid_date a -> valid_date b -> toordinal a <= toordinal b ->
  date_leb a b = true.
Proof.
  intros Ha Hb Hle.
  destruct (toordinal_bounds a Ha) as ((Ha1 & Ha2) & _).
  destruct (toordinal_bounds b Hb) as ((Hb1 & Hb2) & _).
  destruct Ha as (_ & Hma & Hda). destruct Hb as (_ & Hmb & Hdb).
  unfold date_leb.
  destruct (Z.ltb_spec (year a) (year b)) as [|Hy]; [reflexivity|].
  destruct (Z.eqb_spec (year a) (year b)) as [Heq|Hne].
  - simpl. destruct (Z.ltb_spec (month a) (month b)) as [|Hm]; [reflexivity|].
    destruct (Z.eqb_spec (month a) (month b)) as [Hmeq|Hmne].
    + simpl. apply Z.leb_le. unfold toordinal, ymd2ord in Hle.
      rewrite Heq, Hmeq in Hle. lia.
    + exfalso.
      destruct (days_through_month (year b) (month b) Hmb) as (_ & _ & Hnext).
      specialize (Hnext (month a) ltac:(lia)).
      unfold toordinal, ymd2ord in Hle. rewrite Heq in Hle. lia.
  - exfalso.
    pose proof (days_before_year_mono (year b + 1) (year a) ltac:(lia)). lia.
Qed.

End DateFacts.

(* ===================================================================== *)
(** * The default week-ending date *)
(* ===================================================================== *)

Module MostRecentSunday.
Import Py PyDate App DateFacts.
Local Open Scope Z_scope.

Lemma weekday_sunday d : weekday d = 6 <-> toordinal d mod 7 = 0.
Proof. unfold weekday. split; intros H; Z.div_mod_to_equations; lia. Qed.

(** The loop steps back [toordinal d mod 7] days, one day at a time. *)
Lemma back_to_sunday_steps fuel :
  forall d,
    1 <= toordinal d <= MAXORDINAL ->
    1 <= toordinal d - toordinal d mod 7 ->
    (Z.to_nat (toordinal d mod 7) < fuel)%nat ->
    exists r,
      back_to_sunday fuel d = Some (Ok r) /\
      toordinal r = toordinal d - toordinal d mod 7 /\
      (toordinal d mod 7 = 0 -> r = d) /\
      (valid_date d -> valid_date r).
Proof.
  induction fuel as [|fuel IH]; intros d Ho Hlow Hfuel; [lia|].
  pose proof (Z.mod_pos_bound (toordinal d) 7 ltac:(lia)) as Hk.
  cbn [back_to_sunday].
  destruct (Z.eqb_spec (weekday d) 6) as [Hs|Hs]; cbn [negb].
  - apply weekday_sunday in Hs. exists d. rewrite Hs.
    split; [reflexivity|]. split; [lia|]. split; [reflexivity | tauto].
  - assert (Hk0 : toordinal d mod 7 <> 0) by (intros E; now apply Hs, weekday_sunday).
    unfold sub_days.
    assert (Hin : (0 <? toordinal d - 1) && (toordinal d - 1 <=? MAXORDINAL) = true).
    { apply andb_true_intro. split; [apply Z.ltb_lt | apply Z.leb_le]; lia. }
    rewrite Hin.
    assert (Ho' : toordinal (fromordinal (toordinal d - 1)) = toordinal d - 1)
      by (apply toordinal_fromordinal; lia).
    assert (Hm' : (toordinal d - 1) mod 7 = toordinal d mod 7 - 1)
      by (Z.div_mod_to_equations; lia).
    destruct (IH (fromordinal (toordinal d - 1))) as (r & Hr & Hor & _ & Hv).
    + rewrite Ho'. lia.
    + rewrite Ho', Hm'. lia.
    + rewrite Ho', Hm'. lia.
    + exists r. split; [exact Hr|]. rewrite Hor, Ho', Hm'.
      split; [lia|]. split; [intros E; contradiction|].
      intros _. apply Hv. apply fromordinal_valid. lia.
Qed.

(** More fuel does not change an answer. *)
Lemma back_to_sunday_mono f1 :
  forall f2 d y, (f1 <= f2)%nat ->
                 back_to_sunday f1 d = Some y -> back_to_sunday f2 d = Some y.
Proof.
  induction f1 as [|f1 IH]; intros f2 d y Hle H; [discriminate|].
  destruct f2 as [|f2]; [lia|]. simpl in *.
  destruct (negb (weekday d =? 6)); [|assumption].
  destruct (sub_days d 1); [|assumption].
  apply IH; [lia | assumption].
Qed.

(** C7 (as the code has it).  For every anchor date from 0001-01-07 on, the
    first Sunday of the calendar, [most_recent_sunday] terminates (seven
    iterations of its loop are always enough) and returns a valid date that
    is a Sunday, is on or before the anchor and is less than seven days
    before it; an anchor that is a Sunday is returned itself.  Without an
    anchor the same holds for today's date. *)
Theorem most_recent_sunday_spec today anchor :
  let d := match anchor with None => today | Some a => a end in
  valid_date d ->
  7 <= toordinal d ->
  exists r,
    (forall fuel, (7 <= fuel)%nat ->
                  most_recent_sunday fuel today anchor = Some (Ok r)) /\
    valid_date r /\
    weekday r = 6 /\
    date_leb r d = true /\
    0 <= days_between d r < 7 /\
    (weekday d = 6 -> r = d).
Proof.
  intros d Hv H7.
  destruct (toordinal_bounds d Hv) as (_ & Hb).
  pose proof (Z.mod_pos_bound (toordinal d) 7 ltac:(lia)) as Hk.
  assert (Hlow : 1 <= toordinal d - toordinal d mod 7)
    by (Z.div_mod_to_equations; lia).
  destruct (back_to_sunday_steps 7 d Hb Hlow ltac:(lia)) as (r & Hr & Hor & Hsame & Hvr).
  exists r. split; [|split; [|split; [|split; [|split]]]].
  - intros fuel Hfuel. unfold most_recent_sunday. fold d.
    now apply (back_to_sunday_mono 7).
  - now apply Hvr.
  - apply weekday_sunday. rewrite Hor. Z.div_mod_to_equations; lia.
  - apply date_leb_ordinal; [now apply Hvr | assumption | lia].
  - unfold days_between. lia.
  - intros Hs. apply Hsame. now apply weekday_sunday.
Qed.

Lemma most_recent_sunday_spec_witness :
  exists r,
    (forall fuel, (7 <= fuel)%nat ->
                  most_recent_sunday fuel (mkdate 2024 6 9) (Some (mkdate 2024 6 12))
                  = Some (Ok r)) /\
    valid_date r /\
    weekday r = 6 /\
    date_leb r (mkdate 2024 6 12) = true /\
    0 <= days_between (mkdate 2024 6 12) r < 7 /\
    (weekday (mkdate 2024 6 12) = 6 -> r = mkdate 2024 6 12).
Proof.
  apply (most_recent_sunday_spec (mkdate 2024 6 9) (Some (mkdate 2024 6 12))).
  - repeat split; vm_compute; discriminate.
  - vm_compute. discriminate.
Defined.

(** C7 as stated fails for the first six days of the calendar: 0001-01-01
    is a Monday and no earlier date exists, so the step back raises
    [OverflowError] and no date is returned, whatever the fuel. *)
Lemma most_recent_sunday_before_first_sunday :
  valid_date (mkdate 1 1 1) /\
  weekday (mkdate 1 1 1) = 0 /\
  (forall fuel, (1 <= fuel)%nat ->
     most_recent_sunday fuel (mkdate 2024 6 9) (Some (mkdate 1 1 1))
     = Some (Raise (OverflowError "date value out of range"))) /\
  most_recent_sunday 7 (mkdate 2024 6 9) (Some (mkdate 1 1 6))
  = Some (Raise (OverflowError "date value out of range")).
Proof.
  split; [repeat split; vm_compute; discriminate|].
  split; [reflexivity|]. split; [|reflexivity].
  intros [|fuel] H; [lia | reflexivity].
Qed.

End MostRecentSunday.

(* ===================================================================== *)
(** * Sorting *)
(* ===================================================================== *)

Module SortFacts.
Import PyStr PyFloat Pandas.

Section Sort.
Context {A : Type}.
Variable leb : A -> A -> bool.

Lemma insert_sorted_perm x l : Permutation (insert_sorted leb x l) (x :: l).
Proof.
  induction l as [|y t IH]; simpl; [reflexivity|].
  destruct (leb x y); [reflexivity|].
  rewrite IH. apply perm_swap.
Qed.

Lemma sort_by_perm l : Permutation (sort_by leb l) l.
Proof.
  induction l as [|x t IH]; simpl; [reflexivity|].
  rewrite insert_sorted_perm. now constructor.
Qed.

Lemma sort_by_length l : List.length (sort_by leb l) = List.length l.
Proof. apply Permutation_length, sort_by_perm. Qed.

Hypothesis leb_total : forall a b, leb a b = true \/ leb b a = true.

Lemma insert_sorted_sorted x l :
  Sorted (fun a b => leb a b = true) l ->
  Sorted (fun a b => leb a b = true) (insert_sorted leb x l).
Proof.
  induction l as [|y t IH]; intros Hs; simpl.
  - repeat constructor.
  - destruct (leb x y) eqn:E.
    + constructor; [assumption | now constructor].
    + inversion Hs as [|? ? Ht Hhd]; subst.
      constructor; [now apply IH|].
      destruct t as [|z t']; simpl.
      * constructor. destruct (leb_total x y); congruence.
      * destruct (leb x z).
        -- constructor. destruct (leb_total x y); congruence.
        -- constructor. now inversion Hhd.
Qed.

Lemma sort_by_sorted l : Sorted (fun a b => leb a b = true) (sort_by leb l).
Proof.
  induction l as [|x t IH]; simpl; [constructor|].
  now apply insert_sorted_sorted.
Qed.
End Sort.

(** Comparing in the other direction gives the opposite answer. *)
Lemma SFcompare_antisym x y :
  SFcompare y x = option_map CompOpp (SFcompare x y).
Proof.
  destruct x as [sx|sx| |sx mx ex], y as [sy|sy| |sy my ey]; simpl;
    try reflexivity;
    try (destruct sx; reflexivity); try (destruct sy; reflexivity);
    try (destruct sx, sy; reflexivity).
  f_equal. destruct sx, sy; try reflexivity.
  - rewrite (Z.compare_antisym ex ey).
    destruct (ex ?= ey)%Z; simpl; try reflexivity.
    change (Pos.compare_cont Eq my mx) with (Pos.compare my mx).
    now rewrite (Pos.compare_antisym mx my).
  - rewrite (Z.compare_antisym ex ey).
    destruct (ex ?= ey)%Z; simpl; try reflexivity.
    change (Pos.compare_cont Eq my mx) with (Pos.compare my mx).
    now rewrite (Pos.compare_antisym mx my).
Qed.

Lemma fleb_total x y : fleb x y = true \/ fleb y x = true.
Proof.
  unfold fleb. destruct (is_nan y) eqn:Hy; [now left|].
  destruct (is_nan x) eqn:Hx; [now right|].
  rewrite (SFcompare_antisym x y).
  destruct (SFcompare x y) as [[| |]|]; simpl; auto.
Qed.

Lemma key_leb_total a b : key_leb a b = true \/ key_leb b a = true.
Proof.
  unfold key_leb. rewrite (String.compare_antisym (fst a) (fst b)).
  destruct (String.compare (fst b) (fst a)); simpl; auto.
  destruct (fleb_total (snd a) (snd b)); auto.
Qed.

End SortFacts.

(* ===================================================================== *)
(** * Line IDs *)
(* ===================================================================== *)

Module LineIds.
Import PyStr PyFloat Py PyDate Checks Pandas App SortFacts DateFacts.

Lemma append_zeros_value k s : digits_value (zeros k ++ s) = digits_value s.
Proof.
  induction k as [|k IH]; [reflexivity|].
  unfold digits_value in *. simpl.
  destruct (DecimalString.NilEmpty.uint_of_string (zeros k ++ s)) as [d|];
    exact IH.
Qed.

Lemma decimal_value n : digits_value (decimal n) = n.
Proof.
  unfold digits_value, decimal, decimal_N. rewrite DecimalString.NilEmpty.usu.
  rewrite DecimalN.Unsigned.of_to. apply Nat2N.id.
Qed.

(** The padded number reads back as the number. *)
Lemma format_0d_value w n : digits_value (format_0d w n) = n.
Proof.
  unfold format_0d, format_0d_N. rewrite append_zeros_value. apply decimal_value.
Qed.

Lemma format_0d_inj w a b : format_0d w a = format_0d w b -> a = b.
Proof.
  intros H. rewrite <- (format_0d_value w a), <- (format_0d_value w b).
  now rewrite H.
Qed.

Lemma append_inj_l p a b : (p ++ a = p ++ b)%string -> a = b.
Proof. induction p as [|c p IH]; simpl; [tauto|]. intros [= H]. now apply IH. Qed.

Lemma append_length a b :
  String.length (a ++ b) = (String.length a + String.length b)%nat.
Proof. induction a as [|c a IH]; simpl; [reflexivity|]. now rewrite IH. Qed.

Lemma all_digits_append a b :
  all_digits (a ++ b) = all_digits a && all_digits b.
Proof.
  induction a as [|c a IH]; simpl; [reflexivity|].
  now rewrite IH, andb_assoc.
Qed.

Lemma fits_spec w bound :
  fits w bound = true ->
  forall n, (n < bound)%nat ->
            String.length (format_0d w n) = w /\ all_digits (format_0d w n) = true.
Proof.
  unfold fits. intros H n Hn.
  pose proof (all_from_spec _ _ _ H (Z.of_nat n) ltac:(lia)) as Hz.
  cbv beta in Hz. rewrite <- (nat_N_Z n), N2Z.id in Hz.
  apply andb_prop in Hz as [H1 H2].
  split; [now apply Nat.eqb_eq | assumption].
Qed.

Lemma four_digits : fits 4 (Z.to_nat 10000) = true.
Proof. vm_compute. reflexivity. Qed.

Lemma two_digits : fits 2 (Z.to_nat 100) = true.
Proof. vm_compute. reflexivity. Qed.

Lemma days_in_month_le_31 y m : (1 <= m <= 12)%Z -> (days_in_month y m <= 31)%Z.
Proof.
  intros Hm. each_month Hm; unfold days_in_month; destruct (is_leap y);
    calendar; lia.
Qed.

(** The ID prefix of a valid date is eight digits. *)
Lemma strftime_Ymd_eight d :
  valid_date d ->
  String.length (strftime_Ymd d) = 8 /\ all_digits (strftime_Ymd d) = true.
Proof.
  intros (Hy & Hm & Hd). unfold MINYEAR, MAXYEAR in Hy.
  pose proof (days_in_month_le_31 (year d) (month d) Hm) as H31.
  destruct (fits_spec 4 _ four_digits (Z.to_nat (year d)) ltac:(lia)) as [Ly Dy].
  destruct (fits_spec 2 _ two_digits (Z.to_nat (month d)) ltac:(lia)) as [Lm Dm].
  destruct (fits_spec 2 _ two_digits (Z.to_nat (day d)) ltac:(lia)) as [Ld Dd].
  unfold strftime_Ymd.
  rewrite !append_length, !all_digits_append, Ly, Lm, Ld, Dy, Dm, Dd.
  now split.
Qed.

Lemma nth_error_combine_seq {A B} (g : nat -> B) (l : list A) :
  forall start i,
    nth_error (combine l (map g (seq start (List.length l)))) i
    = match nth_error l i with
      | Some x => Some (x, g (start + i)%nat)
      | None => None
      end.
Proof.
  induction l as [|x l IH]; intros start i; simpl.
  - now destruct i.
  - destruct i as [|i]; simpl.
    + now rewrite Nat.add_0_r.
    + rewrite IH. now rewrite Nat.add_succ_r.
Qed.

Lemma map_snd_combine_seq {A B} (g : nat -> B) (l : list A) start :
  map snd (combine l (map g (seq start (List.length l))))
  = map g (seq start (List.length l)).
Proof.
  revert start. induction l as [|x l IH]; intros start; simpl; [reflexivity|].
  now rewrite IH.
Qed.

Lemma final_nth_error rows d i :
  nth_error (final rows d) i =
  match nth_error (sort_values rows) i with
  | Some j =>
      Some (mkexport (Assignment j) (EmployeeName (pay j)) (PayRate (pay j))
              (strftime_mdY d) (strftime_mdY d) (Hours (pay j))
              (strftime_Ymd d ++ format_0d 4 (i + 1)))
  | None => None
  end.
Proof.
  unfold final, line_ids.
  rewrite nth_error_map, nth_error_combine_seq.
  destruct (nth_error (sort_values rows) i) as [j|]; [|reflexivity].
  simpl. now rewrite (Nat.add_comm i 1).
Qed.

Lemma final_ids rows d :
  map UniqueLineID (final rows d)
  = line_ids (strftime_Ymd d) (List.length rows).
Proof.
  unfold final. rewrite map_map.
  rewrite (map_ext _ snd) by (now intros [j id]).
  unfold line_ids at 1. rewrite map_snd_combine_seq.
  unfold sort_values. now rewrite sort_by_length.
Qed.

Lemma final_length rows d : List.length (final rows d) = List.length rows.
Proof.
  rewrite <- (length_map UniqueLineID), final_ids. unfold line_ids.
  now rewrite length_map, length_seq.
Qed.

Lemma line_ids_NoDup prefix n : NoDup (line_ids prefix n).
Proof.
  unfold line_ids. apply Finite.Injective_map_NoDup; [|apply seq_NoDup].
  intros a b H. apply append_inj_l in H. now apply format_0d_inj in H.
Qed.

(** C2 (as the code has it).  The rows are put in ascending order of
    (Employee Name, Pay Rate), a rearrangement of the joined rows; the
    [i]-th row of that order, counted from 1, receives the ID made of the
    date as YYYYMMDD and of [i] written in decimal and padded with zeros to
    at least four digits.  The date part is eight digits; the number part
    is exactly four digits up to [i = 9999], longer beyond, and always
    reads back as [i].  The IDs of one export are pairwise distinct and
    depend only on the date and the number of rows, so the same input and
    date give the same IDs.  For 2024-06-09 and two rows they are
    202406090001 and 202406090002. *)
Theorem line_ids_spec rows d :
  valid_date d ->
  Permutation (sort_values rows) rows /\
  Sorted (fun a b => joined_leb a b = true) (sort_values rows) /\
  List.length (final rows d) = List.length rows /\
  (forall i,
      nth_error (final rows d) i =
      match nth_error (sort_values rows) i with
      | Some j =>
          Some (mkexport (Assignment j) (EmployeeName (pay j)) (PayRate (pay j))
                  (strftime_mdY d) (strftime_mdY d) (Hours (pay j))
                  (strftime_Ymd d ++ format_0d 4 (i + 1)))
      | None => None
      end) /\
  String.length (strftime_Ymd d) = 8 /\
  all_digits (strftime_Ymd d) = true /\
  (forall i, digits_value (format_0d 4 i) = i /\
             ((Z.of_nat i <= 9999)%Z ->
              String.length (format_0d 4 i) = 4 /\ all_digits (format_0d 4 i) = true)) /\
  NoDup (map UniqueLineID (final rows d)) /\
  map UniqueLineID (final rows d) = line_ids (strftime_Ymd d) (List.length rows) /\
  line_ids (strftime_Ymd (mkdate 2024 6 9)) 2 = ["202406090001"; "202406090002"].
Proof.
  intros Hv.
  split; [apply sort_by_perm|].
  split; [apply sort_by_sorted; intros a b; apply key_leb_total|].
  split; [apply final_length|].
  split.
  { intros i. apply final_nth_error. }
  destruct (strftime_Ymd_eight d Hv) as [L8 D8].
  split; [exact L8|]. split; [exact D8|].
  split.
  { intros i. split; [apply format_0d_value|].
    intros Hi. apply (fits_spec 4 _ four_digits). lia. }
  split; [rewrite final_ids; apply line_ids_NoDup|].
  split; [apply final_ids | reflexivity].
Qed.

Lemma line_ids_spec_witness :
  map UniqueLineID
    (final [mkjoined NA (mkpay "John Roe" (of_Z 25) (of_Z 8));
            mkjoined (Text "A100") (mkpay "Jane Doe" (of_Z 20) (dyadic 15 (-1)))]
           (mkdate 2024 6 9))
  = line_ids (strftime_Ymd (mkdate 2024 6 9)) 2.
Proof.
  apply (line_ids_spec
           [mkjoined NA (mkpay "John Roe" (of_Z 25) (of_Z 8));
            mkjoined (Text "A100") (mkpay "Jane Doe" (of_Z 20) (dyadic 15 (-1)))]
           (mkdate 2024 6 9)).
  repeat split; vm_compute; discriminate.
Defined.

(** C2 as stated fails from the 10000th row on: its number has five
    digits, and the ID thirteen characters instead of twelve. *)
Lemma line_id_of_row_10000 :
  map UniqueLineID
      (skipn (Z.to_nat 9999)
             (final (repeat (mkjoined NA (mkpay "A" zero zero)) (Z.to_nat 10000))
                    (mkdate 2024 6 9)))
  = ["2024060910000"] /\
  format_0d 4 (Z.to_nat 10000) = "10000" /\
  String.length (format_0d 4 (Z.to_nat 10000)) <> 4.
Proof. vm_compute. repeat split. discriminate. Qed.

End LineIds.

(* ===================================================================== *)
(** * Aggregation *)
(* ===================================================================== *)

Module GroupByFacts.
Import PyStr PyFloat Py Pandas App SortFacts.

(** Two floats compare equal exactly when they are the same number. *)
Lemma SFeqb_key_float x y :
  SFeqb x y = true <-> (is_nan x = false /\ key_float x = key_float y).
Proof.
  unfold SFeqb.
  destruct x as [sx|sx| |sx mx ex], y as [sy|sy| |sy my ey]; simpl.
  all: try (split; [discriminate | intros [? ?]; discriminate]).
  all: try (split; [intros _; split; reflexivity | reflexivity]).
  all: try (destruct sx; simpl; (split; [discriminate | intros [_ ?]; discriminate])).
  all: try (destruct sy; simpl; (split; [discriminate | intros [_ ?]; discriminate])).
  - destruct sx, sy; simpl; (split; [try discriminate | try (intros [_ ?]; discriminate)]);
      tauto.
  - change (Pos.compare_cont Eq mx my) with (Pos.compare mx my).
    destruct sx, sy; try (split; [discriminate | intros [_ [=]]]).
    + destruct (Z.compare_spec ex ey) as [->|?|?];
        try (split; [discriminate | intros [_ [= ? ?]]; lia]).
      destruct (Pos.compare_spec mx my) as [->|?|?]; simpl;
        try (split; [discriminate | intros [_ [= ?]]; lia]).
      tauto.
    + destruct (Z.compare_spec ex ey) as [->|?|?];
        try (split; [discriminate | intros [_ [= ? ?]]; lia]).
      destruct (Pos.compare_spec mx my) as [->|?|?]; simpl;
        try (split; [discriminate | intros [_ [= ?]]; lia]).
      tauto.
Qed.

Lemma same_key_repr x y : same_key x y = true <-> key_float x = key_float y.
Proof.
  unfold same_key, feqb. rewrite orb_true_iff, andb_true_iff, SFeqb_key_float.
  destruct (is_nan x) eqn:Hx.
  - destruct x; try discriminate. destruct y; simpl; split; intros H;
      try discriminate; try (destruct H as [[_ ?]|[? _]]; discriminate).
    + reflexivity.
    + left. now split.
  - split.
    + intros [[? _]|[_ ?]]; [discriminate | assumption].
    + intros H. right. now split.
Qed.
(** Two keys are the same group exactly when their representatives are
    equal. *)
Lemma key_eqb_repr a b : key_eqb a b = true <-> key_repr a = key_repr b.
Proof.
  unfold key_eqb, key_repr. rewrite andb_true_iff, String.eqb_eq, same_key_repr.
  destruct a, b; simpl. split; [intros [-> ->]; reflexivity | intros [= -> ->]; tauto].
Qed.

Section Dedup.
Context {A B : Type}.
Variable eqb : A -> A -> bool.
Variable repr : A -> B.
Hypothesis eqb_repr : forall x y, eqb x y = true <-> repr x = repr y.

Lemma seen_repr x seen :
  existsb (eqb x) seen = true <-> In (repr x) (map repr seen).
Proof.
  rewrite existsb_exists, in_map_iff. split.
  - intros (y & Hy & E). exists y. split; [symmetry; now apply eqb_repr | assumption].
  - intros (y & E & Hy). exists y. split; [assumption | now apply eqb_repr].
Qed.

Lemma dedup_incl seen l x :
  In x (drop_duplicates_by eqb seen l) -> In x l.
Proof.
  revert seen. induction l as [|y t IH]; intros seen; simpl; [tauto|].
  destruct (existsb (eqb y) seen).
  - intros H. right. now apply (IH seen).
  - intros [<-|H]; [now left | right; now apply (IH (y :: seen))].
Qed.

Lemma dedup_covers seen l x :
  In x l ->
  In (repr x) (map repr seen)
  \/ In (repr x) (map repr (drop_duplicates_by eqb seen l)).
Proof.
  revert seen. induction l as [|y t IH]; intros seen; simpl; [tauto|].
  intros [<-|H].
  - destruct (existsb (eqb y) seen) eqn:E.
    + left. now apply seen_repr.
    + right. now left.
  - destruct (existsb (eqb y) seen) eqn:E.
    + now apply IH.
    + destruct (IH (y :: seen) H) as [[Hy|Hs]|Hd].
      * right. left. exact Hy.
      * now left.
      * right. now right.
Qed.

Lemma dedup_fresh seen l x :
  In x (drop_duplicates_by eqb seen l) -> ~ In (repr x) (map repr seen).
Proof.
  revert seen. induction l as [|y t IH]; intros seen; simpl; [tauto|].
  destruct (existsb (eqb y) seen) eqn:E.
  - apply IH.
  - intros [<-|H].
    + intros Hin. apply seen_repr in Hin. congruence.
    + intros Hin. apply (IH (y :: seen) H). now right.
Qed.

Lemma dedup_NoDup seen l :
  NoDup (map repr (drop_duplicates_by eqb seen l)).
Proof.
  revert seen. induction l as [|y t IH]; intros seen; simpl; [constructor|].
  destruct (existsb (eqb y) seen) eqn:E; [apply IH|].
  simpl. constructor; [|apply IH].
  intros Hin. apply in_map_iff in Hin as (z & Hz & Hin).
  apply dedup_fresh in Hin. apply Hin. rewrite Hz. now left.
Qed.
End Dedup.

(** Distinct representatives, read as pairwise different keys. *)
Lemma NoDup_repr_pairs {A} (key_of : A -> key) (l : list A) :
  NoDup (map (fun x => key_repr (key_of x)) l) ->
  ForallOrdPairs (fun a b => key_eqb (key_of a) (key_of b) = false) l.
Proof.
  induction l as [|x t IH]; simpl; intros H; [constructor|].
  inversion H as [|? ? Hx Ht]; subst. constructor; [|now apply IH].
  apply Forall_forall. intros y Hy.
  destruct (key_eqb (key_of x) (key_of y)) eqn:E; [|reflexivity].
  apply key_eqb_repr in E. exfalso. apply Hx. rewrite E.
  apply (in_map (fun x => key_repr (key_of x))). exact Hy.
Qed.

Section Groups.
Context {A : Type}.
Variable key_of : A -> key.
Variable value_of : A -> float.

Lemma group_keys_perm l :
  Permutation (group_keys key_of l)
              (drop_duplicates_by key_eqb [] (map key_of l)).
Proof. apply sort_by_perm. Qed.

(** Each group key is the key of a row. *)
Lemma group_keys_from_rows l k :
  In k (group_keys key_of l) -> exists x, In x l /\ key_of x = k.
Proof.
  intros H. apply (Permutation_in _ (group_keys_perm l)) in H.
  apply dedup_incl in H. apply in_map_iff in H as (x & Hx & Hin). eauto.
Qed.

(** Each row belongs to a group. *)
Lemma group_keys_cover l x :
  In x l -> exists k, In k (group_keys key_of l) /\ key_eqb (key_of x) k = true.
Proof.
  intros H.
  destruct (dedup_covers key_eqb key_repr key_eqb_repr [] (map key_of l) (key_of x))
    as [[]|Hd]; [now apply in_map|].
  apply in_map_iff in Hd as (k & Hk & Hin).
  exists k. split.
  - apply (Permutation_in _ (Permutation_sym (group_keys_perm l))). exact Hin.
  - apply key_eqb_repr. now symmetry.
Qed.

Lemma group_keys_NoDup l : NoDup (map key_repr (group_keys key_of l)).
Proof.
  apply (Permutation_NoDup (Permutation_map key_repr
                              (Permutation_sym (group_keys_perm l)))).
  apply (dedup_NoDup key_eqb key_repr key_eqb_repr).
Qed.

Lemma group_keys_sorted l :
  Sorted (fun a b => key_leb a b = true) (group_keys key_of l).
Proof. apply sort_by_sorted. apply key_leb_total. Qed.
End Groups.

End GroupByFacts.

Module Aggregation.
Import PyStr PyFloat Py Pandas App SortFacts GroupByFacts.

Lemma summary_unfold payroll :
  summary payroll
  = map (fun k => mkpay (fst k) (snd k)
                    (sum_skipna (map Hours (group_rows pay_key k payroll))))
        (group_keys pay_key payroll).
Proof. unfold summary, groupby_sum. now rewrite map_map. Qed.

Lemma summary_keys payroll :
  map pay_key (summary payroll) = group_keys pay_key payroll.
Proof.
  rewrite summary_unfold, map_map. rewrite <- (map_id (group_keys pay_key payroll)) at 2.
  apply map_ext. now intros [n r].
Qed.

Lemma Sorted_map {A B} (f : A -> B) (R : B -> B -> Prop) l :
  Sorted R (map f l) -> Sorted (fun a b => R (f a) (f b)) l.
Proof.
  induction l as [|x t IH]; simpl; intros H; [constructor|].
  inversion H as [|? ? Ht Hhd]; subst. constructor; [now apply IH|].
  destruct t; simpl in *; constructor. now inversion Hhd.
Qed.

(** ** The compensated sum *)

Lemma fsub_zero x : is_nan x = false -> fsub x zero = x.
Proof. destruct x as [[|]|[|]| |s m e]; intros H; try reflexivity; discriminate. Qed.

Lemma fsub_self_finite s m e : fsub (S754_finite s m e) (S754_finite s m e) = zero.
Proof.
  unfold fsub, SFsub. rewrite Z.min_id. unfold shl_align. rewrite Z.sub_diag.
  cbn [fst]. destruct s; cbn [cond_Zopp negb]; rewrite ?Z.add_opp_diag_r, ?Z.add_opp_diag_l;
  reflexivity.
Qed.

(** The first value of a group goes into the sum as it is and leaves no
    compensation behind. *)
Lemma kahan_first x :
  is_nan x = false -> kahan_step (zero, zero) x = (fadd zero x, zero).
Proof.
  intros H. unfold kahan_step. rewrite (fsub_zero x H).
  destruct x as [[|]|[|]| |s m e]; try reflexivity; try discriminate.
  change (fadd zero (S754_finite s m e)) with (S754_finite s m e).
  rewrite (fsub_zero (S754_finite s m e) eq_refl), fsub_self_finite. reflexivity.
Qed.

(** A step without compensation before it and without rounding error is a
    plain addition. *)
Lemma kahan_exact acc v :
  is_nan v = false ->
  (let c := fsub (fsub (fadd acc v) acc) v in c = zero \/ is_nan c = true) ->
  kahan_step (acc, zero) v = (fadd acc v, zero).
Proof.
  intros Hv Hc. unfold kahan_step. rewrite (fsub_zero v Hv).
  cbv zeta in Hc. destruct Hc as [-> | ->]; reflexivity.
Qed.

Lemma skipna_filter vs state :
  fold_left (fun state v => if is_nan v then state else kahan_step state v) vs state
  = fold_left kahan_step (filter (fun v => negb (is_nan v)) vs) state.
Proof.
  revert state. induction vs as [|v vs IH]; intros state; [reflexivity|].
  cbn [fold_left filter]. destruct (is_nan v); cbn [negb fold_left]; apply IH.
Qed.

Lemma sum_skipna_filter vs :
  sum_skipna vs = fst (fold_left kahan_step (filter (fun v => negb (is_nan v)) vs) (zero, zero)).
Proof. unfold sum_skipna. now rewrite skipna_filter. Qed.

Lemma sum_skipna_skips a b : sum_skipna (a ++ nan :: b) = sum_skipna (a ++ b).
Proof. rewrite !sum_skipna_filter, !filter_app. reflexivity. Qed.

Lemma sum_skipna_exact hs acc :
  Forall (fun h => is_nan h = false) hs ->
  (forall a v b, hs = a ++ v :: b ->
     let s := fold_left fadd a acc in
     let c := fsub (fsub (fadd s v) s) v in c = zero \/ is_nan c = true) ->
  fold_left (fun state v => if is_nan v then state else kahan_step state v) hs (acc, zero)
  = (fold_left fadd hs acc, zero).
Proof.
  revert acc. induction hs as [|h t IH]; intros acc Hn Hex; [reflexivity|].
  inversion Hn as [|? ? Hh Ht]; subst. cbn [fold_left]. rewrite Hh.
  rewrite (kahan_exact acc h Hh (Hex [] h t eq_refl)).
  apply IH; [assumption|]. intros a v b ->. exact (Hex (h :: a) v b eq_refl).
Qed.

Lemma same_key_nan x y : same_key x y = true -> is_nan x = true -> is_nan y = true.
Proof.
  intros H Hx. apply same_key_repr in H. destruct x; try discriminate.
  destruct y; simpl in H; try discriminate. reflexivity.
Qed.

(** C4.  The summary has one record per group of payroll rows with the
    same (Employee Name, Pay Rate) pair: the key of each record is the key
    of a payroll row, its Hours are the sum of the Hours of exactly the
    rows with that key, every payroll row falls into some record, also when
    its Pay Rate is NaN (such rows make up groups of their own, one per
    name), and no two records have the same key.  The records come in
    ascending order of the key.  The sum of a group is the compensated sum
    over its values that are not NaN, in table order: an empty group or
    one of NaN values only sums to 0.0, a NaN anywhere is passed over, one
    value gives that value and two values give their floating-point sum;
    as long as no addition has a rounding error the sum is the plain
    running sum, and where one has, the compensation shows: 0.1, 0.2 and
    0.3 sum to 0.6, where the running sum gives the next float above it.
    Two rows for ("Jane Doe", 20.0) with 3.0 and 4.5 hours give the single
    record with 7.5 hours. *)
Theorem summary_spec (payroll : list PayRow) :
  (forall r, In r (summary payroll) ->
     (exists p, In p payroll /\ pay_key p = pay_key r) /\
     Hours r = sum_skipna
                 (map Hours (filter (fun p => key_eqb (pay_key r) (pay_key p)) payroll))) /\
  (forall p, In p payroll ->
     exists r, In r (summary payroll) /\ key_eqb (pay_key p) (pay_key r) = true) /\
  (forall p, In p payroll -> is_nan (PayRate p) = true ->
     exists r, In r (summary payroll) /\
               EmployeeName r = EmployeeName p /\ is_nan (PayRate r) = true) /\
  ForallOrdPairs (fun a b => key_eqb (pay_key a) (pay_key b) = false) (summary payroll) /\
  Sorted (fun a b => key_leb (pay_key a) (pay_key b) = true) (summary payroll) /\
  (forall a b, key_eqb a b = true <->
               fst a = fst b /\
               (feqb (snd a) (snd b) = true \/
                (is_nan (snd a) = true /\ is_nan (snd b) = true))) /\
  (forall hs,
      sum_skipna hs
      = fst (fold_left kahan_step (filter (fun h => negb (is_nan h)) hs) (zero, zero))) /\
  (forall hs, Forall (fun h => is_nan h = true) hs -> sum_skipna hs = zero) /\
  (forall a b, sum_skipna (a ++ nan :: b) = sum_skipna (a ++ b)) /\
  (forall x, is_nan x = false -> sum_skipna [x] = fadd zero x) /\
  (forall x y, is_nan x = false -> is_nan y = false ->
               sum_skipna [x; y] = fadd (fadd zero x) y) /\
  (forall hs,
      Forall (fun h => is_nan h = false) hs ->
      (forall a v b, hs = a ++ v :: b ->
         let s := fold_left fadd a zero in
         let c := fsub (fsub (fadd s v) s) v in c = zero \/ is_nan c = true) ->
      sum_skipna hs = fold_left fadd hs zero) /\
  sum_skipna [of_decimal false 1 (-1); of_decimal false 2 (-1); of_decimal false 3 (-1)]
  = of_decimal false 6 (-1) /\
  of_decimal false 6 (-1) = S754_finite false 5404319552844595 (-53) /\
  fold_left fadd [of_decimal false 1 (-1); of_decimal false 2 (-1); of_decimal false 3 (-1)]
            zero
  = S754_finite false 5404319552844596 (-53) /\
  sum_skipna [of_Z 3; dyadic 9 (-1)] = dyadic 15 (-1) /\
  summary [mkpay "Jane Doe" (of_Z 20) (of_Z 3); mkpay "Jane Doe" (of_Z 20) (dyadic 9 (-1))]
  = [mkpay "Jane Doe" (of_Z 20) (dyadic 15 (-1))].
Proof.
  assert (Hcover : forall p, In p payroll ->
            exists r, In r (summary payroll) /\ key_eqb (pay_key p) (pay_key r) = true).
  { intros p Hp. destruct (group_keys_cover pay_key payroll p Hp) as (k & Hk & E).
    rewrite <- summary_keys in Hk. apply in_map_iff in Hk as (r & <- & Hr). eauto. }
  split.
  { intros r Hr. rewrite summary_unfold in Hr.
    apply in_map_iff in Hr as (k & <- & Hk).
    destruct (group_keys_from_rows pay_key payroll k Hk) as (p & Hp & <-).
    split; [exists p; split; [assumption | reflexivity]|].
    reflexivity. }
  split; [exact Hcover|].
  split.
  { intros p Hp Hnan. destruct (Hcover p Hp) as (r & Hr & E).
    exists r. split; [assumption|].
    unfold key_eqb in E. apply andb_prop in E as [En Er].
    apply String.eqb_eq in En. simpl in *. split; [now symmetry|].
    now apply (same_key_nan (PayRate p)). }
  split.
  { apply NoDup_repr_pairs. rewrite <- (map_map pay_key key_repr), summary_keys.
    apply group_keys_NoDup. }
  split; [apply (Sorted_map pay_key (fun a b => key_leb a b = true));
          rewrite summary_keys; apply group_keys_sorted|].
  split.
  { intros a b. unfold key_eqb, same_key.
    rewrite andb_true_iff, orb_true_iff, andb_true_iff, String.eqb_eq. tauto. }
  split; [apply sum_skipna_filter|].
  split.
  { intros hs H. rewrite sum_skipna_filter.
    replace (filter (fun h => negb (is_nan h)) hs) with (@nil float); [reflexivity|].
    induction H as [|h t Hh _ IH]; [reflexivity|]. cbn [filter]. now rewrite Hh. }
  split; [apply sum_skipna_skips|].
  split.
  { intros x Hx. unfold sum_skipna. cbn [fold_left]. rewrite Hx.
    now rewrite (kahan_first x Hx). }
  split.
  { intros x y Hx Hy. unfold sum_skipna. cbn [fold_left]. rewrite Hx, Hy.
    rewrite (kahan_first x Hx). unfold kahan_step. now rewrite (fsub_zero y Hy). }
  split.
  { intros hs Hn Hex. unfold sum_skipna. now rewrite (sum_skipna_exact hs zero Hn Hex). }
  split; [vm_compute; reflexivity|].
  split; [vm_compute; reflexivity|].
  split; [vm_compute; reflexivity|].
  split; vm_compute; reflexivity.
Qed.

Lemma summary_spec_witness :
  (exists r,
     In r (summary [mkpay "A" nan (of_Z 1); mkpay "A" (of_Z 20) (of_Z 2);
                    mkpay "A" nan (of_Z 4)]) /\
     key_eqb (pay_key (mkpay "A" nan (of_Z 4))) (pay_key r) = true) /\
  sum_skipna [of_Z 3; dyadic 9 (-1); dyadic 1 (-2)]
  = fold_left fadd [of_Z 3; dyadic 9 (-1); dyadic 1 (-2)] zero.
Proof.
  pose proof (summary_spec
                [mkpay "A" nan (of_Z 1); mkpay "A" (of_Z 20) (of_Z 2);
                 mkpay "A" nan (of_Z 4)]) as H.
  split.
  - apply (proj1 (proj2 H)). simpl. tauto.
  - apply (proj1 (proj2 (proj2 (proj2 (proj2 (proj2 (proj2 (proj2 (proj2 (proj2
             (proj2 (proj2 H)))))))))))).
    + repeat constructor.
    + intros a v b E.
      destruct a as [|a1 [|a2 [|a3 a]]]; cbn [app] in E;
        [ injection E as E1 E2 | injection E as E1 E2 E3 | injection E as E1 E2 E3 E4
        | apply (f_equal (@List.length float)) in E; cbn [List.length] in E;
          rewrite length_app in E; cbn [List.length] in E; lia ];
        subst; left; vm_compute; reflexivity.
Defined.

End Aggregation.

(* ===================================================================== *)
(** * The join with the roster *)
(* ===================================================================== *)

Module Join.
Import PyStr PyFloat Py Pandas App GroupByFacts Names Coercion Aggregation.


Lemma pay_rows_names str_float names cells r :
  In r (pay_rows str_float names cells) -> In (EmployeeName r) names.
Proof.
  revert cells. induction names as [|n names IH]; intros cells; [intros []|].
  destruct cells as [|[rate [[reg ot] dt]] cells]; [intros []|].
  simpl. intros [<-|H]; [now left | right; now apply (IH cells)].
Qed.



Lemma is_int_Int c : is_int c = true <-> exists n, c = Int n.
Proof.
  destruct c; simpl; split; try discriminate; try (intros (n & H); discriminate).
  - intros _. eexists. reflexivity.
  - reflexivity.
Qed.

Lemma map_flat_map {A B C} (g : B -> C) (f : A -> list B) l :
  map g (flat_map f l) = flat_map (fun x => map g (f x)) l.
Proof.
  induction l as [|x l IH]; [reflexivity|]. cbn [flat_map]. now rewrite map_app, IH.
Qed.


Section WithStr.
Variable str_float : float -> string.

Lemma merged_blocks rows slim :
  merged str_float rows slim = flat_map (fun r => match matching (summary_key str_float) roster_key r slim with
                       | [] => [mkjoined NA r]
                       | _ :: _ =>
                           map (fun e => mkjoined (AssignNo e) r)
                               (matching (summary_key str_float) roster_key r slim)
                       end)
             rows.
Proof.
  unfold merged, merge_left. rewrite map_flat_map. apply flat_map_ext. intros r.
  unfold merge_row.
  destruct (matching (summary_key str_float) roster_key r slim) as [|e ms];
    [reflexivity|].
  rewrite map_map. reflexivity.
Qed.

Lemma merged_app a b slim :
  merged str_float (a ++ b) slim = merged str_float a slim ++ merged str_float b slim.
Proof. unfold merged, merge_left. now rewrite flat_map_app, map_app. Qed.

Lemma merged_one r slim :
  merged str_float [r] slim
  = match matching (summary_key str_float) roster_key r slim with
    | [] => [mkjoined NA r]
    | ms => map (fun e => mkjoined (AssignNo e) r) ms
    end.
Proof.
  rewrite merged_blocks. cbn [flat_map]. rewrite app_nil_r.
  destruct (matching (summary_key str_float) roster_key r slim); reflexivity.
Qed.

(** The join is the merge with its assignment column cast. *)
Lemma joined_cast rows slim :
  joined str_float rows slim
  = map (fun j => mkjoined
                    ((if widened str_float rows slim then upcast else fun c => c)
                       (Assignment j)) (pay j))
        (merged str_float rows slim).
Proof.
  unfold joined. destruct (widened str_float rows slim); [reflexivity|].
  rewrite <- (map_id (merged str_float rows slim)) at 1.
  apply map_ext. now intros [a p].
Qed.

Lemma joined_blocks rows slim :
  joined str_float rows slim
  = flat_map (fun r => match matching (summary_key str_float) roster_key r slim with
                       | [] => [mkjoined NA r]
                       | _ :: _ =>
                           map (fun e => mkjoined (if widened str_float rows slim
                                                   then upcast (AssignNo e) else AssignNo e) r)
                               (matching (summary_key str_float) roster_key r slim)
                       end)
             rows.
Proof.
  rewrite joined_cast, merged_blocks, map_flat_map. apply flat_map_ext. intros r.
  destruct (matching (summary_key str_float) roster_key r slim) as [|e ms].
  - cbn [map Assignment pay]. destruct (widened str_float rows slim); reflexivity.
  - rewrite map_map. apply map_ext. intros e'. cbn [Assignment pay].
    destruct (widened str_float rows slim); reflexivity.
Qed.




(** A row of the join: its record, and what its assignment cell is. *)
Lemma joined_in rows slim j :
  In j (joined str_float rows slim)
  <-> In (pay j) rows /\
      ((matching (summary_key str_float) roster_key (pay j) slim = [] /\
        Assignment j = NA)
       \/ exists e,
            In e (matching (summary_key str_float) roster_key (pay j) slim) /\
            Assignment j
            = (if widened str_float rows slim then upcast (AssignNo e) else AssignNo e)).
Proof.
  rewrite joined_blocks, in_flat_map. split.
  - intros (r & Hr & Hj).
    destruct (matching (summary_key str_float) roster_key r slim) as [|e ms] eqn:E.
    + destruct Hj as [<-|[]]. cbn [pay Assignment]. split; [exact Hr|]. now left.
    + apply in_map_iff in Hj as (e' & <- & He'). cbn [pay Assignment].
      split; [exact Hr|]. right. exists e'. rewrite E. split; [exact He' | reflexivity].
  - intros (Hr & H). exists (pay j). split; [exact Hr|]. destruct j as [a p].
    cbn [pay Assignment] in *. destruct H as [[E ->]|(e & He & ->)].
    + rewrite E. now left.
    + destruct (matching (summary_key str_float) roster_key p slim) as [|e0 ms] eqn:E;
        [destruct He|].
      apply in_map_iff. exists e. split; [reflexivity | exact He].
Qed.




End WithStr.


(** The sample join: Jane Doe at 20.0 finds her roster row, John Roe finds
    none, so the integer 100 comes out as the float 100.0. *)
Example joined_on_sample :
  joined example_str_float
    [mkpay "Jane Doe" (of_Z 20) (dyadic 15 (-1)); mkpay "John Roe" (of_Z 25) (of_Z 8)]
    [mkroster "Jane Doe" (of_Z 20) (Int 100); mkroster "Jane Doe" (of_Z 25) (Int 200)]
  = [mkjoined (Num (of_Z 100)) (mkpay "Jane Doe" (of_Z 20) (dyadic 15 (-1)));
     mkjoined NA (mkpay "John Roe" (of_Z 25) (of_Z 8))].
Proof. vm_compute. reflexivity. Qed.


End Join.

(* ===================================================================== *)
(** * The export and the unmatched report *)
(* ===================================================================== *)

Module ExportFacts.
Import PyStr PyFloat Py PyDate Pandas App SortFacts LineIds.

Lemma filter_perm {A} (f : A -> bool) l l' :
  Permutation l l' -> Permutation (filter f l) (filter f l').
Proof.
  induction 1 as [|x l l' _ IH|x y l|l l' l'' _ IH1 _ IH2]; simpl.
  - constructor.
  - destruct (f x); [now constructor | assumption].
  - destruct (f x), (f y); try reflexivity. apply perm_swap.
  - now transitivity (filter f l').
Qed.

Lemma unmatched_perm rows :
  Permutation (unmatched rows)
              (map pay (filter (fun j => isna (Assignment j)) rows)).
Proof.
  unfold unmatched. apply Permutation_map, filter_perm, sort_by_perm.
Qed.

Lemma unmatched_nonempty rows :
  unmatched rows <> [] <-> exists j, In j rows /\ isna (Assignment j) = true.
Proof.
  split.
  - intros H. destruct (unmatched rows) as [|p ps] eqn:E; [congruence|].
    assert (Hp : In p (unmatched rows)) by (rewrite E; now left).
    apply (Permutation_in _ (unmatched_perm rows)) in Hp.
    apply in_map_iff in Hp as (j & _ & Hj). apply filter_In in Hj. now exists j.
  - intros (j & Hj & Hna) E.
    assert (Hp : In (pay j) (map pay (filter (fun j => isna (Assignment j)) rows))).
    { apply in_map, filter_In. now split. }
    apply (Permutation_in _ (Permutation_sym (unmatched_perm rows))) in Hp.
    rewrite E in Hp. destruct Hp.
Qed.

Lemma is_empty_false {A} (l : list A) : negb (is_empty l) = true <-> l <> [].
Proof. destruct l; simpl; split; congruence. Qed.

(** Every joined row is a row of the export. *)
Lemma final_covers rows d j :
  In j rows ->
  exists x, In x (final rows d) /\
            x_assignment x = Assignment j /\ x_name x = EmployeeName (pay j) /\
            x_rate x = PayRate (pay j) /\ x_hours x = Hours (pay j).
Proof.
  intros Hj.
  apply (Permutation_in _ (Permutation_sym (sort_by_perm joined_leb rows))) in Hj.
  apply In_nth_error in Hj as (i & Hi).
  pose proof (final_nth_error rows d i) as Hf. unfold sort_values in Hf.
  rewrite Hi in Hf. apply nth_error_In in Hf.
  eexists. split; [exact Hf|]. simpl. repeat split.
Qed.

(** C9.  The unmatched report consists of exactly the joined rows whose
    assignment number is missing, each reduced to Employee Name, Pay Rate
    and Hours.  Producing it cannot fail: the export still has one row per
    joined row, those rows included, and once the tables are filtered,
    aggregated and the roster is prepared the run ends with the download
    whatever the join found.  The workbook always starts with the sheet
    "Export"; the sheet "Unmatched", and the warning, are there exactly
    when some joined row lacks its assignment number. *)
Theorem unmatched_spec (rows : list JoinedRow) (d : date) :
  unmatched rows
  = map pay (filter (fun j => isna (Assignment j)) (sort_values rows)) /\
  Permutation (unmatched rows)
              (map pay (filter (fun j => isna (Assignment j)) rows)) /\
  preview (export rows d) = final rows d /\
  List.length (final rows d) = List.length rows /\
  (forall j, In j rows ->
     exists x, In x (final rows d) /\
               x_assignment x = Assignment j /\ x_name x = EmployeeName (pay j) /\
               x_rate x = PayRate (pay j) /\ x_hours x = Hours (pay j)) /\
  ((exists j, In j rows /\ isna (Assignment j) = true) ->
   workbook (export rows d)
   = [("Export", ExportSheet (final rows d));
      ("Unmatched", UnmatchedSheet (unmatched rows))] /\
   warnings (export rows d) = [UNMATCHED_WARNING]) /\
  ((forall j, In j rows -> isna (Assignment j) = false) ->
   workbook (export rows d) = [("Export", ExportSheet (final rows d))] /\
   warnings (export rows d) = []) /\
  (forall str_float payroll_df assign_df m ucla payroll slim,
      payroll_ucla str_float payroll_df (client_col m) = Ok ucla ->
      with_hours str_float ucla (first_col m) (last_col m) (full_name_col m)
        (reg_col m) (ot_col m) (dt_col m) (payrate_col m) = Some (Ok payroll) ->
      assign_df_slim str_float assign_df
        (assign_name_col m) (assign_rate_col m) (assign_no_col m) = Ok slim ->
      existsb (String.eqb (assign_no_col m))
              ["_name"; "_rate"; "Employee Name"; "Pay Rate"; "Hours"]
      = false ->
      run str_float payroll_df assign_df m d
      = Some (Ok (export (joined str_float (summary payroll) slim) d))).
Proof.
  split; [reflexivity|].
  split; [apply unmatched_perm|].
  split; [reflexivity|].
  split; [apply final_length|].
  split; [intros j; apply final_covers|].
  split.
  { intros H. apply unmatched_nonempty, is_empty_false in H.
    unfold export. simpl. rewrite H. now split. }
  split.
  { intros H. assert (E : unmatched rows = []).
    { destruct (unmatched rows) as [|p ps] eqn:E; [reflexivity|exfalso].
      assert (Hne : unmatched rows <> []) by (rewrite E; discriminate).
      apply unmatched_nonempty in Hne as (j & Hj & Hna).
      rewrite (H j Hj) in Hna. discriminate. }
    unfold export. simpl. rewrite E. now split. }
  intros str_float payroll_df assign_df m ucla payroll slim H1 H2 H3 H4.
  unfold run. rewrite H1, H2, H3.
  cbn [existsb] in H4. rewrite !orb_false_r in H4. rewrite !orb_false_iff in H4.
  destruct H4 as (E1 & E2 & E3 & E4 & E5).
  cbn [existsb]. now rewrite E1, E2, E3, E4, E5.
Qed.

Lemma unmatched_spec_witness :
  workbook (export [mkjoined (Text "A100") (mkpay "Jane Doe" (of_Z 20) (dyadic 15 (-1)));
                    mkjoined NA (mkpay "John Roe" (of_Z 25) (of_Z 8))]
                   (mkdate 2024 6 9))
  = [("Export",
      ExportSheet (final [mkjoined (Text "A100") (mkpay "Jane Doe" (of_Z 20) (dyadic 15 (-1)));
                          mkjoined NA (mkpay "John Roe" (of_Z 25) (of_Z 8))]
                         (mkdate 2024 6 9)));
     ("Unmatched",
      UnmatchedSheet (unmatched
                        [mkjoined (Text "A100") (mkpay "Jane Doe" (of_Z 20) (dyadic 15 (-1)));
                         mkjoined NA (mkpay "John Roe" (of_Z 25) (of_Z 8))]))] /\
  warnings (export [mkjoined (Text "A100") (mkpay "Jane Doe" (of_Z 20) (dyadic 15 (-1)));
                    mkjoined NA (mkpay "John Roe" (of_Z 25) (of_Z 8))]
                   (mkdate 2024 6 9))
  = [UNMATCHED_WARNING].
Proof.
  apply (proj1 (proj2 (proj2 (proj2 (proj2 (proj2
           (unmatched_spec
              [mkjoined (Text "A100") (mkpay "Jane Doe" (of_Z 20) (dyadic 15 (-1)));
               mkjoined NA (mkpay "John Roe" (of_Z 25) (of_Z 8))]
              (mkdate 2024 6 9)))))))).
  exists (mkjoined NA (mkpay "John Roe" (of_Z 25) (of_Z 8))).
  split; [simpl; tauto | reflexivity].
Defined.

(** The whole run on a small payroll and roster: the two UCLA rows of Jane
    Doe are summed and matched, John Roe has no roster entry and is
    reported, the UCSB row is filtered out. *)
Example run_on_sample :
  run example_str_float
    (mkdf ["Client Name"; "Employee Name"; "Pay Rate"; "Reg H (e)"; "OT H (e)"; "DT H (e)"]
       [[Text "UCLA Extension"; Text " Jane  Doe"; Text "20"; Text "3"; Text "0"; NA];
        [Text "UCSB"; Text "Bob Poe"; Text "30"; Text "8"; Text "0"; Text "0"];
        [Text "John Wooden Center, ucla"; Text "John Roe"; Num (of_Z 25);
         Text "8"; Text "abc"; NA];
        [Text "ucla health"; Text "Jane Doe "; Text "20.0"; Text "4.5"; NA; NA]])
    (mkdf ["Employee Name"; "Pay Rate"; "Assign No"]
       [[Text "Jane   Doe"; Text "20.00"; Text "A100"];
        [Text "Jane Doe"; Num (of_Z 20); Text "A100"];
        [Text "John Roe"; Text "26"; Text "A200"]])
    (mkmapping "Client Name" "Reg H (e)" "OT H (e)" "DT H (e)" "Pay Rate"
       None None (Some "Employee Name")
       "Employee Name" "Pay Rate" "Assign No")
    (mkdate 2024 6 9)
  = Some (Ok (mkoutput
          [mkexport (Text "A100") "Jane Doe" (of_Z 20) "06/09/2024" "06/09/2024"
                    (dyadic 15 (-1)) "202406090001";
           mkexport NA "John Roe" (of_Z 25) "06/09/2024" "06/09/2024"
                    (of_Z 8) "202406090002"]
          [UNMATCHED_WARNING]
          [("Export",
            ExportSheet
              [mkexport (Text "A100") "Jane Doe" (of_Z 20) "06/09/2024" "06/09/2024"
                        (dyadic 15 (-1)) "202406090001";
               mkexport NA "John Roe" (of_Z 25) "06/09/2024" "06/09/2024"
                        (of_Z 8) "202406090002"]);
           ("Unmatched", UnmatchedSheet [mkpay "John Roe" (of_Z 25) (of_Z 8)])]
          "ucla_assignment_export_20240609.xlsx")).
Proof. vm_compute. reflexivity. Qed.

End ExportFacts.

(* ===================================================================== *)
(** * More about [infer_column] *)
(* ===================================================================== *)

Module InferFacts.
Import PyStr Py Pandas App InferColumn Names.

Lemma dict_set_values (k v : string) d (P : string -> Prop) :
  Forall (fun kv => P (snd kv)) d -> P v ->
  Forall (fun kv => P (snd kv)) (dict_set k v d).
Proof.
  intros Hd Hv. induction d as [|[k' v'] t IH]; simpl.
  - constructor; [exact Hv | constructor].
  - inversion Hd; subst. destruct (String.eqb k' k).
    + constructor; [exact Hv | assumption].
    + constructor; [assumption | apply IH; assumption].
Qed.

Lemma cols_lower_values columns :
  Forall (fun kv => In (snd kv) columns) (cols_lower columns).
Proof.
  unfold cols_lower.
  assert (H : forall cs d,
             Forall (fun kv => In (snd kv) columns) d ->
             (forall c, In c cs -> In c columns) ->
             Forall (fun kv => In (snd kv) columns)
                    (fold_left (fun d c => dict_set (lower c) c d) cs d)).
  { induction cs as [|c cs IH]; intros d Hd Hcs; simpl.
    - exact Hd.
    - apply IH.
      + apply (dict_set_values _ _ _ (fun v => In v columns));
          [exact Hd | apply Hcs; left; reflexivity].
      + intros c' Hc'. apply Hcs. right. exact Hc'. }
  apply H; [constructor | auto].
Qed.

Lemma infer_column_in_columns columns candidates v :
  infer_column columns candidates = Some v -> In v columns.
Proof.
  intro H. apply infer_column_some in H. destruct H as (k & cand & Hin & _).
  pose proof (cols_lower_values columns) as Hv.
  rewrite Forall_forall in Hv. apply (Hv (k, v) Hin).
Qed.

(** X1.  Whatever [infer_column] returns is one of the headers of the
    table, and the lower-cased form of that header contains the lower-cased
    form of one of the candidates; a table without columns, and an empty
    candidate list, give [None]. *)
Theorem infer_column_returns_header :
  (forall columns candidates v,
      infer_column columns candidates = Some v ->
      In v columns /\
      exists cand, In cand candidates /\ contains (lower cand) (lower v) = true) /\
  (forall candidates, infer_column [] candidates = None) /\
  (forall columns, infer_column columns [] = None).
Proof.
  split; [|split].
  - intros columns candidates v H. split.
    + exact (infer_column_in_columns _ _ _ H).
    + apply infer_column_some in H. destruct H as (k & cand & Hin & Hc & Hsub).
      exists cand. split; [exact Hc|].
      pose proof (cols_lower_keys columns) as Hk.
      rewrite Forall_forall in Hk. specialize (Hk (k, v) Hin). simpl in Hk.
      rewrite <- Hk. exact Hsub.
  - induction candidates as [|c cs IH]; simpl; [reflexivity | exact IH].
  - reflexivity.
Qed.

Lemma infer_column_returns_header_witness :
  In "Pay Rate" ["Client"; "Pay Rate"] /\
  exists cand, In cand ["payrate"; "rate"] /\
               contains (lower cand) (lower "Pay Rate") = true.
Proof.
  apply (proj1 infer_column_returns_header ["Client"; "Pay Rate"] ["payrate"; "rate"]).
  reflexivity.
Defined.

(** ** Letter case *)

Lemma dict_set_fst (k v v' : string) d d' :
  map fst d = map fst d' ->
  map fst (dict_set k v d) = map fst (dict_set k v' d').
Proof.
  revert d'. induction d as [|[k1 v1] t IH]; intros [|[k2 v2] t'] H; simpl in *;
    try discriminate; [reflexivity|].
  injection H as Hk Ht. subst k2.
  destruct (String.eqb k1 k); simpl.
  - f_equal. exact Ht.
  - f_equal. apply IH. exact Ht.
Qed.

Lemma cols_lower_fst columns columns' :
  map lower columns = map lower columns' ->
  map fst (cols_lower columns) = map fst (cols_lower columns').
Proof.
  unfold cols_lower.
  assert (H : forall cs cs' d d',
             map lower cs = map lower cs' -> map fst d = map fst d' ->
             map fst (fold_left (fun d c => dict_set (lower c) c d) cs d)
             = map fst (fold_left (fun d c => dict_set (lower c) c d) cs' d')).
  { induction cs as [|c cs IH]; intros [|c' cs'] d d' Hcs Hd; simpl in *;
      try discriminate; [exact Hd|].
    injection Hcs as Hc Hcs. apply IH; [exact Hcs|].
    rewrite Hc. apply dict_set_fst. exact Hd. }
  intro Hl. apply H; [exact Hl | reflexivity].
Qed.

Lemma dict_get_lower k d d' :
  map fst d = map fst d' ->
  Forall (fun kv => fst kv = lower (snd kv)) d ->
  Forall (fun kv => fst kv = lower (snd kv)) d' ->
  option_map lower (dict_get k d) = option_map lower (dict_get k d').
Proof.
  revert d'. induction d as [|[k1 v1] t IH]; intros [|[k2 v2] t'] H Hd Hd';
    simpl in *; try discriminate; [reflexivity|].
  injection H as Hk Ht. subst k2.
  inversion Hd; subst. inversion Hd'; subst. simpl in *.
  destruct (String.eqb k1 k); simpl.
  - congruence.
  - apply IH; assumption.
Qed.

Lemma first_containing_lower cand d d' :
  map fst d = map fst d' ->
  Forall (fun kv => fst kv = lower (snd kv)) d ->
  Forall (fun kv => fst kv = lower (snd kv)) d' ->
  option_map lower (first_containing cand d)
  = option_map lower (first_containing cand d').
Proof.
  unfold first_containing.
  revert d'. induction d as [|[k1 v1] t IH]; intros [|[k2 v2] t'] H Hd Hd';
    simpl in *; try discriminate; [reflexivity|].
  injection H as Hk Ht. subst k2.
  inversion Hd; subst. inversion Hd'; subst. simpl in *.
  destruct (contains (lower cand) k1); simpl.
  - congruence.
  - apply IH; assumption.
Qed.

(** X2.  Letter case never decides the inference: candidate lists that
    agree after lower-casing give the same column, and headers that agree
    after lower-casing give columns that agree after lower-casing. *)
Theorem infer_column_ignores_case :
  (forall columns candidates candidates',
      map lower candidates = map lower candidates' ->
      infer_column columns candidates = infer_column columns candidates') /\
  (forall columns columns' candidates,
      map lower columns = map lower columns' ->
      option_map lower (infer_column columns candidates)
      = option_map lower (infer_column columns' candidates)).
Proof.
  split.
  - intros columns. induction candidates as [|c cs IH]; intros [|c' cs'] H;
      simpl in *; try discriminate; [reflexivity|].
    injection H as Hc Hcs. unfold first_containing. rewrite Hc.
    rewrite (IH cs' Hcs). reflexivity.
  - intros columns columns' candidates H.
    pose proof (cols_lower_fst _ _ H) as Hf.
    pose proof (cols_lower_keys columns) as Hk.
    pose proof (cols_lower_keys columns') as Hk'.
    induction candidates as [|c cs IH]; simpl; [reflexivity|].
    pose proof (dict_get_lower (lower c) _ _ Hf Hk Hk') as Hg.
    pose proof (first_containing_lower c _ _ Hf Hk Hk') as Hc.
    destruct (dict_get (lower c) (cols_lower columns));
      destruct (dict_get (lower c) (cols_lower columns')); simpl in Hg;
      try discriminate; [exact Hg|].
    destruct (first_containing c (cols_lower columns));
      destruct (first_containing c (cols_lower columns')); simpl in Hc;
      try discriminate; [exact Hc | exact IH].
Qed.

Lemma infer_column_ignores_case_witness :
  infer_column ["Client"; "PAY RATE"] ["Pay Rate"; "venue"]
  = infer_column ["Client"; "PAY RATE"] ["pay rate"; "VENUE"]
  /\
  option_map lower (infer_column ["Client"; "PAY RATE"] ["rate"])
  = option_map lower (infer_column ["client"; "Pay Rate"] ["rate"]).
Proof.
  split.
  - apply (proj1 infer_column_ignores_case). reflexivity.
  - apply (proj2 infer_column_ignores_case). reflexivity.
Defined.

(** ** Looking a header up by its own name *)

Lemma dict_get_set_same {V} k (v : V) d : dict_get k (dict_set k v d) = Some v.
Proof.
  induction d as [|[k' v'] t IH]; simpl.
  - rewrite String.eqb_refl. reflexivity.
  - destruct (String.eqb k' k) eqn:E; simpl; rewrite E; [reflexivity | exact IH].
Qed.

Lemma dict_get_set_other {V} k k' (v : V) d :
  k' <> k -> dict_get k (dict_set k' v d) = dict_get k d.
Proof.
  intro Hne. induction d as [|[k1 v1] t IH]; simpl.
  - destruct (String.eqb k' k) eqn:E; [|reflexivity].
    apply String.eqb_eq in E. contradiction.
  - destruct (String.eqb k1 k') eqn:E; simpl.
    + apply String.eqb_eq in E. subst k1.
      destruct (String.eqb k' k) eqn:E'; [|reflexivity].
      apply String.eqb_eq in E'. contradiction.
    + destruct (String.eqb k1 k); [reflexivity | exact IH].
Qed.

Lemma cols_lower_app a b :
  cols_lower (a ++ b) = fold_left (fun d c => dict_set (lower c) c d) b (cols_lower a).
Proof. unfold cols_lower. apply fold_left_app. Qed.

Lemma fold_set_other k cs :
  forall d, (forall x, In x cs -> lower x <> k) ->
            dict_get k (fold_left (fun d c => dict_set (lower c) c d) cs d)
            = dict_get k d.
Proof.
  induction cs as [|c cs IH]; intros d H; simpl; [reflexivity|].
  rewrite IH.
  - apply dict_get_set_other. apply H. left. reflexivity.
  - intros x Hx. apply H. right. exact Hx.
Qed.

(** X3.  An exact match finds the last header with the candidate's
    lower-case form: when [v] is a header, [c] equals it up to letter case
    and no header after [v] does, a candidate list that starts with [c]
    gives [v].  In particular asking for a header by its own name returns
    it when no later header differs from it in letter case only. *)
Theorem infer_column_exact_last pre v post c rest :
  lower c = lower v ->
  (forall x, In x post -> lower x <> lower v) ->
  infer_column (pre ++ v :: post) (c :: rest) = Some v.
Proof.
  intros Hc Hpost. simpl. rewrite Hc.
  replace (pre ++ v :: post) with ((pre ++ [v]) ++ post)
    by (rewrite <- app_assoc; reflexivity).
  rewrite cols_lower_app, fold_set_other by exact Hpost.
  rewrite cols_lower_app. simpl. rewrite dict_get_set_same. reflexivity.
Qed.

Lemma infer_column_exact_last_witness :
  infer_column (["Name"] ++ "NAME" :: ["Client"]) ("name" :: ["employee"])
  = Some "NAME".
Proof.
  apply infer_column_exact_last.
  - reflexivity.
  - simpl. intros x [H|[]]. subst x. discriminate.
Defined.

(** ** Candidates that can never decide *)

Lemma prefix_app_iff a s : String.prefix a s = true <-> exists q, s = (a ++ q)%string.
Proof.
  revert s. induction a as [|c a IH]; intros s.
  - split; [intros _; exists s; reflexivity | destruct s; reflexivity].
  - destruct s as [|d s]; simpl.
    + split; [discriminate | intros [q Hq]; discriminate].
    + destruct (ascii_dec c d) as [->|Hne].
      * rewrite IH. split; intros [q Hq]; exists q; [rewrite Hq; reflexivity|].
        injection Hq as Hq. exact Hq.
      * split; [discriminate|]. intros [q Hq]. injection Hq as Hd _. congruence.
Qed.

Lemma contains_iff a s :
  contains a s = true <-> exists p q, s = (p ++ a ++ q)%string.
Proof.
  induction s as [|d s IH]; cbn [contains].
  - rewrite orb_false_r, prefix_app_iff. split.
    + intros [q Hq]. exists EmptyString, q. exact Hq.
    + intros (p & q & H). destruct p as [|x p]; [|discriminate]. exists q. exact H.
  - rewrite orb_true_iff, IH, prefix_app_iff. split.
    + intros [[q Hq]|(p & q & H)].
      * exists EmptyString, q. exact Hq.
      * exists (String d p), q. simpl. rewrite H. reflexivity.
    + intros (p & q & H). destruct p as [|x p].
      * left. exists q. exact H.
      * right. simpl in H. injection H as _ H. exists p, q. exact H.
Qed.

Lemma append_assoc a b c : ((a ++ b) ++ c = a ++ (b ++ c))%string.
Proof. induction a as [|x a IH]; simpl; [reflexivity | rewrite IH; reflexivity]. Qed.

Lemma contains_trans a b c :
  contains a b = true -> contains b c = true -> contains a c = true.
Proof.
  rewrite !contains_iff. intros (p & q & Hb) (p' & q' & Hc).
  exists (p' ++ p)%string, (q ++ q')%string. subst b c.
  rewrite !append_assoc. reflexivity.
Qed.

Lemma candidate_matches_weaker c1 c2 d :
  contains (lower c1) (lower c2) = true ->
  candidate_matches c2 d = true -> candidate_matches c1 d = true.
Proof.
  unfold candidate_matches. intros Hsub H.
  apply existsb_exists in H. destruct H as (kv & Hin & Hkv).
  apply existsb_exists. exists kv. split; [exact Hin|].
  exact (contains_trans _ _ _ Hsub Hkv).
Qed.

Lemma infer_column_app columns l r :
  infer_column columns (l ++ r)
  = match infer_column columns l with
    | Some v => Some v
    | None => infer_column columns r
    end.
Proof.
  induction l as [|c l IH]; simpl; [reflexivity|].
  destruct (dict_get (lower c) (cols_lower columns)); [reflexivity|].
  destruct (first_containing c (cols_lower columns)); [reflexivity | exact IH].
Qed.

Lemma infer_column_drop_later columns pre c1 mid c2 post :
  contains (lower c1) (lower c2) = true ->
  infer_column columns (pre ++ c1 :: mid ++ c2 :: post)
  = infer_column columns (pre ++ c1 :: mid ++ post).
Proof.
  intro Hsub.
  replace (pre ++ c1 :: mid ++ c2 :: post) with ((pre ++ [c1]) ++ mid ++ [c2] ++ post)
    by (rewrite <- app_assoc; reflexivity).
  replace (pre ++ c1 :: mid ++ post) with ((pre ++ [c1]) ++ mid ++ post)
    by (rewrite <- app_assoc; reflexivity).
  rewrite (infer_column_app columns (pre ++ [c1]) (mid ++ [c2] ++ post)).
  rewrite (infer_column_app columns (pre ++ [c1]) (mid ++ post)).
  destruct (infer_column columns (pre ++ [c1])) eqn:E; [reflexivity|].
  rewrite infer_column_none in E.
  assert (H1 : candidate_matches c1 (cols_lower columns) = false).
  { apply E. apply in_or_app. right. left. reflexivity. }
  assert (H2 : candidate_matches c2 (cols_lower columns) = false).
  { destruct (candidate_matches c2 (cols_lower columns)) eqn:E2; [|reflexivity].
    rewrite (candidate_matches_weaker c1 c2 _ Hsub E2) in H1. discriminate. }
  rewrite (infer_column_app columns mid ([c2] ++ post)).
  rewrite (infer_column_app columns mid post).
  destruct (infer_column columns mid); [reflexivity|].
  apply (infer_column_skip columns [c2] post).
  intros c [Hc|[]]. subst c. exact H2.
Qed.

(** X4.  A candidate whose lower-case form contains the lower-case form of
    an earlier candidate never decides the inference: leaving it out
    changes no result.  Of the candidate lists of the script this removes
    ["client name"], ["reg hours"], ["ot hours"], ["dt hours"], ["payrate"],
    ["pay_rate"], ["emp first name"], ["emp last name"], ["emp name"],
    ["firstname lastname"] and ["assignment number"], on every table. *)
Theorem infer_column_later_superstring_is_dead :
  (forall columns pre c1 mid c2 post,
      contains (lower c1) (lower c2) = true ->
      infer_column columns (pre ++ c1 :: mid ++ c2 :: post)
      = infer_column columns (pre ++ c1 :: mid ++ post)) /\
  (forall columns,
      infer_column columns ["client"; "client name"; "venue"; "customer"]
      = infer_column columns ["client"; "venue"; "customer"] /\
      infer_column columns ["Reg H (e)"; "Reg H"; "reg hours"; "regular hours"]
      = infer_column columns ["Reg H (e)"; "Reg H"; "regular hours"] /\
      infer_column columns ["OT H (e)"; "OT H"; "ot hours"; "overtime hours"]
      = infer_column columns ["OT H (e)"; "OT H"; "overtime hours"] /\
      infer_column columns ["DT H (e)"; "DT H"; "doubletime hours"; "dt hours"]
      = infer_column columns ["DT H (e)"; "DT H"; "doubletime hours"] /\
      infer_column columns ["pay rate"; "rate"; "payrate"; "pay_rate"]
      = infer_column columns ["pay rate"; "rate"] /\
      infer_column columns ["first name"; "firstname"; "emp first name"]
      = infer_column columns ["first name"; "firstname"] /\
      infer_column columns ["last name"; "lastname"; "emp last name"]
      = infer_column columns ["last name"; "lastname"] /\
      infer_column columns ["employee name"; "name"; "emp name"]
      = infer_column columns ["employee name"; "name"] /\
      infer_column columns ["employee name"; "name"; "firstname lastname"; "employee"]
      = infer_column columns ["employee name"; "name"; "employee"] /\
      infer_column columns ["pay rate"; "rate"; "payrate"]
      = infer_column columns ["pay rate"; "rate"] /\
      infer_column columns
        ["assign no"; "assignment #"; "assignment"; "assign #"; "assignment number"]
      = infer_column columns ["assign no"; "assignment #"; "assignment"; "assign #"]).
Proof.
  split; [exact infer_column_drop_later|].
  intro columns. repeat split.
  - apply (infer_column_drop_later columns [] "client" [] "client name"). reflexivity.
  - apply (infer_column_drop_later columns ["Reg H (e)"] "Reg H" [] "reg hours").
    reflexivity.
  - apply (infer_column_drop_later columns ["OT H (e)"] "OT H" [] "ot hours").
    reflexivity.
  - apply (infer_column_drop_later columns ["DT H (e)"] "DT H" ["doubletime hours"]
             "dt hours" []). reflexivity.
  - transitivity (infer_column columns ["pay rate"; "rate"; "payrate"]).
    + apply (infer_column_drop_later columns ["pay rate"] "rate" ["payrate"]
               "pay_rate" []). reflexivity.
    + apply (infer_column_drop_later columns ["pay rate"] "rate" [] "payrate" []).
      reflexivity.
  - apply (infer_column_drop_later columns [] "first name" ["firstname"]
             "emp first name" []). reflexivity.
  - apply (infer_column_drop_later columns [] "last name" ["lastname"]
             "emp last name" []). reflexivity.
  - apply (infer_column_drop_later columns ["employee name"] "name" [] "emp name" []).
    reflexivity.
  - apply (infer_column_drop_later columns ["employee name"] "name" []
             "firstname lastname" ["employee"]). reflexivity.
  - apply (infer_column_drop_later columns ["pay rate"] "rate" [] "payrate" []).
    reflexivity.
  - apply (infer_column_drop_later columns ["assign no"; "assignment #"] "assignment"
             ["assign #"] "assignment number" []). reflexivity.
Qed.

Lemma infer_column_later_superstring_is_dead_witness :
  infer_column ["Client ID"; "Client Name"] (["venue"] ++ "client" :: [] ++ "client name" :: [])
  = infer_column ["Client ID"; "Client Name"] (["venue"] ++ "client" :: [] ++ []).
Proof.
  apply (proj1 infer_column_later_superstring_is_dead). reflexivity.
Defined.

End InferFacts.

(* ===================================================================== *)
(** * Reading the uploads *)
(* ===================================================================== *)

Module ReaderFacts.
Import PyStr PyFloat Py Pandas App Reader StrFacts.

Lemma lstrip_head s :
  lstrip s = EmptyString \/ exists c r, lstrip s = String c r /\ is_space c = false.
Proof.
  induction s as [|c t IH]; simpl; [left; reflexivity|].
  destruct (is_space c) eqn:E; [exact IH|].
  right. exists c, t. split; [reflexivity | exact E].
Qed.

Lemma rstrip_idem s : rstrip (rstrip s) = rstrip s.
Proof.
  induction s as [|c t IH]; [reflexivity|].
  cbn [rstrip]. destruct (rstrip t) as [|d r] eqn:E.
  - destruct (is_space c) eqn:Ec; [reflexivity|].
    simpl. rewrite Ec. reflexivity.
  - cbn [rstrip]. cbn [rstrip] in IH.
    destruct (rstrip r) as [|d' r'] eqn:Er.
    + destruct (is_space d) eqn:Ed; [discriminate|]. congruence.
    + rewrite IH. reflexivity.
Qed.

Lemma lstrip_strip s : lstrip (strip s) = strip s.
Proof.
  unfold strip. destruct (lstrip_head s) as [->|(c & r & -> & Hc)]; [reflexivity|].
  rewrite (rstrip_cons_nonspace c r Hc). apply lstrip_cons_nonspace. exact Hc.
Qed.

Lemma rstrip_strip s : rstrip (strip s) = strip s.
Proof. unfold strip. apply rstrip_idem. Qed.

Lemma strip_idem s : strip (strip s) = strip s.
Proof. unfold strip at 1. rewrite lstrip_strip. apply rstrip_strip. Qed.

Lemma lower_app a b : lower (a ++ b) = (lower a ++ lower b)%string.
Proof. induction a as [|c a IH]; simpl; [reflexivity | rewrite IH; reflexivity]. Qed.

Lemma endswith_app p suffix : endswith suffix (p ++ suffix) = true.
Proof.
  induction p as [|c p IH]; simpl.
  - destruct suffix; simpl; rewrite ?String.eqb_refl, ?Ascii.eqb_refl; reflexivity.
  - rewrite IH. apply orb_true_r.
Qed.

Section Readers.
Variable str_float : float -> string.
Variable read_csv : string -> nat -> result RawTable.
Variable read_excel_openpyxl : string -> nat -> result RawTable.
Variable read_excel : string -> nat -> result RawTable.

Lemma normalize_headers_stripped labels :
  Forall (fun h => lstrip h = h /\ rstrip h = h) (normalize_headers str_float labels).
Proof.
  unfold normalize_headers. apply Forall_forall. intros h Hh.
  apply in_map_iff in Hh. destruct Hh as (c & <- & _).
  split; [apply lstrip_strip | apply rstrip_strip].
Qed.

Lemma normalize_headers_idem labels :
  normalize_headers str_float (map Text (normalize_headers str_float labels))
  = normalize_headers str_float labels.
Proof.
  unfold normalize_headers. rewrite !map_map. apply map_ext.
  intro c. simpl. apply strip_idem.
Qed.

Lemma read_any_table_inv file df :
  read_any_table str_float read_csv read_excel_openpyxl read_excel file = Ok df ->
  exists raw,
    df = mkdf (normalize_headers str_float (labels raw)) (body raw) /\
    (if endswith ".csv" (lower (name file))
     then read_csv (data file) (position file) = Ok raw
     else read_excel_openpyxl (data file) (position file) = Ok raw
          \/ ((exists e, read_excel_openpyxl (data file) (position file) = Raise e)
              /\ read_excel (data file) 0 = Ok raw)).
Proof.
  intro H. unfold read_any_table in H.
  destruct (endswith ".csv" (lower (name file))).
  - destruct (read_csv (data file) (position file)) as [raw|e]; simpl in H;
      [|discriminate].
    injection H as <-. exists raw. split; reflexivity.
  - destruct (read_excel_openpyxl (data file) (position file)) as [raw|e] eqn:E1.
    + simpl in H. injection H as <-. exists raw. split; [reflexivity|].
      left. reflexivity.
    + destruct (read_excel (data file) 0) as [raw|e'] eqn:E2; simpl in H;
        [|discriminate].
      injection H as <-. exists raw. split; [reflexivity|].
      right. split; [exists e; reflexivity | reflexivity].
Qed.

(** X5.  A table that [read_any_table] returns has headers without
    leading or trailing whitespace, as many as the reader produced, and
    normalising them again changes nothing; its rows are the reader's.
    The reader is [read_csv] alone when the file name ends in [.csv] in
    any letter case; otherwise it is the openpyxl reader, and when that one
    raises, the default reader started from the beginning of the file,
    whose error, if any, is the one passed on. *)
Theorem read_any_table_spec :
  (forall file df,
      read_any_table str_float read_csv read_excel_openpyxl read_excel file = Ok df ->
      Forall (fun h => lstrip h = h /\ rstrip h = h) (columns df) /\
      normalize_headers str_float (map Text (columns df)) = columns df /\
      exists raw,
        columns df = normalize_headers str_float (labels raw) /\
        List.length (columns df) = List.length (labels raw) /\
        rows df = body raw /\
        (if endswith ".csv" (lower (name file))
         then read_csv (data file) (position file) = Ok raw
         else read_excel_openpyxl (data file) (position file) = Ok raw
              \/ ((exists e, read_excel_openpyxl (data file) (position file) = Raise e)
                  /\ read_excel (data file) 0 = Ok raw))) /\
  (forall stem ext bytes pos,
      lower ext = ".csv" ->
      read_any_table str_float read_csv read_excel_openpyxl read_excel
        (mkfile (stem ++ ext) bytes pos)
      = (raw <- read_csv bytes pos ;;
         Ok (mkdf (normalize_headers str_float (labels raw)) (body raw)))) /\
  (forall file e1 e2,
      endswith ".csv" (lower (name file)) = false ->
      read_excel_openpyxl (data file) (position file) = Raise e1 ->
      read_excel (data file) 0 = Raise e2 ->
      read_any_table str_float read_csv read_excel_openpyxl read_excel file = Raise e2).
Proof.
  split; [|split].
  - intros file df H. apply read_any_table_inv in H.
    destruct H as (raw & -> & Hwhich). simpl.
    split; [apply normalize_headers_stripped|].
    split; [apply normalize_headers_idem|].
    exists raw. split; [reflexivity|]. split; [|split; [reflexivity | exact Hwhich]].
    unfold normalize_headers. apply length_map.
  - intros stem ext bytes pos Hext. unfold read_any_table. simpl.
    rewrite lower_app, Hext, endswith_app. reflexivity.
  - intros file e1 e2 Hcsv H1 H2. unfold read_any_table.
    rewrite Hcsv, H1, H2. reflexivity.
Qed.

(** X6.  The page reaches the two tables only with both files uploaded and
    both read; then the headers of both tables are free of surrounding
    whitespace.  With a file missing nothing is read, and when the payroll
    file cannot be read its error is the one shown, whatever the roster
    file holds. *)
Theorem load_spec :
  (forall payroll_file assign_file payroll_df assign_df,
      load str_float read_csv read_excel_openpyxl read_excel payroll_file assign_file
      = Tables payroll_df assign_df ->
      (exists p a,
          payroll_file = Some p /\ assign_file = Some a /\
          read_any_table str_float read_csv read_excel_openpyxl read_excel p
          = Ok payroll_df /\
          read_any_table str_float read_csv read_excel_openpyxl read_excel a
          = Ok assign_df) /\
      Forall (fun h => strip h = h) (columns payroll_df) /\
      Forall (fun h => strip h = h) (columns assign_df)) /\
  (forall payroll_file assign_file,
      payroll_file = None \/ assign_file = None ->
      load str_float read_csv read_excel_openpyxl read_excel payroll_file assign_file
      = Notice "Upload both files to continue.") /\
  (forall p a e,
      read_any_table str_float read_csv read_excel_openpyxl read_excel p = Raise e ->
      load str_float read_csv read_excel_openpyxl read_excel (Some p) (Some a)
      = Failure ("Failed to read one of the files: " ++ exn_str e)).
Proof.
  split; [|split].
  - intros pf af pdf adf H. unfold load in H.
    destruct pf as [p|]; [|discriminate]. destruct af as [a|]; [|discriminate].
    destruct (read_any_table str_float read_csv read_excel_openpyxl read_excel p)
      as [t1|e1] eqn:E1; simpl in H; [|discriminate].
    destruct (read_any_table str_float read_csv read_excel_openpyxl read_excel a)
      as [t2|e2] eqn:E2; simpl in H; [|discriminate].
    injection H as <- <-.
    split; [exists p, a; repeat split; assumption|].
    apply read_any_table_inv in E1. destruct E1 as (r1 & -> & _).
    apply read_any_table_inv in E2. destruct E2 as (r2 & -> & _).
    split; simpl;
      (eapply Forall_impl; [|apply normalize_headers_stripped]);
      intros h [Hl Hr]; unfold strip; rewrite Hl; exact Hr.
  - intros pf af [-> | ->]; [reflexivity|]. destruct pf; reflexivity.
  - intros p a e H. unfold load. rewrite H. reflexivity.
Qed.
End Readers.

Lemma read_any_table_spec_witness :
  read_any_table example_str_float
    (fun _ _ => Ok (mkraw [Text " Client "; Int 7] [[Text "UCLA"; Int 1]]))
    (fun _ _ => Raise (ValueError "not a workbook"))
    (fun _ _ => Raise (ValueError "not a workbook"))
    (mkfile ("payroll" ++ ".CSV") "bytes" 0)
  = (raw <- Ok (mkraw [Text " Client "; Int 7] [[Text "UCLA"; Int 1]]) ;;
     Ok (mkdf (normalize_headers example_str_float (labels raw)) (body raw))).
Proof.
  apply (proj1 (proj2 (read_any_table_spec example_str_float
                         (fun _ _ => Ok (mkraw [Text " Client "; Int 7]
                                                [[Text "UCLA"; Int 1]]))
                         (fun _ _ => Raise (ValueError "not a workbook"))
                         (fun _ _ => Raise (ValueError "not a workbook"))))).
  reflexivity.
Defined.

Lemma load_spec_witness :
  load example_str_float
    (fun _ _ => Raise (ValueError "no csv"))
    (fun _ _ => Raise (ValueError "not a workbook"))
    (fun _ _ => Raise (ValueError "not a workbook"))
    (Some (mkfile "payroll.xlsx" "bytes" 0)) None
  = Notice "Upload both files to continue.".
Proof.
  apply (proj1 (proj2 (load_spec example_str_float
                         (fun _ _ => Raise (ValueError "no csv"))
                         (fun _ _ => Raise (ValueError "not a workbook"))
                         (fun _ _ => Raise (ValueError "not a workbook"))))).
  right. reflexivity.
Defined.

End ReaderFacts.

(* ===================================================================== *)
(** * The sidebar *)
(* ===================================================================== *)

Module SidebarFacts.
Import PyStr PyFloat Py PyDate Pandas App Sidebar InferFacts Names Coercion.

Lemma index_of_nth name cols :
  forall i, index_of name cols = Some i -> nth_error cols i = Some name.
Proof.
  induction cols as [|c t IH]; intros i H; simpl in H; [discriminate|].
  destruct (String.eqb c name) eqn:E.
  - injection H as <-. apply String.eqb_eq in E. subst c. reflexivity.
  - destruct (index_of name t) as [j|]; [|discriminate].
    injection H as <-. simpl. apply IH. reflexivity.
Qed.

Lemma index_of_in name cols : In name cols -> exists i, index_of name cols = Some i.
Proof.
  induction cols as [|c t IH]; intros H; [destruct H|]. simpl.
  destruct (String.eqb c name) eqn:E; [exists O; reflexivity|].
  destruct H as [H|H]; [subst c; rewrite String.eqb_refl in E; discriminate|].
  destruct (IH H) as [i ->]. exists (S i). reflexivity.
Qed.

Lemma in_columns_eqb name cols : existsb (String.eqb name) cols = true <-> In name cols.
Proof.
  rewrite existsb_exists. split.
  - intros (x & Hx & E). apply String.eqb_eq in E. subst x. exact Hx.
  - intro H. exists name. split; [exact H | apply String.eqb_refl].
Qed.

Lemma choose_untouched columns candidates :
  choose columns candidates None
  = match infer_column columns candidates with
    | Some v => Some v
    | None => hd_error columns
    end.
Proof.
  unfold choose, selectbox, default_index.
  destruct (infer_column columns candidates) as [v|] eqn:E.
  - pose proof (infer_column_in_columns _ _ _ E) as Hin.
    rewrite (proj2 (in_columns_eqb v columns) Hin).
    destruct (index_of_in _ _ Hin) as [i Hi]. rewrite Hi.
    apply index_of_nth. exact Hi.
  - destruct columns; reflexivity.
Qed.

Lemma choose_in columns candidates pick c :
  choose columns candidates pick = Some c -> In c columns.
Proof.
  unfold choose, selectbox. destruct pick; apply nth_error_In.
Qed.

Lemma choose_some columns candidates :
  columns <> [] -> exists c, choose columns candidates None = Some c.
Proof.
  intro Hne. rewrite choose_untouched.
  destruct (infer_column columns candidates) as [v|]; [exists v; reflexivity|].
  destruct columns as [|c t]; [contradiction|]. exists c. reflexivity.
Qed.

(** X7.  A selectbox of the sidebar that the operator leaves alone holds
    the inferred column, and the first column of the table when nothing
    was inferred; whatever is picked, the column that comes out is a header
    of the table, and a table with at least one column always yields
    one. *)
Theorem choose_spec :
  (forall columns candidates,
      choose columns candidates None
      = match infer_column columns candidates with
        | Some v => Some v
        | None => hd_error columns
        end) /\
  (forall columns candidates pick c,
      choose columns candidates pick = Some c -> In c columns) /\
  (forall columns candidates,
      columns <> [] -> exists c, choose columns candidates None = Some c) /\
  (forall columns candidates i,
      (i < List.length columns)%nat ->
      choose columns candidates (Some i) = nth_error columns i /\
      exists c, choose columns candidates (Some i) = Some c).
Proof.
  split; [exact choose_untouched|]. split; [exact choose_in|]. split.
  - exact choose_some.
  - intros columns candidates i Hi. split; [reflexivity|].
    unfold choose, selectbox.
    destruct (nth_error columns i) as [c|] eqn:E; [exists c; reflexivity|].
    apply nth_error_None in E. lia.
Qed.

Lemma choose_spec_witness :
  In "Rate" ["Client"; "Rate"].
Proof.
  apply (proj1 (proj2 choose_spec) ["Client"; "Rate"] ["pay rate"; "rate"] None).
  reflexivity.
Defined.

Ltac bind_some H :=
  repeat match type of H with
         | option_bind ?o _ = Some _ =>
             let c := fresh "c" in
             let E := fresh "E" in
             destruct o as [c|] eqn:E; cbn [option_bind] in H; [|discriminate H]
         end.

Lemma mapping_inv payroll_columns assign_columns picks m :
  mapping payroll_columns assign_columns picks = Some m ->
  In (client_col m) payroll_columns /\ In (reg_col m) payroll_columns /\
  In (ot_col m) payroll_columns /\ In (dt_col m) payroll_columns /\
  In (payrate_col m) payroll_columns /\
  In (assign_name_col m) assign_columns /\ In (assign_rate_col m) assign_columns /\
  In (assign_no_col m) assign_columns /\
  ((exists c, In c payroll_columns /\ full_name_col m = Some c /\
              first_col m = None /\ last_col m = None) \/
   (exists a b, In a payroll_columns /\ In b payroll_columns /\
                full_name_col m = None /\
                first_col m = Some a /\ last_col m = Some b)).
Proof.
  unfold mapping. intro H. bind_some H.
  destruct c4 as [[fc lc] full]. bind_some H. injection H as <-. simpl.
  repeat match goal with
         | E : choose _ _ _ = Some _ |- _ => apply choose_in in E
         end.
  repeat (split; [assumption|]).
  destruct (radio _ _).
  - destruct (choose _ _ (pick_full picks)) as [x|] eqn:Ex;
      cbn [option_bind] in E4; [|discriminate].
    injection E4 as H1 H2 H3. subst. left. exists x.
    apply choose_in in Ex. repeat split; assumption.
  - destruct (choose _ _ (pick_first picks)) as [x|] eqn:Ex;
      cbn [option_bind] in E4; [|discriminate].
    destruct (choose _ _ (pick_last picks)) as [y|] eqn:Ey;
      cbn [option_bind] in E4; [|discriminate].
    injection E4 as H1 H2 H3. subst. right. exists x, y.
    apply choose_in in Ex. apply choose_in in Ey. repeat split; assumption.
Qed.

Lemma full_name_truthy columns :
  truthy (infer_column columns ["employee name"; "name"; "emp name"])
  = match infer_column columns ["employee name"; "name"; "emp name"] with
    | Some _ => true
    | None => false
    end.
Proof.
  pose proof (infer_column_drop_later columns ["employee name"] "name" [] "emp name" []
                eq_refl) as H.
  cbn [app] in H. rewrite H. apply guessed_truthy.
Qed.

(** X8.  Every column of a mapping that comes out of the sidebar is a
    header of the table it belongs to, and exactly one name source is set:
    the full-name column alone, or the first-name and last-name columns.
    With both tables non-empty and the sidebar left alone there is a
    mapping, and its name source is the full-name column exactly when the
    inference found one. *)
Theorem mapping_spec :
  (forall payroll_columns assign_columns picks m,
      mapping payroll_columns assign_columns picks = Some m ->
      In (client_col m) payroll_columns /\ In (reg_col m) payroll_columns /\
      In (ot_col m) payroll_columns /\ In (dt_col m) payroll_columns /\
      In (payrate_col m) payroll_columns /\
      In (assign_name_col m) assign_columns /\ In (assign_rate_col m) assign_columns /\
      In (assign_no_col m) assign_columns /\
      ((exists c, In c payroll_columns /\ full_name_col m = Some c /\
                  first_col m = None /\ last_col m = None) \/
       (exists a b, In a payroll_columns /\ In b payroll_columns /\
                    full_name_col m = None /\
                    first_col m = Some a /\ last_col m = Some b))) /\
  (forall payroll_columns assign_columns,
      payroll_columns <> [] -> assign_columns <> [] ->
      exists m,
        mapping payroll_columns assign_columns untouched = Some m /\
        match infer_column payroll_columns ["employee name"; "name"; "emp name"] with
        | Some v =>
            full_name_col m = Some v /\ first_col m = None /\ last_col m = None
        | None =>
            full_name_col m = None /\ first_col m <> None /\ last_col m <> None
        end).
Proof.
  split; [exact mapping_inv|].
  intros pc ac Hp Ha. unfold mapping. cbn [untouched pick_client pick_reg pick_ot pick_dt
    pick_payrate pick_mode pick_full pick_first pick_last pick_assign_name
    pick_assign_rate pick_assign_no].
  destruct (choose_some pc ["client"; "client name"; "venue"; "customer"] Hp) as [x1 ->].
  destruct (choose_some pc ["Reg H (e)"; "Reg H"; "reg hours"; "regular hours"] Hp)
    as [x2 ->].
  destruct (choose_some pc ["OT H (e)"; "OT H"; "ot hours"; "overtime hours"] Hp)
    as [x3 ->].
  destruct (choose_some pc ["DT H (e)"; "DT H"; "doubletime hours"; "dt hours"] Hp)
    as [x4 ->].
  destruct (choose_some pc ["pay rate"; "rate"; "payrate"; "pay_rate"] Hp) as [x5 ->].
  destruct (choose_some ac ["employee name"; "name"; "firstname lastname"; "employee"] Ha)
    as [y1 ->].
  destruct (choose_some ac ["pay rate"; "rate"; "payrate"] Ha) as [y2 ->].
  destruct (choose_some ac ["assign no"; "assignment #"; "assignment"; "assign #";
                            "assignment number"] Ha) as [y3 ->].
  cbn [option_bind]. rewrite full_name_truthy.
  destruct (infer_column pc ["employee name"; "name"; "emp name"]) as [v|] eqn:Ev;
    cbn [radio].
  - rewrite choose_untouched, Ev. cbn [option_bind].
    eexists. split; [reflexivity|]. simpl. repeat split.
  - destruct (choose_some pc ["first name"; "firstname"; "emp first name"] Hp) as [a ->].
    destruct (choose_some pc ["last name"; "lastname"; "emp last name"] Hp) as [b ->].
    cbn [option_bind].
    eexists. split; [reflexivity|]. simpl. repeat split; discriminate.
Qed.

Lemma mapping_spec_witness :
  exists m,
    mapping ["Client"; "Employee"] ["Person"; "Assign No"] untouched = Some m /\
    match infer_column ["Client"; "Employee"] ["employee name"; "name"; "emp name"] with
    | Some v =>
        full_name_col m = Some v /\ first_col m = None /\ last_col m = None
    | None =>
        full_name_col m = None /\ first_col m <> None /\ last_col m <> None
    end.
Proof.
  apply (proj2 mapping_spec ["Client"; "Employee"] ["Person"; "Assign No"]);
    discriminate.
Defined.


Section WithStr.
Variable str_float : float -> string.



Lemma truthy_nonempty c : c <> EmptyString -> truthy (Some c) = true.
Proof.
  intro H. simpl. destruct (String.eqb_spec c EmptyString); [contradiction|reflexivity].
Qed.




End WithStr.


End SidebarFacts.

(* ===================================================================== *)
(** * More about names *)
(* ===================================================================== *)

Module NameFacts.
Import PyStr PyFloat Py Pandas App StrFacts Names ReaderFacts SidebarFacts.

Lemma split_lstrip s : split (lstrip s) = split s.
Proof.
  induction s as [|c t IH]; [reflexivity|].
  cbn [lstrip]. destruct (is_space c) eqn:E; [|reflexivity].
  rewrite IH. simpl. rewrite E. reflexivity.
Qed.

Lemma split_space_cons c t : is_space c = true -> split (String c t) = split t.
Proof. intro E. simpl. rewrite E. reflexivity. Qed.

Lemma rstrip_head d t e r : rstrip (String d t) = String e r -> e = d.
Proof.
  cbn [rstrip]. destruct (rstrip t).
  - destruct (is_space d); [discriminate|]. intro H. injection H as H _. auto.
  - intro H. injection H as H _. auto.
Qed.

Lemma rstrip_empty_space d t : rstrip (String d t) = EmptyString -> is_space d = true.
Proof.
  cbn [rstrip]. destruct (rstrip t); [|discriminate].
  destruct (is_space d); [reflexivity | discriminate].
Qed.

Lemma split_rstrip s : split (rstrip s) = split s.
Proof.
  induction s as [|c t IH]; [reflexivity|].
  destruct (is_space c) eqn:Ec.
  - rewrite (split_space_cons c t Ec), (rstrip_cons_space c t Ec), <- IH.
    destruct (rstrip t); [reflexivity|]. apply split_space_cons. exact Ec.
  - rewrite (rstrip_cons_nonspace c t Ec).
    destruct t as [|d t']; [reflexivity|].
    destruct (rstrip (String d t')) as [|e r] eqn:Er.
    + pose proof (rstrip_empty_space _ _ Er) as Ed.
      rewrite split_cons2, Ec, Ed, <- IH. simpl. rewrite Ec. reflexivity.
    + pose proof (rstrip_head _ _ _ _ Er) as ->.
      rewrite !split_cons2, Ec, <- IH. reflexivity.
Qed.

Lemma split_strip s : split (strip s) = split s.
Proof. unfold strip. rewrite split_rstrip. apply split_lstrip. Qed.

Lemma split_app_space a b :
  split (a ++ String " "%char b) = split a ++ split b.
Proof.
  induction a as [|c t IH]; [reflexivity|].
  destruct t as [|d t'].
  - change ((String c EmptyString ++ String " "%char b)%string)
      with (String c (String " "%char b)).
    rewrite split_cons2. simpl. destruct (is_space c); reflexivity.
  - change ((String c (String d t') ++ String " "%char b)%string)
      with (String c (String d (t' ++ String " "%char b))).
    change ((String d t' ++ String " "%char b)%string)
      with (String d (t' ++ String " "%char b)) in IH.
    rewrite !split_cons2, IH.
    destruct (is_space c); [reflexivity|].
    destruct (is_space d) eqn:Ed; [reflexivity|].
    pose proof (split_cons_nonspace d t' Ed) as Hne.
    destruct (split (String d t')) as [|w ws]; [contradiction | reflexivity].
Qed.

Lemma canonical_first_last x y :
  canonical_spacing (strip x ++ " " ++ strip y)
  = String.concat " " (split x ++ split y).
Proof.
  rewrite canonical_spacing_split.
  change ((strip x ++ " " ++ strip y)%string)
    with ((strip x ++ String " "%char (strip y))%string).
  rewrite split_app_space, !split_strip. reflexivity.
Qed.

Lemma split_canonical s : split (canonical_spacing s) = split s.
Proof. rewrite canonical_spacing_split. apply split_concat. apply split_words. Qed.

(** X10.  Two strings get the same canonical spacing exactly when they
    consist of the same words in the same order; the words themselves are
    left as they are, letter case included, so names that differ in case
    stay different.  Words are what whitespace separates, and whitespace
    is the tab, the line feed, the vertical tab, the form feed, the
    carriage return, the four separators 28 to 31, the space, the next
    line character 133 and the no-break space 160: a no-break space
    between two names counts like a space. *)
Theorem canonical_spacing_same_words :
  (forall a b, canonical_spacing a = canonical_spacing b <-> split a = split b) /\
  (forall s, split (canonical_spacing s) = split s) /\
  (forall s, canonical_spacing s = String.concat " " (split s)) /\
  (forall c,
      is_space c
      = existsb (Nat.eqb (nat_of_ascii c)) [9; 10; 11; 12; 13; 28; 29; 30; 31; 32; 133; 160]) /\
  (forall s, Forall (fun w => w <> EmptyString /\ no_space w = true) (split s)) /\
  split (String "009"%char ("Jane" ++ String "160"%char ("Doe" ++ String "028"%char " x")))
  = ["Jane"; "Doe"; "x"] /\
  canonical_spacing ("Jane" ++ String "160"%char "Doe") = canonical_spacing "Jane Doe" /\
  canonical_spacing "JANE DOE" <> canonical_spacing "Jane  Doe".
Proof.
  split; [|split; [exact split_canonical | split; [exact canonical_spacing_split|]]].
  - intros a b. split; intro H.
    + rewrite <- (split_canonical a), <- (split_canonical b), H. reflexivity.
    + rewrite !canonical_spacing_split, H. reflexivity.
  - split.
    { intros c. destruct c as [[] [] [] [] [] [] [] []]; vm_compute; reflexivity. }
    split.
    { intros s. pose proof (split_words s) as H. rewrite forallb_forall in H.
      apply Forall_forall. intros w Hw. specialize (H w Hw). unfold is_word in H.
      apply andb_prop in H as [H1 H2]. split; [|exact H2].
      intros ->. discriminate H1. }
    split; [vm_compute; reflexivity|].
    split; [vm_compute; reflexivity|].
    vm_compute. discriminate.
Qed.

Lemma canonical_spacing_same_words_witness :
  canonical_spacing (" Jane" ++ String "160"%char "  Doe") = canonical_spacing "Jane Doe  ".
Proof.
  apply (proj2 (proj1 canonical_spacing_same_words
                  (" Jane" ++ String "160"%char "  Doe")%string "Jane Doe  ")).
  reflexivity.
Defined.

Section WithStr.
Variable str_float : float -> string.

Lemma first_last_rows (g1 g2 : list cell -> string) rows :
  map canonical_spacing (first_last (map g1 rows) (map g2 rows))
  = map (fun row => String.concat " " (split (g1 row) ++ split (g2 row))) rows.
Proof.
  induction rows as [|row rows IH]; [reflexivity|].
  cbn [map first_last]. rewrite IH, canonical_first_last. reflexivity.
Qed.

(** X11.  With usable first-name and last-name columns and no usable
    full-name column, the name of a row is the words of its first-name
    cell followed by the words of its last-name cell, joined by single
    spaces: an empty or blank part leaves no stray space.  A usable
    full-name column takes precedence over the two. *)
Theorem normalize_first_last df f l :
  f <> EmptyString -> l <> EmptyString ->
  has_column df f = true -> has_column df l = true ->
  (forall full,
      truthy full && in_columns df full = false ->
      normalize_name_parts str_float df (Some f) (Some l) full
      = Ok (map (fun row =>
                   String.concat " "
                     (split (py_str str_float (at_col df f row))
                      ++ split (py_str str_float (at_col df l row))))
                (rows df))) /\
  (forall c,
      c <> EmptyString -> has_column df c = true ->
      normalize_name_parts str_float df (Some f) (Some l) (Some c)
      = Ok (map (fun row => String.concat " " (split (py_str str_float (at_col df c row))))
                (rows df))).
Proof.
  intros Hf Hl Hcf Hcl. split.
  - intros full Hfull. unfold normalize_name_parts. rewrite Hfull.
    rewrite (truthy_nonempty f Hf), (truthy_nonempty l Hl).
    cbn [in_columns]. rewrite Hcf, Hcl. cbn [andb bind column_of].
    f_equal. unfold astype_str, get_col. rewrite !map_map.
    apply (first_last_rows (fun row => py_str str_float (at_col df f row))
                           (fun row => py_str str_float (at_col df l row))).
  - intros c Hc Hcc. unfold normalize_name_parts.
    rewrite (truthy_nonempty c Hc). cbn [in_columns]. rewrite Hcc.
    cbn [andb bind column_of]. f_equal.
    unfold astype_str, get_col. rewrite !map_map. apply map_ext.
    intro row. apply canonical_spacing_split.
Qed.
End WithStr.

Lemma normalize_first_last_witness :
  normalize_name_parts example_str_float
    (mkdf ["First"; "Last"]
       [[Text (" Mary" ++ String "160"%char " Ann "); Text "Doe"]; [NA; Text " Roe"];
        [Text "  "; Text "Poe"]])
    (Some "First") (Some "Last") None
  = Ok ["Mary Ann Doe"; "nan Roe"; "Poe"].
Proof.
  rewrite (proj1 (normalize_first_last example_str_float
                    (mkdf ["First"; "Last"]
                       [[Text (" Mary" ++ String "160"%char " Ann "); Text "Doe"];
                        [NA; Text " Roe"]; [Text "  "; Text "Poe"]])
                    "First" "Last"
                    ltac:(discriminate) ltac:(discriminate) eq_refl eq_refl) None eq_refl).
  reflexivity.
Defined.

End NameFacts.

(* ===================================================================== *)
(** * Floats: where NaN can come from *)
(* ===================================================================== *)

Module FloatFacts.
Import PyFloat.
Local Open Scope Z_scope.

Lemma shr_1_nonneg mrs : 0 <= shr_m mrs -> 0 <= shr_m (shr_1 mrs).
Proof.
  destruct mrs as [m r s]. destruct m as [|[p|p|]|[p|p|]]; simpl; lia.
Qed.

Lemma iter_shr_1_nonneg p :
  forall mrs, 0 <= shr_m mrs -> 0 <= shr_m (iter_pos shr_1 p mrs).
Proof.
  induction p as [p IH|p IH|]; intros mrs H; simpl.
  - apply IH, IH, shr_1_nonneg, H.
  - apply IH, IH, H.
  - apply shr_1_nonneg, H.
Qed.

Lemma shr_fexp_nonneg m e l :
  0 <= m -> 0 <= shr_m (fst (shr_fexp prec emax m e l)).
Proof.
  intro H. unfold shr_fexp, shr.
  assert (H0 : 0 <= shr_m (shr_record_of_loc m l)).
  { destruct l as [|[]]; simpl; exact H. }
  destruct (fexp prec emax (Zdigits2 m + e) - e); simpl;
    [exact H0 | apply iter_shr_1_nonneg; exact H0 | exact H0].
Qed.

Lemma round_nearest_even_nonneg m l : 0 <= m -> 0 <= round_nearest_even m l.
Proof.
  intro H. unfold round_nearest_even. destruct l as [|[]]; try lia.
  destruct (IntDef.Z.even m); lia.
Qed.

Lemma binary_round_aux_not_nan sx mx ex lx :
  0 <= mx -> is_nan (binary_round_aux prec emax sx mx ex lx) = false.
Proof.
  intro H. unfold binary_round_aux.
  pose proof (shr_fexp_nonneg mx ex lx H) as H1.
  destruct (shr_fexp prec emax mx ex lx) as [mrs' e']. simpl in H1.
  pose proof (shr_fexp_nonneg _ e' loc_Exact
                (round_nearest_even_nonneg _ (loc_of_shr_record mrs') H1)) as H2.
  destruct (shr_fexp prec emax _ e' loc_Exact) as [mrs'' e'']. simpl in H2.
  destruct (shr_m mrs''); [reflexivity| |lia].
  destruct (e'' <=? emax - prec); reflexivity.
Qed.

Lemma binary_round_not_nan sx mx ex :
  is_nan (binary_round prec emax sx mx ex) = false.
Proof.
  unfold binary_round. destruct (shl_align mx ex _) as [mz ez].
  apply binary_round_aux_not_nan. lia.
Qed.

Lemma binary_normalize_not_nan m e szero :
  is_nan (binary_normalize prec emax m e szero) = false.
Proof.
  unfold binary_normalize. destruct m; [reflexivity| |]; apply binary_round_not_nan.
Qed.

Lemma of_Z_not_nan z : is_nan (of_Z z) = false.
Proof. apply binary_normalize_not_nan. Qed.

Lemma SFdiv_finite_not_nan sx mx ex sy my ey :
  is_nan (SFdiv prec emax (S754_finite sx mx ex) (S754_finite sy my ey)) = false.
Proof.
  unfold SFdiv, SFdiv_core_binary.
  set (e' := IntDef.Z.min _ _). set (s := ex - ey - e').
  set (m' := match s with 0 => Z.pos mx | Z.pos _ => IntDef.Z.shiftl (Z.pos mx) s
                      | Z.neg _ => 0 end).
  assert (Hm : 0 <= m').
  { unfold m'. destruct s eqn:Es; [lia| |lia].
    apply Z.shiftl_nonneg. lia. }
  pose proof (Z.div_pos m' (Z.pos my) Hm ltac:(lia)) as Hq.
  unfold Z.div in Hq.
  change (IntDef.Z.div_eucl m' (Z.pos my)) with (Z.div_eucl m' (Z.pos my)).
  destruct (Z.div_eucl m' (Z.pos my)) as [q r].
  apply binary_round_aux_not_nan. exact Hq.
Qed.

Lemma of_decimal_not_nan neg m e10 : is_nan (of_decimal neg m e10) = false.
Proof.
  unfold of_decimal. destruct m as [|p|p]; try reflexivity.
  destruct e10 as [|q|q]; try apply binary_round_not_nan.
  apply SFdiv_finite_not_nan.
Qed.

(** A sum is NaN only when a term is, or when infinities of opposite
    signs meet. *)
Lemma fadd_nan x y :
  is_nan (fadd x y) = true ->
  is_nan x = true \/ is_nan y = true \/
  exists s, x = S754_infinity s /\ y = S754_infinity (negb s).
Proof.
  unfold fadd, SFadd.
  destruct x as [sx|sx| |sx mx ex]; destruct y as [sy|sy| |sy my ey];
    try (intro H; simpl in H; discriminate H); try (intros _; tauto).
  - destruct sx, sy; simpl; discriminate.
  - destruct sx, sy; simpl; try discriminate; intros _; right; right.
    + exists true. split; reflexivity.
    + exists false. split; reflexivity.
  - rewrite binary_normalize_not_nan. discriminate.
Qed.

(** ** Integers below 2^53 *)

Lemma digits2_size p : digits2_pos p = Pos.size p.
Proof. induction p; simpl; congruence. Qed.

Lemma digits2_small p : Z.pos p < 2 ^ 53 -> Z.pos (digits2_pos p) <= 53.
Proof.
  intro H. rewrite digits2_size.
  destruct (Z_le_gt_dec (Z.pos (Pos.size p)) 53) as [Hle|Hgt]; [exact Hle | exfalso].
  pose proof (Pos.size_le p) as Hs.
  assert (H1 : 2 ^ 54 <= 2 ^ Z.pos (Pos.size p)) by (apply Z.pow_le_mono_r; lia).
  assert (H2 : Z.pos (2 ^ Pos.size p) <= Z.pos p~0) by exact Hs.
  rewrite Pos2Z.inj_pow in H2. change (Z.pos p~0) with (2 * Z.pos p) in H2.
  change (2 ^ 54) with (2 * 2 ^ 53) in H1. lia.
Qed.

Lemma digits2_iter p k : digits2_pos (Pos.iter xO p k) = (digits2_pos p + k)%positive.
Proof.
  induction k as [|k IH] using Pos.peano_ind.
  - simpl. lia.
  - rewrite Pos.iter_succ. simpl. rewrite IH. lia.
Qed.

Lemma iter_xO_inj k p q : Pos.iter xO p k = Pos.iter xO q k -> p = q.
Proof.
  induction k as [|k IH] using Pos.peano_ind.
  - simpl. congruence.
  - rewrite !Pos.iter_succ. intro H. injection H as H. exact (IH H).
Qed.

Lemma round_aux_canonical s m e :
  fexp prec emax (Z.pos (digits2_pos m) + e) = e -> (e <=? emax - prec) = true ->
  binary_round_aux prec emax s (Z.pos m) e loc_Exact = S754_finite s m e.
Proof.
  intros Hc He. unfold binary_round_aux, shr_fexp. cbn [Zdigits2 shr_record_of_loc].
  rewrite Hc, Z.sub_diag. cbn [shr loc_of_shr_record shr_m round_nearest_even Zdigits2
                                 shr_record_of_loc].
  rewrite Hc, Z.sub_diag. cbn [shr shr_m]. rewrite He. reflexivity.
Qed.

(** A positive integer below 2^53 is a float with that very value: its
    mantissa is the integer shifted up to 53 bits. *)
Lemma binary_round_small s p :
  Z.pos p < 2 ^ 53 ->
  binary_round prec emax s p 0
  = S754_finite s (fst (shl_align p 0 (Z.pos (digits2_pos p) - 53)))
                (Z.pos (digits2_pos p) - 53).
Proof.
  intro H. apply digits2_small in H. unfold binary_round.
  assert (Hf : fexp prec emax (Z.pos (digits2_pos p) + 0) = Z.pos (digits2_pos p) - 53).
  { unfold fexp, emin, prec, emax. lia. }
  rewrite Hf. unfold shl_align. rewrite Z.sub_0_r.
  destruct (Z.pos (digits2_pos p) - 53) as [|k|k] eqn:E; [|lia|].
  - cbn [fst]. apply round_aux_canonical; [|reflexivity].
    unfold fexp, emin, prec, emax. lia.
  - cbn [fst]. apply round_aux_canonical.
    + rewrite digits2_iter. unfold fexp, emin, prec, emax. lia.
    + apply Z.leb_le. unfold emax, prec. lia.
Qed.

Lemma binary_round_small_inj s p q :
  Z.pos p < 2 ^ 53 -> Z.pos q < 2 ^ 53 ->
  binary_round prec emax s p 0 = binary_round prec emax s q 0 -> p = q.
Proof.
  intros Hp Hq. rewrite (binary_round_small s p Hp), (binary_round_small s q Hq).
  intro H.
  pose proof (f_equal (fun x => match x with S754_finite _ _ e => e | _ => 0 end) H) as He.
  pose proof (f_equal (fun x => match x with S754_finite _ m _ => m | _ => xH end) H) as Hm.
  cbv beta iota in He, Hm. clear H.
  assert (Hd : digits2_pos p = digits2_pos q) by lia.
  rewrite Hd in Hm. unfold shl_align in Hm. rewrite Z.sub_0_r in Hm.
  destruct (Z.pos (digits2_pos q) - 53); cbn [fst] in Hm;
    [exact Hm | exact Hm | exact (iter_xO_inj _ _ _ Hm)].
Qed.

Lemma of_Z_small_inj m n :
  Z.abs m < 2 ^ 53 -> Z.abs n < 2 ^ 53 -> of_Z m = of_Z n -> m = n.
Proof.
  intros Hm Hn. unfold of_Z, dyadic, binary_normalize.
  destruct m as [|p|p], n as [|q|q]; try reflexivity;
    try (rewrite ?(binary_round_small _ p), ?(binary_round_small _ q) by lia; discriminate).
  - intro H. f_equal. apply (binary_round_small_inj false); [lia | lia | exact H].
  - intro H. f_equal. apply (binary_round_small_inj true); [lia | lia | exact H].
Qed.

Lemma of_Z_small_key m : Z.abs m < 2 ^ 53 -> key_float (of_Z m) = of_Z m.
Proof.
  intro H. unfold of_Z, dyadic, binary_normalize. destruct m as [|p|p]; [reflexivity| |];
    rewrite binary_round_small by lia; reflexivity.
Qed.

End FloatFacts.

(* ===================================================================== *)
(** * More about [to_num] *)
(* ===================================================================== *)

Module CoercionFacts.
Import PyStr PyFloat Py Pandas App StrFacts ReaderFacts FloatFacts.
Local Open Scope Z_scope.

Lemma strip_no_space s : no_space s = true -> strip s = s.
Proof.
  intro H. unfold strip.
  assert (Hl : lstrip s = s).
  { destruct s as [|c t]; [reflexivity|]. simpl in H.
    apply andb_prop in H. destruct H as [Hc _]. apply negb_true_iff in Hc.
    apply lstrip_cons_nonspace. exact Hc. }
  rewrite Hl. clear Hl.
  induction s as [|c t IH]; [reflexivity|]. simpl in H.
  apply andb_prop in H. destruct H as [Hc Ht]. apply negb_true_iff in Hc.
  rewrite (rstrip_cons_nonspace c t Hc), (IH Ht). reflexivity.
Qed.

Lemma float_space_is_space c : float_space c = true -> is_space c = true.
Proof.
  destruct c as [[] [] [] [] [] [] [] []]; vm_compute; intro H;
    first [reflexivity | discriminate H].
Qed.

Lemma not_space_float c : is_space c = false -> float_space c = false.
Proof.
  intro H. destruct (float_space c) eqn:E; [|reflexivity].
  apply float_space_is_space in E. congruence.
Qed.

(** [float] has nothing to drop from a text without whitespace. *)
Lemma float_strip_no_space s : no_space s = true -> float_strip s = s.
Proof.
  intro H. unfold float_strip.
  assert (Hl : float_lstrip s = s).
  { destruct s as [|c t]; [reflexivity|]. simpl in H.
    apply andb_prop in H. destruct H as [Hc _]. apply negb_true_iff in Hc.
    cbn [float_lstrip]. now rewrite (not_space_float c Hc). }
  rewrite Hl. clear Hl.
  induction s as [|c t IH]; [reflexivity|]. simpl in H.
  apply andb_prop in H. destruct H as [Hc Ht]. apply negb_true_iff in Hc.
  cbn [float_rstrip]. rewrite (IH Ht), (not_space_float c Hc). destruct t; reflexivity.
Qed.

Lemma uint_no_space d : no_space (DecimalString.NilEmpty.string_of_uint d) = true.
Proof. induction d; simpl; try reflexivity; exact IHd. Qed.

Lemma uint_no_comma d :
  remove_char ","%char (DecimalString.NilEmpty.string_of_uint d)
  = DecimalString.NilEmpty.string_of_uint d.
Proof. induction d; simpl; try reflexivity; rewrite IHd; reflexivity. Qed.

Ltac read_digit IHd acc cnt k next :=
  cbn [DecimalString.NilEmpty.string_of_uint digits_from];
  match goal with
  | |- context [is_digit ?c] =>
      change (is_digit c) with true; cbv iota;
      change (digit_val c) with k;
      destruct acc as [|a|a]; [ | | lia];
      [ change (10 * 0 + k) with k;
        let cnt' := fresh "cnt" in
        let E := fresh "E" in
        destruct (IHd k (cnt + 1) ltac:(lia)) as [cnt' E];
        exists cnt'; rewrite E; reflexivity
      | let p := eval cbv beta in (next a) in
        replace (10 * Z.pos a + k) with (Z.pos p) by lia;
        let cnt' := fresh "cnt" in
        let E := fresh "E" in
        destruct (IHd (Z.pos p) (cnt + 1) ltac:(lia)) as [cnt' E];
        exists cnt'; rewrite E; reflexivity ]
  end.

(** Reading the digits of a decimal numeral continues the accumulator the
    way [Pos.of_uint_acc] does. *)
Lemma digits_from_uint d :
  forall acc cnt,
    0 <= acc ->
    exists cnt',
      digits_from acc cnt (DecimalString.NilEmpty.string_of_uint d)
      = (match acc with
         | Zpos a => Zpos (Pos.of_uint_acc d a)
         | _ => Z.of_N (Pos.of_uint d)
         end, cnt', EmptyString).
Proof.
  induction d; intros acc cnt Hacc.
  - exists cnt. destruct acc; try reflexivity. lia.
  - read_digit IHd acc cnt 0 (fun a => 10 * a)%positive.
  - read_digit IHd acc cnt 1 (fun a => 1 + 10 * a)%positive.
  - read_digit IHd acc cnt 2 (fun a => 2 + 10 * a)%positive.
  - read_digit IHd acc cnt 3 (fun a => 3 + 10 * a)%positive.
  - read_digit IHd acc cnt 4 (fun a => 4 + 10 * a)%positive.
  - read_digit IHd acc cnt 5 (fun a => 5 + 10 * a)%positive.
  - read_digit IHd acc cnt 6 (fun a => 6 + 10 * a)%positive.
  - read_digit IHd acc cnt 7 (fun a => 7 + 10 * a)%positive.
  - read_digit IHd acc cnt 8 (fun a => 8 + 10 * a)%positive.
  - read_digit IHd acc cnt 9 (fun a => 9 + 10 * a)%positive.
Qed.

Lemma sign_uint d :
  sign (DecimalString.NilEmpty.string_of_uint d)
  = (false, DecimalString.NilEmpty.string_of_uint d).
Proof. destruct d; reflexivity. Qed.

(** What [float] makes of the text after the sign when that text is a
    decimal numeral. *)
Lemma float_body_uint neg d :
  d <> Decimal.Nil ->
  (if String.eqb (lower (DecimalString.NilEmpty.string_of_uint d)) "nan" then Some nan
   else if String.eqb (lower (DecimalString.NilEmpty.string_of_uint d)) "inf"
           || String.eqb (lower (DecimalString.NilEmpty.string_of_uint d)) "infinity"
        then Some (S754_infinity neg)
        else
          match number (DecimalString.NilEmpty.string_of_uint d) with
          | Some (m, k, rest) =>
              match exponent rest with
              | Some e => Some (of_decimal neg m (e - k))
              | None => None
              end
          | None => None
          end)
  = Some (of_decimal neg (Z.of_N (Pos.of_uint d)) 0).
Proof.
  intro Hd. destruct d as [|d|d|d|d|d|d|d|d|d|d]; [contradiction|..];
    cbn [DecimalString.NilEmpty.string_of_uint lower];
    match goal with
    | |- context [lower_char ?c] =>
        change (lower_char c) with c;
        change (String.eqb (String c (lower (DecimalString.NilEmpty.string_of_uint d)))
                  "nan") with false;
        change (String.eqb (String c (lower (DecimalString.NilEmpty.string_of_uint d)))
                  "inf") with false;
        change (String.eqb (String c (lower (DecimalString.NilEmpty.string_of_uint d)))
                  "infinity") with false;
        cbv iota; cbn [orb]; cbv iota;
        unfold number; cbn [digitpart];
        change (is_digit c) with true; cbv iota;
        let v := eval vm_compute in (10 * 0 + digit_val c) in
        change (10 * 0 + digit_val c) with v;
        let cnt' := fresh "cnt" in
        let E := fresh "E" in
        destruct (digits_from_uint d v 1 ltac:(lia)) as [cnt' E];
        rewrite E; reflexivity
    end.
Qed.

Lemma py_float_uint d :
  d <> Decimal.Nil ->
  py_float (DecimalString.NilEmpty.string_of_uint d)
  = Some (of_decimal false (Z.of_N (Pos.of_uint d)) 0) /\
  py_float (String "-"%char (DecimalString.NilEmpty.string_of_uint d))
  = Some (of_decimal true (Z.of_N (Pos.of_uint d)) 0).
Proof.
  intro Hd. unfold py_float. split.
  - rewrite (float_strip_no_space _ (uint_no_space d)), sign_uint.
    apply float_body_uint. exact Hd.
  - rewrite float_strip_no_space by (simpl; apply uint_no_space).
    cbn [sign]. apply float_body_uint. exact Hd.
Qed.

Lemma N_to_uint_nonnil n : N.to_uint n <> Decimal.Nil.
Proof.
  destruct n; [discriminate|]. apply DecimalPos.Unsigned.to_uint_nonnil.
Qed.

Lemma of_decimal_integer neg p :
  of_decimal neg (Z.pos p) 0 = binary_round prec emax neg p 0.
Proof.
  unfold of_decimal. change (Z.to_pos (10 ^ 0)) with 1%positive.
  rewrite Pos.mul_1_r. reflexivity.
Qed.

Section WithStr.
Variable str_float : float -> string.

(** The decimal rendering of an integer has neither comma nor whitespace
    and reads back as the nearest float. *)
Lemma to_num_of_int z : to_num str_float (Int z) = of_Z z.
Proof.
  unfold to_num. cbn [py_str]. unfold str_int, decimal, decimal_N.
  destruct z as [|p|p].
  - reflexivity.
  - rewrite uint_no_comma.
    rewrite (proj1 (py_float_uint _ (N_to_uint_nonnil _))).
    change (Pos.of_uint (N.to_uint (N.of_nat (Z.to_nat (Z.pos p)))))
      with (N.of_uint (N.to_uint (N.of_nat (Z.to_nat (Z.pos p))))).
    rewrite DecimalN.Unsigned.of_to.
    replace (Z.of_N (N.of_nat (Z.to_nat (Z.pos p)))) with (Z.pos p) by lia.
    apply of_decimal_integer.
  - cbn [remove_char]. change (Ascii.eqb "-" ",") with false. cbv iota.
    rewrite uint_no_comma.
    rewrite (proj2 (py_float_uint _ (N_to_uint_nonnil _))).
    change (Pos.of_uint (N.to_uint (N.of_nat (Pos.to_nat p))))
      with (N.of_uint (N.to_uint (N.of_nat (Pos.to_nat p)))).
    rewrite DecimalN.Unsigned.of_to.
    replace (Z.of_N (N.of_nat (Pos.to_nat p))) with (Z.pos p) by lia.
    apply of_decimal_integer.
Qed.

(** X12.  An integer cell is read as the float nearest to that integer
    (the integer itself up to 2^53 in absolute value): its decimal
    rendering has neither comma nor whitespace and [float] reads it back
    as that number.  There is no integer that [to_num] turns into NaN. *)
Theorem to_num_int :
  (forall z, to_num str_float (Int z) = of_Z z) /\
  (forall z, is_nan (to_num str_float (Int z)) = false) /\
  (forall z, hours_field str_float (Int z) = of_Z z).
Proof.
  split; [exact to_num_of_int|]. split.
  - intro z. rewrite to_num_of_int. apply of_Z_not_nan.
  - intro z. unfold hours_field, fillna. rewrite to_num_of_int, of_Z_not_nan. reflexivity.
Qed.

Lemma py_float_nan s f :
  py_float s = Some f -> is_nan f = true ->
  lower (snd (sign (float_strip s))) = "nan"%string.
Proof.
  unfold py_float. destruct (sign (float_strip s)) as [neg body]. cbn [snd].
  destruct (String.eqb_spec (lower body) "nan") as [E|E]; [intros _ _; exact E|].
  destruct (String.eqb (lower body) "inf" || String.eqb (lower body) "infinity").
  - intro H. injection H as <-. discriminate.
  - destruct (number body) as [[[m k] rest]|]; [|discriminate].
    destruct (exponent rest) as [e|]; [|discriminate].
    intro H. injection H as <-. rewrite of_decimal_not_nan. discriminate.
Qed.

Lemma to_num_nan_iff x :
  is_nan (to_num str_float x) = true <->
  py_float (remove_char ","%char (py_str str_float x)) = None \/
  lower (snd (sign (float_strip (remove_char ","%char (py_str str_float x)))))
  = "nan"%string.
Proof.
  unfold to_num.
  destruct (py_float (remove_char ","%char (py_str str_float x))) as [f|] eqn:E.
  - split.
    + intro Hn. right. exact (py_float_nan _ _ E Hn).
    + intros [H|H]; [discriminate|].
      unfold py_float in E.
      destruct (sign (float_strip (remove_char ","%char (py_str str_float x))))
        as [neg body].
      cbn [snd] in H. rewrite H in E. cbn in E. injection E as <-. reflexivity.
  - split; [intros _; left; reflexivity | reflexivity].
Qed.

(** X13.  [to_num] gives NaN in two cases only: [float] rejects the text
    of the cell once its commas are removed, or that text is [nan] in any
    letter case, with or without a sign and surrounding whitespace.  A
    text that is empty or consists of commas and of the whitespace that
    [float] drops is rejected: such a cell is NaN as a pay rate and [0.0]
    as hours.  What [float] drops at the ends is the tab, the line feed,
    the vertical tab, the form feed, the carriage return, the space, the
    next line character 133 and the no-break space 160, not the
    separators 28 to 31: a number behind a no-break space is read, a
    number behind the separator 28 is not. *)
Theorem to_num_nan_cases :
  (forall x,
      is_nan (to_num str_float x) = true <->
      py_float (remove_char ","%char (py_str str_float x)) = None \/
      lower (snd (sign (float_strip (remove_char ","%char (py_str str_float x)))))
      = "nan"%string) /\
  (forall s,
      float_strip (remove_char ","%char s) = EmptyString ->
      to_num str_float (Text s) = nan /\
      pay_rate_field str_float (Text s) = nan /\
      hours_field str_float (Text s) = zero) /\
  (forall c,
      float_space c
      = existsb (Nat.eqb (nat_of_ascii c)) [9; 10; 11; 12; 13; 32; 133; 160]%nat) /\
  to_num str_float (Text (String "160"%char "12.5")) = dyadic 25 (-1) /\
  to_num str_float (Text (String "028"%char "12")) = nan /\
  to_num str_float (Text (String "009"%char " -NaN ")) = nan.
Proof.
  split; [exact to_num_nan_iff|].
  split.
  { intros s Hs.
    assert (H : to_num str_float (Text s) = nan).
    { unfold to_num, py_float. cbn [py_str]. rewrite Hs. reflexivity. }
    unfold pay_rate_field, hours_field. rewrite H. repeat split. }
  split.
  { intros c. destruct c as [[] [] [] [] [] [] [] []]; vm_compute; reflexivity. }
  split; [vm_compute; reflexivity|]. split; vm_compute; reflexivity.
Qed.

(** X14.  The ["Hours"] of a payroll row is NaN only if one of its three
    hours cells reads as an infinity: cells that are blank, text or NaN
    count as [0.0] and can never make the sum NaN. *)
Theorem hours_nan_needs_infinity names cells r :
  In r (pay_rows str_float names cells) ->
  is_nan (Hours r) = true ->
  exists rate reg ot dt,
    In (rate, (reg, ot, dt)) cells /\
    exists c s, In c [reg; ot; dt] /\ to_num str_float c = S754_infinity s.
Proof.
  intros Hin Hnan.
  destruct (Coercion.pay_rows_fields str_float names cells r Hin)
    as (rate & reg & ot & dt & Hc & _ & Hh).
  exists rate, reg, ot, dt. split; [exact Hc|].
  rewrite Hh in Hnan. clear Hh.
  assert (Hf : forall c, is_nan (hours_field str_float c) = false).
  { intro c. unfold hours_field, fillna.
    destruct (is_nan (to_num str_float c)) eqn:E; [reflexivity | exact E]. }
  assert (Hi : forall c s, hours_field str_float c = S754_infinity s ->
                           to_num str_float c = S754_infinity s).
  { intros c s. unfold hours_field, fillna.
    destruct (is_nan (to_num str_float c)); [discriminate | auto]. }
  apply fadd_nan in Hnan. destruct Hnan as [Hn|[Hn|(s & _ & Hdt)]].
  - apply fadd_nan in Hn. destruct Hn as [Hn|[Hn|(s & Hreg & _)]].
    + rewrite Hf in Hn. discriminate.
    + rewrite Hf in Hn. discriminate.
    + exists reg, s. split; [left; reflexivity | apply Hi; exact Hreg].
  - rewrite Hf in Hn. discriminate.
  - exists dt, (negb s). split; [right; right; left; reflexivity | apply Hi; exact Hdt].
Qed.

(** C5.  [to_num] turns the cell into its string, removes every comma
    and reads the result as a float; when the string is not a float
    literal the result is NaN, the missing value.  So an integer cell
    gives the nearest float, a NaN cell gives NaN, a float cell whose
    string reads back gives itself, and a text is read with its commas
    gone and the whitespace of [float] dropped at both ends: "1,234.5"
    gives 1234.5 (that is 2469/2) and "abc" gives NaN.  An hours cell has
    its NaN replaced by 0.0 and is never missing afterwards; a pay-rate
    cell is the coerced value itself, so a missing rate stays missing.
    The pay rates of the records are the coerced cells of the pay-rate
    column provided that column is none of the columns assigned before
    line 186 (the name column and the three hours columns); their hours
    are the sums of the three filled fields provided the hours roles are
    three columns, none of them ["Employee Name"] or ["Pay Rate"]; with
    the four roles in columns of their own the records are built from
    exactly these fields. *)
Theorem to_num_spec :
  (forall z, to_num str_float (Int z) = of_Z z) /\
  to_num str_float NA = nan /\
  (forall f,
      is_nan f = false ->
      py_float (remove_char ","%char (str_float f)) = Some f ->
      to_num str_float (Num f) = f) /\
  (forall x, contains "," (remove_char ","%char (py_str str_float x)) = false) /\
  (forall a b, to_num str_float (Text (a ++ "," ++ b)) = to_num str_float (Text (a ++ b))) /\
  (forall x f, py_float (remove_char ","%char (py_str str_float x)) = Some f ->
               to_num str_float x = f) /\
  (forall x, py_float (remove_char ","%char (py_str str_float x)) = None ->
             to_num str_float x = nan /\ isna (Num (to_num str_float x)) = true) /\
  (forall x,
      is_nan (to_num str_float x) = true <->
      py_float (remove_char ","%char (py_str str_float x)) = None \/
      lower (snd (sign (float_strip (remove_char ","%char (py_str str_float x)))))
      = "nan"%string) /\
  to_num str_float (Text "1,234.5") = dyadic 2469 (-1) /\
  to_num str_float (Text "1,234.5") = S754_finite false 5429388417957888 (-42) /\
  to_num str_float (Text "abc") = nan /\
  to_num str_float (Text EmptyString) = nan /\
  to_num str_float (Text "$20") = nan /\
  to_num str_float (Text " 1e3 ") = of_Z 1000 /\
  to_num str_float (Text "-.5") = dyadic (-1) (-1) /\
  to_num str_float (Text (String "160"%char "12.5")) = dyadic 25 (-1) /\
  to_num str_float (Text (String "028"%char "12")) = nan /\
  (forall x, is_nan (hours_field str_float x) = false /\
             (is_nan (to_num str_float x) = true -> hours_field str_float x = zero) /\
             (is_nan (to_num str_float x) = false ->
              hours_field str_float x = to_num str_float x)) /\
  (forall x, pay_rate_field str_float x = to_num str_float x /\
             (is_nan (to_num str_float x) = true ->
              is_nan (pay_rate_field str_float x) = true)) /\
  (forall df fc lc full reg ot dt rate payroll,
      ~ In rate ["Employee Name"; reg; ot; dt] ->
      with_hours str_float df fc lc full reg ot dt rate = Some (Ok payroll) ->
      map PayRate payroll
      = map (fun row => to_num str_float (at_col df rate row)) (rows df)) /\
  (forall df fc lc full reg ot dt rate payroll,
      NoDup [reg; ot; dt] ->
      ~ In "Employee Name" [reg; ot; dt] ->
      ~ In "Pay Rate" [reg; ot; dt] ->
      with_hours str_float df fc lc full reg ot dt rate = Some (Ok payroll) ->
      map Hours payroll
      = map (fun row => fadd (fadd (hours_field str_float (at_col df reg row))
                                   (hours_field str_float (at_col df ot row)))
                             (hours_field str_float (at_col df dt row)))
            (rows df)) /\
  (forall df fc lc full reg ot dt rate names,
      normalize_name_parts str_float df fc lc full = Ok names ->
      NoDup [reg; ot; dt] ->
      ~ In "Employee Name" [reg; ot; dt; rate] ->
      ~ In "Pay Rate" [reg; ot; dt] ->
      ~ In rate [reg; ot; dt] ->
      has_column df reg = true -> has_column df ot = true ->
      has_column df dt = true -> has_column df rate = true ->
      with_hours str_float df fc lc full reg ot dt rate
      = Some (Ok (pay_rows str_float names
                    (map (fun row => (at_col df rate row,
                                      (at_col df reg row, at_col df ot row,
                                       at_col df dt row)))
                         (rows df))))) /\
  (forall names cells r,
      In r (pay_rows str_float names cells) ->
      exists rate reg ot dt,
        In (rate, (reg, ot, dt)) cells /\
        PayRate r = to_num str_float rate /\
        Hours r = fadd (fadd (hours_field str_float reg) (hours_field str_float ot))
                       (hours_field str_float dt)).
Proof.
  split; [exact to_num_of_int|].
  split; [reflexivity|].
  split.
  { intros f Hf H. unfold to_num. cbn [py_str]. now rewrite Hf, H. }
  split; [intros x; apply Coercion.remove_char_gone|].
  split; [apply Coercion.to_num_comma|].
  split; [intros x f H; unfold to_num; now rewrite H|].
  split; [intros x H; unfold to_num; rewrite H; now split|].
  split; [exact to_num_nan_iff|].
  do 9 (split; [vm_compute; reflexivity|]).
  split.
  { intros x. unfold hours_field, fillna.
    destruct (is_nan (to_num str_float x)) eqn:E; repeat split;
      try reflexivity; try assumption; discriminate. }
  split; [intros x; split; [reflexivity | intros H; exact H]|].
  split; [intros df fc lc full reg ot dt rate payroll;
          apply Coercion.with_hours_rates|].
  split; [intros df fc lc full reg ot dt rate payroll;
          apply Coercion.with_hours_hours|].
  split; [intros df fc lc full reg ot dt rate names;
          apply Coercion.with_hours_separate|].
  apply Coercion.pay_rows_fields.
Qed.
End WithStr.


Lemma to_num_nan_cases_witness :
  to_num example_str_float (Text (String "160"%char " , ")) = nan /\
  pay_rate_field example_str_float (Text (String "160"%char " , ")) = nan /\
  hours_field example_str_float (Text (String "160"%char " , ")) = zero.
Proof.
  apply (proj1 (proj2 (to_num_nan_cases example_str_float)) (String "160"%char " , ")).
  reflexivity.
Defined.

Lemma hours_nan_needs_infinity_witness :
  exists rate reg ot dt,
    In (rate, (reg, ot, dt)) [(Text "20", (Text "inf", Text "-inf", Text "1"))] /\
    exists c s, In c [reg; ot; dt] /\
                to_num example_str_float c = S754_infinity s.
Proof.
  apply (hours_nan_needs_infinity example_str_float ["Jane Doe"]
           [(Text "20", (Text "inf", Text "-inf", Text "1"))]
           (mkpay "Jane Doe" (of_Z 20) nan)).
  - left. vm_compute. reflexivity.
  - reflexivity.
Defined.

Lemma to_num_spec_witness :
  (to_num example_str_float (Text "12,5x") = nan /\
   isna (Num (to_num example_str_float (Text "12,5x"))) = true) /\
  to_num example_str_float (Num (of_Z 20)) = of_Z 20 /\
  map PayRate [mkpay "Jane Doe" (of_Z 20) (of_Z 3); mkpay "John Roe" nan (of_Z 8)]
  = map (fun row =>
           to_num example_str_float
             (at_col (mkdf ["Name"; "Rate"; "Reg"; "OT"; "DT"]
                        [[Text "Jane Doe"; Num (of_Z 20); Text "3"; Text "x"; NA];
                         [Text "John Roe"; Text "n/a"; Int 8; NA; NA]])
                     "Rate" row))
        [[Text "Jane Doe"; Num (of_Z 20); Text "3"; Text "x"; NA];
         [Text "John Roe"; Text "n/a"; Int 8; NA; NA]].
Proof.
  pose proof (to_num_spec example_str_float) as H.
  destruct H as (_ & _ & Hnum & _ & _ & _ & Hfail & _ & _ & _ & _ & _ & _ & _ & _ & _ & _
                 & _ & _ & Hrate & _).
  split; [apply (Hfail (Text "12,5x")); reflexivity|].
  split; [apply (Hnum (of_Z 20)); vm_compute; reflexivity|].
  apply (Hrate (mkdf ["Name"; "Rate"; "Reg"; "OT"; "DT"]
                  [[Text "Jane Doe"; Num (of_Z 20); Text "3"; Text "x"; NA];
                   [Text "John Roe"; Text "n/a"; Int 8; NA; NA]])
               None None (Some "Name") "Reg" "OT" "DT" "Rate").
  - cbn [In]. intuition discriminate.
  - vm_compute. reflexivity.
Defined.

(** The pay rate is read after the hours columns were coerced and filled:
    when the pay-rate role is the column of an hours role, a rate that
    does not parse comes out as 0.0, not as NaN.  The sidebar gives such a
    mapping on its own for a payroll without a regular-hours header whose
    first column is the pay rate. *)
Lemma pay_rate_read_after_fillna :
  to_num example_str_float (Text "abc") = nan /\
  option_map (fun m => (reg_col m, ot_col m, dt_col m, payrate_col m, full_name_col m))
    (Sidebar.mapping ["Rate"; "Name"; "OT H"; "DT H"; "Client"]
                     ["Name"; "Rate"; "Assign No"] Sidebar.untouched)
  = Some ("Rate", "OT H", "DT H", "Rate", Some "Name") /\
  with_hours example_str_float
    (mkdf ["Rate"; "Name"; "OT H"; "DT H"; "Client"]
       [[Text "abc"; Text "Jane Doe"; Text "1"; Text "2"; Text "UCLA"]])
    None None (Some "Name") "Rate" "OT H" "DT H" "Rate"
  = Some (Ok [mkpay "Jane Doe" zero (of_Z 3)]).
Proof.
  split; [vm_compute; reflexivity|]. split; vm_compute; reflexivity.
Qed.

End CoercionFacts.

(* ===================================================================== *)
(** * Hours per row and the roster *)
(* ===================================================================== *)

Module TableFacts.
Import PyStr PyFloat Py Pandas App Keys Names Coercion GroupByFacts SidebarFacts.

Lemma pay_rows_names_all str_float names cells :
  List.length names = List.length cells ->
  map EmployeeName (pay_rows str_float names cells) = names.
Proof.
  revert cells. induction names as [|n names IH]; intros [|[rate [[reg ot] dt]] cells] H;
    simpl in *; try reflexivity; try discriminate.
  f_equal. apply IH. injection H as H. exact H.
Qed.

Section WithStr.
Variable str_float : float -> string.

(** X15.  Steps 2 and 3 fail in a fixed order: the name error first, then
    the first of the regular, overtime and double-time columns that the
    filtered table lacks, then the pay-rate column; a column counts as
    present when it is a header of the table or is ["Employee Name"], which
    line 166 has added by then.  With the four columns present and no
    hours role on the column ["Employee Name"], the result has one record
    per filtered row, in row order, carrying the names that
    [normalize_name_parts] returned.  An hours role on ["Employee Name"]
    is the one case in which the names are overwritten by numbers; it is
    the one case that the records leave out. *)
Theorem with_hours_spec df fc lc full reg ot dt rate :
  (forall c,
      present df ["Employee Name"] c = true <-> c = "Employee Name" \/ In c (columns df)) /\
  (forall e,
      normalize_name_parts str_float df fc lc full = Raise e ->
      with_hours str_float df fc lc full reg ot dt rate = Some (Raise e)) /\
  (forall names,
      normalize_name_parts str_float df fc lc full = Ok names ->
      (present df ["Employee Name"] reg = false ->
       with_hours str_float df fc lc full reg ot dt rate
       = Some (Raise (ValueError ("Missing hours column: " ++ reg)))) /\
      (present df ["Employee Name"] reg = true ->
       present df ["Employee Name"] ot = false ->
       with_hours str_float df fc lc full reg ot dt rate
       = Some (Raise (ValueError ("Missing hours column: " ++ ot)))) /\
      (present df ["Employee Name"] reg = true ->
       present df ["Employee Name"] ot = true ->
       present df ["Employee Name"] dt = false ->
       with_hours str_float df fc lc full reg ot dt rate
       = Some (Raise (ValueError ("Missing hours column: " ++ dt)))) /\
      (present df ["Employee Name"] reg = true ->
       present df ["Employee Name"] ot = true ->
       present df ["Employee Name"] dt = true ->
       present df ["Employee Name"] rate = false ->
       with_hours str_float df fc lc full reg ot dt rate
       = Some (Raise (ValueError
                        "Could not find Pay Rate column in Payroll. Map it in the sidebar.")))) /\
  (forall names,
      normalize_name_parts str_float df fc lc full = Ok names ->
      present df ["Employee Name"] reg = true ->
      present df ["Employee Name"] ot = true ->
      present df ["Employee Name"] dt = true ->
      present df ["Employee Name"] rate = true ->
      ~ In "Employee Name" [reg; ot; dt] ->
      exists payroll,
        with_hours str_float df fc lc full reg ot dt rate = Some (Ok payroll) /\
        map EmployeeName payroll = names /\
        List.length payroll = List.length (rows df)) /\
  (with_hours str_float df fc lc full reg ot dt rate = None ->
   In "Employee Name" [reg; ot; dt]) /\
  (forall names row,
      In "Employee Name" [reg; ot; dt] ->
      exists f, fst (fst (hours_row str_float df reg ot dt rate names row)) = Num f).
Proof.
  split.
  { intros c. unfold present, has_column. cbn [existsb].
    rewrite orb_false_r, orb_true_iff, String.eqb_eq, SidebarFacts.in_columns_eqb.
    reflexivity. }
  split.
  { intros e H. unfold with_hours. rewrite H. reflexivity. }
  split.
  { intros names H. unfold with_hours. rewrite H. cbn [find].
    repeat split.
    + intros ->. reflexivity.
    + intros -> ->. reflexivity.
    + intros -> -> ->. reflexivity.
    + intros -> -> -> ->. reflexivity. }
  split.
  { intros names H Hr Ho Hd Hp Hname.
    destruct (with_hours_some str_float df fc lc full reg ot dt rate names
                H Hname Hr Ho Hd Hp) as (payroll & Ew & Er).
    exists payroll. split; [exact Ew|].
    pose proof (normalize_length _ _ _ _ _ _ H) as Hlen.
    split.
    - rewrite (records_names _ _ _ _ _ _ _ _ Er). apply map_fst_combine. exact Hlen.
    - rewrite (records_length _ _ Er), length_map, length_combine, Hlen. apply Nat.min_id. }
  split; [apply with_hours_none|].
  intros names row Hin. exact (proj2 (hours_row_name str_float df reg ot dt rate names row) Hin).
Qed.

(** ** The roster without duplicates *)

Lemma cell_eqb_repr a b : cell_eqb a b = true <-> cell_repr a = cell_repr b.
Proof.
  destruct a as [s|m|f], b as [t|n|g]; simpl; try (split; discriminate).
  - rewrite String.eqb_eq. split; congruence.
  - rewrite Z.eqb_eq. split; congruence.
  - rewrite same_key_repr. split; congruence.
Qed.

Lemma roster_eqb_repr a b : roster_eqb a b = true <-> roster_repr a = roster_repr b.
Proof.
  unfold roster_eqb, roster_repr. rewrite andb_true_iff, key_eqb_repr, cell_eqb_repr.
  split; [intros [-> ->]; reflexivity|].
  intro H. split; [exact (f_equal fst H) | exact (f_equal snd H)].
Qed.

Lemma NoDup_repr_FOP {A B} (repr : A -> B) (eqb : A -> A -> bool) (l : list A) :
  (forall x y, eqb x y = true <-> repr x = repr y) ->
  NoDup (map repr l) -> ForallOrdPairs (fun a b => eqb a b = false) l.
Proof.
  intros Heq. induction l as [|x l IH]; intro H; [constructor|].
  simpl in H. inversion H as [|? ? Hnotin Hnd]; subst.
  constructor; [|apply IH; exact Hnd].
  apply Forall_forall. intros y Hy.
  destruct (eqb x y) eqn:E; [|reflexivity].
  apply Heq in E. exfalso. apply Hnotin. rewrite E. apply in_map. exact Hy.
Qed.

Lemma dedup_length {A} (eqb : A -> A -> bool) l :
  forall seen, (List.length (drop_duplicates_by eqb seen l) <= List.length l)%nat.
Proof.
  induction l as [|x l IH]; intros seen; simpl; [lia|].
  destruct (existsb (eqb x) seen); [specialize (IH seen) | specialize (IH (x :: seen))];
    simpl; lia.
Qed.

Lemma dedup_head {A} (eqb : A -> A -> bool) l :
  hd_error (drop_duplicates_by eqb [] l) = hd_error l.
Proof. destruct l; reflexivity. Qed.

Lemma dedup_fixed {A B} (eqb : A -> A -> bool) (repr : A -> B) l :
  (forall x y, eqb x y = true <-> repr x = repr y) ->
  forall seen,
    NoDup (map repr l) -> (forall x, In x l -> ~ In (repr x) (map repr seen)) ->
    drop_duplicates_by eqb seen l = l.
Proof.
  intro Heq. induction l as [|x l IH]; intros seen Hnd Hfresh; [reflexivity|].
  simpl. simpl in Hnd. inversion Hnd as [|? ? Hx Hl]; subst.
  destruct (existsb (eqb x) seen) eqn:E.
  - exfalso. apply (Hfresh x (or_introl eq_refl)).
    apply (seen_repr eqb repr Heq). exact E.
  - f_equal. apply IH; [exact Hl|].
    intros y Hy [Hin|Hin].
    + apply Hx. rewrite Hin. apply in_map. exact Hy.
    + exact (Hfresh y (or_intror Hy) Hin).
Qed.

(** X16.  [assign_df_slim] fails with a [KeyError] for the first of the
    name, rate and assignment columns that the roster lacks.  By the time
    the rate column is looked up the script has added [_name], and by the
    time the assignment column is looked up also [_rate], so these names
    are never missing; the rate is then read from the normalised name and
    the assignment number from the normalised name or the numeric rate.
    The error of the name or rate column carries the column name, that of
    the assignment column the message of the list look-up.  Otherwise the
    result keeps, in roster order, the first row of every group of rows
    that agree on normalised name, numeric rate and assignment number:
    every row it returns is a roster row, every roster row agrees with a
    row it returns, no two returned rows agree, and removing duplicates
    again changes nothing. *)
Theorem assign_df_slim_spec assign_df name rate no :
  (has_column assign_df name = false ->
   assign_df_slim str_float assign_df name rate no = Raise (KeyError name)) /\
  (has_column assign_df name = true ->
   rate <> "_name" -> has_column assign_df rate = false ->
   assign_df_slim str_float assign_df name rate no = Raise (KeyError rate)) /\
  (has_column assign_df name = true ->
   rate = "_name" \/ has_column assign_df rate = true ->
   no <> "_name" -> no <> "_rate" -> has_column assign_df no = false ->
   assign_df_slim str_float assign_df name rate no
   = Raise (KeyError ("['" ++ no ++ "'] not in index"))) /\
  (has_column assign_df name = true ->
   rate = "_name" \/ has_column assign_df rate = true ->
   no = "_name" \/ no = "_rate" \/ has_column assign_df no = true ->
   assign_df_slim str_float assign_df name rate no
   = Ok (drop_duplicates_by roster_eqb []
           (roster_rows str_float assign_df name rate no))) /\
  (forall row,
      let n := canonical_spacing (py_str str_float (at_col assign_df name row)) in
      let r := to_num str_float (if String.eqb rate "_name" then Text n
                                 else at_col assign_df rate row) in
      roster_row str_float assign_df name rate no row
      = mkroster n r (if String.eqb no "_rate" then Num r
                      else if String.eqb no "_name" then Text n
                           else at_col assign_df no row)) /\
  (forall slim,
      assign_df_slim str_float assign_df name rate no = Ok slim ->
      (forall r, In r slim -> In r (roster_rows str_float assign_df name rate no)) /\
      (forall r, In r (roster_rows str_float assign_df name rate no) ->
                 exists r', In r' slim /\ roster_eqb r r' = true) /\
      ForallOrdPairs (fun a b => roster_eqb a b = false) slim /\
      (List.length slim <= List.length (rows assign_df))%nat /\
      hd_error slim = hd_error (roster_rows str_float assign_df name rate no) /\
      drop_duplicates_by roster_eqb [] slim = slim).
Proof.
  assert (Hp1 : forall c, present assign_df ["_name"] c
                          = String.eqb c "_name" || has_column assign_df c).
  { intros c. unfold present. cbn [existsb]. now rewrite orb_false_r. }
  assert (Hp2 : forall c, present assign_df ["_name"; "_rate"] c
                          = String.eqb c "_name" || String.eqb c "_rate"
                            || has_column assign_df c).
  { intros c. unfold present. cbn [existsb]. now rewrite orb_false_r. }
  assert (Hrate : rate = "_name" \/ has_column assign_df rate = true ->
                  present assign_df ["_name"] rate = true).
  { rewrite Hp1. intros [-> | ->]; [reflexivity | apply orb_true_r]. }
  split.
  { intros H. unfold assign_df_slim. now rewrite H. }
  split.
  { intros Hn Hr Hc. unfold assign_df_slim. rewrite Hn, Hp1, Hc.
    now rewrite (proj2 (String.eqb_neq rate "_name") Hr). }
  split.
  { intros Hn Hr Ho1 Ho2 Hc. unfold assign_df_slim. rewrite Hn, (Hrate Hr), Hp2, Hc.
    rewrite (proj2 (String.eqb_neq no "_name") Ho1).
    now rewrite (proj2 (String.eqb_neq no "_rate") Ho2). }
  split.
  { intros Hn Hr Ho. unfold assign_df_slim. rewrite Hn, (Hrate Hr), Hp2.
    destruct Ho as [-> | [-> | ->]]; [reflexivity | reflexivity |].
    now rewrite orb_true_r. }
  split.
  { intros row n r. unfold roster_row. fold n.
    rewrite (read_set assign_df "_name" _ _ rate), read_nil.
    rewrite (String.eqb_sym "_name" rate). fold r.
    rewrite (read_set assign_df "_rate" _ _ no), (read_set assign_df "_name" _ _ no),
      read_nil.
    now rewrite (String.eqb_sym "_rate" no), (String.eqb_sym "_name" no). }
  intros slim H. unfold assign_df_slim in H.
  destruct (negb (has_column assign_df name)); [discriminate|].
  destruct (negb (present assign_df ["_name"] rate)); [discriminate|].
  destruct (negb (present assign_df ["_name"; "_rate"] no)); [discriminate|].
  injection H as <-.
  set (rs := roster_rows str_float assign_df name rate no).
  pose proof (dedup_NoDup roster_eqb roster_repr roster_eqb_repr [] rs) as Hnd.
  repeat split.
  + intros r. apply dedup_incl.
  + intros r Hr.
    destruct (dedup_covers roster_eqb roster_repr roster_eqb_repr [] rs r Hr)
      as [[]|Hin].
    apply in_map_iff in Hin. destruct Hin as (r' & Hrepr & Hr').
    exists r'. split; [exact Hr'|]. apply roster_eqb_repr. symmetry. exact Hrepr.
  + apply (NoDup_repr_FOP roster_repr roster_eqb _ roster_eqb_repr Hnd).
  + etransitivity; [apply dedup_length|].
    unfold rs, roster_rows. rewrite length_map. reflexivity.
  + apply dedup_head.
  + apply (dedup_fixed roster_eqb roster_repr _ roster_eqb_repr [] Hnd).
    intros x _ [].
Qed.
End WithStr.

Lemma with_hours_spec_witness :
  with_hours example_str_float
    (mkdf ["Name"; "Reg"; "Rate"] [[Text "Jane Doe"; Text "3"; Text "20"]])
    None None (Some "Name") "Reg" "OT" "DT" "Rate"
  = Some (Raise (ValueError ("Missing hours column: " ++ "OT")))
  /\
  exists payroll,
    with_hours example_str_float
      (mkdf ["Name"; "Reg"; "OT"; "Rate"]
         [[Text " Jane  Doe"; Text "3"; Text "x"; Text "20"]])
      None None (Some "Name") "Reg" "OT" "OT" "Employee Name"
    = Some (Ok payroll) /\
    map EmployeeName payroll = ["Jane Doe"] /\
    List.length payroll
    = List.length (rows (mkdf ["Name"; "Reg"; "OT"; "Rate"]
                           [[Text " Jane  Doe"; Text "3"; Text "x"; Text "20"]])).
Proof.
  split.
  - apply (proj1 (proj2 (proj1 (proj2 (proj2 (with_hours_spec example_str_float
             (mkdf ["Name"; "Reg"; "Rate"] [[Text "Jane Doe"; Text "3"; Text "20"]])
             None None (Some "Name") "Reg" "OT" "DT" "Rate"))) ["Jane Doe"] eq_refl)));
      reflexivity.
  - apply (proj1 (proj2 (proj2 (proj2 (with_hours_spec example_str_float
             (mkdf ["Name"; "Reg"; "OT"; "Rate"]
                [[Text " Jane  Doe"; Text "3"; Text "x"; Text "20"]])
             None None (Some "Name") "Reg" "OT" "OT" "Employee Name"))))
             ["Jane Doe"]); try reflexivity.
    cbn [In]. intuition discriminate.
Defined.

Lemma assign_df_slim_spec_witness :
  assign_df_slim example_str_float
    (mkdf ["Name"; "Rate"; "No"]
       [[Text "Jane  Doe"; Text "20"; Text "A100"];
        [Text "Jane Doe"; Text "20.0"; Text "A100"];
        [Text "Jane Doe "; Text "20"; Text "A200"]])
    "Name" "_name" "No"
  = Ok [mkroster "Jane Doe" nan (Text "A100"); mkroster "Jane Doe" nan (Text "A200")]
  /\
  assign_df_slim example_str_float
    (mkdf ["Name"; "Rate"; "No"] [[Text "Jane  Doe"; Text "20"; Text "A100"]])
    "Name" "Rate" "Assign No"
  = Raise (KeyError "['Assign No'] not in index").
Proof.
  split.
  - rewrite (proj1 (proj2 (proj2 (proj2 (assign_df_slim_spec example_str_float
               (mkdf ["Name"; "Rate"; "No"]
                  [[Text "Jane  Doe"; Text "20"; Text "A100"];
                   [Text "Jane Doe"; Text "20.0"; Text "A100"];
                   [Text "Jane Doe "; Text "20"; Text "A200"]])
               "Name" "_name" "No")))) eq_refl (or_introl eq_refl)
               (or_intror (or_intror eq_refl))).
    vm_compute. reflexivity.
  - apply (proj1 (proj2 (proj2 (assign_df_slim_spec example_str_float
             (mkdf ["Name"; "Rate"; "No"] [[Text "Jane  Doe"; Text "20"; Text "A100"]])
             "Name" "Rate" "Assign No"))));
      try reflexivity; try discriminate. right. reflexivity.
Defined.

End TableFacts.

(* ===================================================================== *)
(** * The join, the sort and the size of the export *)
(* ===================================================================== *)

Module JoinFacts.
Import PyStr PyFloat Py PyDate Pandas App Keys SortFacts GroupByFacts Aggregation Join
  LineIds FloatFacts TableFacts.

Lemma FOP_filter {A} (R R' : A -> A -> Prop) (p : A -> bool) l :
  (forall a b, p a = true -> p b = true -> R a b -> R' a b) ->
  ForallOrdPairs R l -> ForallOrdPairs R' (filter p l).
Proof.
  intros Himp H. induction H as [|x l Hx Hl IH]; simpl; [constructor|].
  destruct (p x) eqn:Ex; [|exact IH].
  constructor; [|exact IH].
  apply Forall_forall. intros y Hy. apply filter_In in Hy. destruct Hy as [Hy Hpy].
  rewrite Forall_forall in Hx. apply Himp; auto.
Qed.

Lemma FOP_map {A B} (f : A -> B) (R : B -> B -> Prop) l :
  ForallOrdPairs (fun a b => R (f a) (f b)) l -> ForallOrdPairs R (map f l).
Proof.
  intro H. induction H as [|x l Hx Hl IH]; simpl; constructor; [|exact IH].
  apply Forall_forall. intros y Hy. apply in_map_iff in Hy.
  destruct Hy as (a & <- & Ha). rewrite Forall_forall in Hx. apply Hx. exact Ha.
Qed.

Lemma key_eqb_trans_l k a b :
  key_eqb k a = true -> key_eqb k b = true -> key_eqb a b = true.
Proof. rewrite !key_eqb_repr. congruence. Qed.

Lemma key_eqb_refl k : key_eqb k k = true.
Proof. apply key_eqb_repr. reflexivity. Qed.

Lemma key_eqb_sym a b : key_eqb a b = key_eqb b a.
Proof.
  destruct (key_eqb a b) eqn:E1, (key_eqb b a) eqn:E2; try reflexivity.
  - apply key_eqb_repr in E1. symmetry in E1. apply key_eqb_repr in E1. congruence.
  - apply key_eqb_repr in E2. symmetry in E2. apply key_eqb_repr in E2. congruence.
Qed.

Lemma FOP_app {A} (R : A -> A -> Prop) l1 l2 :
  ForallOrdPairs R l1 -> ForallOrdPairs R l2 ->
  (forall a b, In a l1 -> In b l2 -> R a b) ->
  ForallOrdPairs R (l1 ++ l2).
Proof.
  intros H1 H2 H12. induction H1 as [|x l Hx Hl IH]; [exact H2|].
  cbn [app]. constructor.
  - apply Forall_forall. intros y Hy. apply in_app_or in Hy as [Hy|Hy].
    + rewrite Forall_forall in Hx. now apply Hx.
    + apply H12; [now left | exact Hy].
  - apply IH. intros a b' Ha Hb. apply H12; [now right | exact Hb].
Qed.

Lemma FOP_flat_map {A B} (R : B -> B -> Prop) (f : A -> list B) l :
  (forall x, In x l -> ForallOrdPairs R (f x)) ->
  ForallOrdPairs (fun x y => forall a b, In a (f x) -> In b (f y) -> R a b) l ->
  ForallOrdPairs R (flat_map f l).
Proof.
  intros Hin H. induction H as [|x l Hx Hl IH]; [constructor|].
  cbn [flat_map]. apply FOP_app.
  - apply Hin. now left.
  - apply IH. intros y Hy. apply Hin. now right.
  - intros a b Ha Hb. apply in_flat_map in Hb as (y & Hy & Hb).
    rewrite Forall_forall in Hx. exact (Hx y Hy a b Ha Hb).
Qed.

Lemma FOP_impl_in {A} (R R' : A -> A -> Prop) l :
  (forall a b, In a l -> In b l -> R a b -> R' a b) ->
  ForallOrdPairs R l -> ForallOrdPairs R' l.
Proof.
  intros Himp H. induction H as [|x l Hx Hl IH]; [constructor|].
  constructor.
  - apply Forall_forall. intros y Hy. rewrite Forall_forall in Hx.
    apply Himp; [now left | now right | now apply Hx].
  - apply IH. intros a b Ha Hb. apply Himp; now right.
Qed.

Lemma NoDup_FOP {A} (l : list A) : NoDup l -> ForallOrdPairs (fun a b => a <> b) l.
Proof.
  intro H. induction H as [|x l Hx Hl IH]; constructor; [|exact IH].
  apply Forall_forall. intros y Hy ->. contradiction.
Qed.

Lemma cell_eqb_refl c : cell_eqb c c = true.
Proof. apply cell_eqb_repr. reflexivity. Qed.

(** Integers below 2^53 stay apart when they become floats. *)
Lemma upcast_distinct m n :
  (Z.abs m < 2 ^ 53)%Z -> (Z.abs n < 2 ^ 53)%Z ->
  cell_eqb (Int m) (Int n) = false ->
  cell_eqb (upcast (Int m)) (upcast (Int n)) = false.
Proof.
  intros Hm Hn H. cbn [upcast cell_eqb] in *.
  destruct (same_key (of_Z m) (of_Z n)) eqn:E; [|reflexivity].
  apply same_key_repr in E. rewrite !of_Z_small_key in E by assumption.
  apply of_Z_small_inj in E; [|assumption|assumption].
  subst n. rewrite Z.eqb_refl in H. discriminate.
Qed.

Section WithStr.
Variable str_float : float -> string.

Lemma slim_distinct assign_df name rate no slim :
  assign_df_slim str_float assign_df name rate no = Ok slim ->
  ForallOrdPairs (fun a b => roster_eqb a b = false) slim.
Proof.
  intros Hslim. unfold assign_df_slim in Hslim.
  destruct (negb (has_column assign_df name)); [discriminate|].
  destruct (negb (present assign_df ["_name"] rate)); [discriminate|].
  destruct (negb (present assign_df ["_name"; "_rate"] no)); [discriminate|].
  injection Hslim as <-.
  apply (NoDup_repr_FOP roster_repr roster_eqb _ roster_eqb_repr).
  apply (dedup_NoDup roster_eqb roster_repr roster_eqb_repr).
Qed.

Lemma matching_distinct slim r :
  ForallOrdPairs (fun a b => roster_eqb a b = false) slim ->
  ForallOrdPairs (fun a b => cell_eqb (AssignNo a) (AssignNo b) = false)
                 (matching (summary_key str_float) roster_key r slim).
Proof.
  intros Hfop. unfold matching. eapply FOP_filter; [|exact Hfop].
  intros a b Ha Hb Hab. cbv beta in Ha, Hb. unfold roster_eqb in Hab.
  rewrite (key_eqb_trans_l _ _ _ Ha Hb) in Hab. exact Hab.
Qed.

(** X17.  Against a roster without duplicates, the roster rows matched
    with one summary record carry pairwise different assignment numbers,
    so a record is repeated only as often as the roster has different
    assignments for its name and rate.  The export lines of a record keep
    these numbers apart as long as the assignment column is not turned
    into floats, or is and holds integers below 2^53 in absolute value
    only: then no two lines of the same record have the same assignment
    number and no line occurs twice.  Beyond that bound different
    integers can become the same float, as 9007199254740992 and
    9007199254740993 do. *)
Theorem fan_out_distinct_assignments assign_df name rate no slim summary_rows :
  assign_df_slim str_float assign_df name rate no = Ok slim ->
  NoDup summary_rows ->
  (forall r,
      ForallOrdPairs (fun a b => cell_eqb (AssignNo a) (AssignNo b) = false)
                     (matching (summary_key str_float) roster_key r slim)) /\
  (widened str_float summary_rows slim = false \/
   (forall e n, In e slim -> AssignNo e = Int n -> (Z.abs n < 2 ^ 53)%Z) ->
   ForallOrdPairs
     (fun a b => pay a = pay b -> cell_eqb (Assignment a) (Assignment b) = false)
     (joined str_float summary_rows slim) /\
   NoDup (joined str_float summary_rows slim)) /\
  cell_eqb (Int 9007199254740992) (Int 9007199254740993) = false /\
  upcast (Int 9007199254740992) = upcast (Int 9007199254740993).
Proof.
  intros Hslim Hnd.
  pose proof (slim_distinct _ _ _ _ _ Hslim) as Hfop.
  split; [intros r; apply matching_distinct; exact Hfop|].
  split; [|split; vm_compute; reflexivity].
  intros Hcast.
  assert (Hc : forall a b,
             In a slim -> In b slim ->
             cell_eqb (AssignNo a) (AssignNo b) = false ->
             cell_eqb (if widened str_float summary_rows slim
                       then upcast (AssignNo a) else AssignNo a)
                      (if widened str_float summary_rows slim
                       then upcast (AssignNo b) else AssignNo b) = false).
  { intros a b Ha Hb Hab.
    destruct (widened str_float summary_rows slim) eqn:Ew; [|exact Hab].
    destruct Hcast as [Hcast|Hsmall]; [discriminate|].
    unfold widened in Ew. apply andb_prop in Ew as [Hint _].
    rewrite forallb_forall in Hint.
    destruct (proj1 (is_int_Int _) (Hint a Ha)) as [m Em].
    destruct (proj1 (is_int_Int _) (Hint b Hb)) as [n En].
    rewrite Em, En in Hab |- *.
    apply upcast_distinct; [exact (Hsmall a m Ha Em) | exact (Hsmall b n Hb En) | exact Hab]. }
  assert (H : ForallOrdPairs
                (fun a b => pay a = pay b ->
                            cell_eqb (Assignment a) (Assignment b) = false)
                (joined str_float summary_rows slim)).
  { rewrite joined_blocks. apply FOP_flat_map.
    - intros r _.
      pose proof (matching_distinct slim r Hfop) as Hm.
      assert (Hsub : forall e, In e (matching (summary_key str_float) roster_key r slim) ->
                               In e slim).
      { intros e He. unfold matching in He. apply filter_In in He. tauto. }
      destruct (matching (summary_key str_float) roster_key r slim) as [|e ms] eqn:E.
      + constructor; constructor.
      + apply FOP_map. cbn [pay Assignment].
        eapply FOP_impl_in; [|exact Hm].
        intros a b Ha Hb Hab _. apply Hc; [now apply Hsub | now apply Hsub | exact Hab].
    - eapply FOP_impl_in; [|exact (NoDup_FOP _ Hnd)].
      intros x y _ _ Hxy a b Ha Hb Hp. exfalso. apply Hxy.
      assert (Hpa : forall r j,
                 In j match matching (summary_key str_float) roster_key r slim with
                      | [] => [mkjoined NA r]
                      | _ :: _ =>
                          map (fun e => mkjoined
                                          (if widened str_float summary_rows slim
                                           then upcast (AssignNo e) else AssignNo e) r)
                              (matching (summary_key str_float) roster_key r slim)
                      end -> pay j = r).
      { intros r j Hj.
        destruct (matching (summary_key str_float) roster_key r slim).
        - destruct Hj as [<-|[]]. reflexivity.
        - apply in_map_iff in Hj as (e & <- & _). reflexivity. }
      rewrite <- (Hpa x a Ha), <- (Hpa y b Hb). exact Hp. }
  split; [exact H|].
  induction H as [|x l Hx Hl IH]; constructor; [|exact IH].
  intro Hin. rewrite Forall_forall in Hx. specialize (Hx x Hin eq_refl).
  rewrite cell_eqb_refl in Hx. discriminate.
Qed.
End WithStr.

Lemma fan_out_distinct_assignments_witness :
  ForallOrdPairs
    (fun a b => pay a = pay b -> cell_eqb (Assignment a) (Assignment b) = false)
    (joined example_str_float
       [mkpay "Jane Doe" (of_Z 20) (of_Z 8); mkpay "John Roe" (of_Z 25) (of_Z 8)]
       [mkroster "Jane Doe" (of_Z 20) (Int 100); mkroster "Jane Doe" (of_Z 20) (Int 200)])
  /\
  NoDup (joined example_str_float
           [mkpay "Jane Doe" (of_Z 20) (of_Z 8); mkpay "John Roe" (of_Z 25) (of_Z 8)]
           [mkroster "Jane Doe" (of_Z 20) (Int 100);
            mkroster "Jane Doe" (of_Z 20) (Int 200)]).
Proof.
  apply (proj1 (proj2 (fan_out_distinct_assignments example_str_float
           (mkdf ["Name"; "Rate"; "No"]
              [[Text "Jane  Doe"; Text "20"; Int 100];
               [Text "Jane Doe"; Text "20.0"; Int 100];
               [Text "Jane Doe "; Text "20"; Int 200]])
           "Name" "Rate" "No"
           [mkroster "Jane Doe" (of_Z 20) (Int 100); mkroster "Jane Doe" (of_Z 20) (Int 200)]
           [mkpay "Jane Doe" (of_Z 20) (of_Z 8); mkpay "John Roe" (of_Z 25) (of_Z 8)]
           ltac:(vm_compute; reflexivity)
           ltac:(repeat constructor; cbn [In]; intuition discriminate)))).
  right. intros e n [<-|[<-|[]]] E; injection E as <-; reflexivity.
Defined.

(** Two roster rows for one name and rate whose integer assignment numbers
    lie beyond 2^53, and a record without roster row: the export has two
    lines for Jane Doe with one and the same assignment number. *)
Example fan_out_collision :
  map Assignment
    (joined example_str_float
       [mkpay "Jane Doe" (of_Z 20) (of_Z 8); mkpay "John Roe" (of_Z 25) (of_Z 8)]
       [mkroster "Jane Doe" (of_Z 20) (Int 9007199254740992);
        mkroster "Jane Doe" (of_Z 20) (Int 9007199254740993)])
  = [Num (of_Z 9007199254740992); Num (of_Z 9007199254740992); NA].
Proof. vm_compute. reflexivity. Qed.

(** ** Stability of the sort *)

Lemma SFcompare_refl x : is_nan x = false -> SFcompare x x = Some Eq.
Proof.
  destruct x as [s|s| |s m e]; simpl; try discriminate; intros _.
  - reflexivity.
  - destruct s; reflexivity.
  - destruct s; rewrite Z.compare_refl, ?Pos.compare_cont_refl, ?Pos.compare_refl;
      reflexivity.
Qed.

Lemma fleb_same x y : key_float x = key_float y -> fleb x y = true.
Proof.
  intro H. unfold fleb.
  destruct (is_nan y) eqn:Ey; [reflexivity|].
  destruct (is_nan x) eqn:Ex.
  { destruct x; try discriminate. destruct y; discriminate. }
  destruct x as [s|s| |s m e], y as [s'|s'| |s' m' e']; simpl in H;
    try discriminate; try reflexivity.
  - injection H as <-. rewrite SFcompare_refl by reflexivity. reflexivity.
  - injection H as <- <- <-. rewrite SFcompare_refl by reflexivity. reflexivity.
Qed.

Lemma key_leb_same a b : key_repr a = key_repr b -> key_leb a b = true.
Proof.
  unfold key_repr, key_leb. intro H. injection H as Hn Hf.
  rewrite Hn.
  assert (Hc : String.compare (fst b) (fst b) = Eq).
  { pose proof (String.compare_antisym (fst b) (fst b)) as Ha.
    destruct (String.compare (fst b) (fst b)); simpl in Ha; congruence. }
  rewrite Hc. apply fleb_same. exact Hf.
Qed.

Lemma filter_insert_sorted {A} (leb : A -> A -> bool) (p : A -> bool) x l :
  (forall y, p x = true -> p y = true -> leb x y = true) ->
  filter p (insert_sorted leb x l) = if p x then x :: filter p l else filter p l.
Proof.
  intro Hsame. induction l as [|y l IH]; simpl; [reflexivity|].
  destruct (leb x y) eqn:E; simpl.
  - reflexivity.
  - rewrite IH. destruct (p x) eqn:Ex; [|reflexivity].
    destruct (p y) eqn:Ey; [|reflexivity].
    rewrite (Hsame y eq_refl Ey) in E. discriminate.
Qed.

Lemma filter_sort_by {A} (key_of : A -> key) (k : key) l :
  filter (fun x => key_eqb k (key_of x))
         (sort_by (fun a b => key_leb (key_of a) (key_of b)) l)
  = filter (fun x => key_eqb k (key_of x)) l.
Proof.
  induction l as [|x l IH]; [reflexivity|].
  cbn [sort_by]. rewrite filter_insert_sorted.
  - rewrite IH. reflexivity.
  - intros y Hx Hy. apply key_leb_same. apply key_eqb_repr.
    exact (key_eqb_trans_l _ _ _ Hx Hy).
Qed.

Lemma summary_key_pairs payroll :
  ForallOrdPairs (fun a b => key_eqb (pay_key a) (pay_key b) = false) (summary payroll).
Proof.
  apply NoDup_repr_pairs. rewrite <- (map_map pay_key key_repr), summary_keys.
  apply group_keys_NoDup.
Qed.

Lemma filter_none {A} (p : A -> bool) l :
  (forall x, In x l -> p x = false) -> filter p l = [].
Proof.
  induction l as [|x l IH]; intro H; [reflexivity|]. simpl.
  rewrite (H x (or_introl eq_refl)). apply IH. intros y Hy. apply H. right. exact Hy.
Qed.

Lemma filter_all {A} (p : A -> bool) l :
  (forall x, In x l -> p x = true) -> filter p l = l.
Proof.
  induction l as [|x l IH]; intro H; [reflexivity|]. simpl.
  rewrite (H x (or_introl eq_refl)). f_equal. apply IH. intros y Hy. apply H.
  right. exact Hy.
Qed.

Lemma merged_pay_all str_float rows slim j :
  In j (merged str_float rows slim) -> In (pay j) rows.
Proof.
  unfold merged, merge_left. intro H. apply in_map_iff in H.
  destruct H as ([l o] & <- & H). apply in_flat_map in H.
  destruct H as (l' & Hl' & H). unfold merge_row in H.
  assert (l = l').
  { destruct (matching _ _ l' slim); [destruct H as [H|[]]; congruence|].
    apply in_map_iff in H. destruct H as (e & He & _). congruence. }
  subst l'. unfold joined_row. simpl. destruct o; exact Hl'.
Qed.

Lemma filter_map_pay (g : JoinedRow -> JoinedRow) (p : PayRow -> bool) l :
  (forall j, pay (g j) = pay j) ->
  filter (fun j => p (pay j)) (map g l) = map g (filter (fun j => p (pay j)) l).
Proof.
  intro Hg. induction l as [|j l IH]; [reflexivity|].
  cbn [map filter]. rewrite Hg. destruct (p (pay j)); cbn [map]; now rewrite IH.
Qed.

(** X18.  The sort of step 7 is stable: the rows of one name and rate
    keep the order they had before the sort.  For the export this means
    that the lines of a summary record come in the order of the roster
    rows they were matched with. *)
Theorem sort_values_stable :
  (forall rows k,
      filter (fun j => key_eqb k (pay_key (pay j))) (sort_values rows)
      = filter (fun j => key_eqb k (pay_key (pay j))) rows) /\
  (forall str_float payroll slim r,
      In r (summary payroll) ->
      filter (fun j => key_eqb (pay_key r) (pay_key (pay j)))
             (sort_values (joined str_float (summary payroll) slim))
      = match matching (summary_key str_float) roster_key r slim with
        | [] => [mkjoined NA r]
        | _ :: _ =>
            map (fun e => mkjoined
                            (if widened str_float (summary payroll) slim
                             then upcast (AssignNo e) else AssignNo e) r)
                (matching (summary_key str_float) roster_key r slim)
        end).
Proof.
  split.
  - intros rows k. unfold sort_values, joined_leb.
    apply (filter_sort_by (fun j => pay_key (pay j)) k rows).
  - intros str_float payroll slim r Hr.
    unfold sort_values, joined_leb.
    rewrite (filter_sort_by (fun j => pay_key (pay j)) (pay_key r)).
    rewrite joined_cast.
    rewrite (filter_map_pay _ (fun p => key_eqb (pay_key r) (pay_key p)))
      by reflexivity.
    assert (Hf : filter (fun j => key_eqb (pay_key r) (pay_key (pay j)))
                        (merged str_float (summary payroll) slim)
                 = merged str_float [r] slim).
    { pose proof (summary_key_pairs payroll) as Hfop.
      apply in_split in Hr. destruct Hr as (before & after & Hsplit).
      rewrite Hsplit in *.
      replace (before ++ r :: after) with (before ++ [r] ++ after) by reflexivity.
      rewrite !merged_app, !filter_app.
      assert (Hb : forall r', In r' before -> key_eqb (pay_key r) (pay_key r') = false).
      { intros r' Hr'. rewrite key_eqb_sym.
        clear - Hfop Hr'. induction before as [|x before IH]; [destruct Hr'|].
        simpl in Hfop. inversion Hfop as [|? ? Hx Hl]; subst.
        destruct Hr' as [->|Hr'].
        - rewrite Forall_forall in Hx. apply Hx. apply in_or_app. right. left. reflexivity.
        - apply IH; assumption. }
      assert (Ha : forall r', In r' after -> key_eqb (pay_key r) (pay_key r') = false).
      { intros r' Hr'.
        clear - Hfop Hr'. induction before as [|x before IH].
        - simpl in Hfop. inversion Hfop as [|? ? Hx Hl]; subst.
          rewrite Forall_forall in Hx. apply Hx. exact Hr'.
        - simpl in Hfop. inversion Hfop; subst. apply IH; assumption. }
      rewrite (filter_none _ (merged str_float before slim)).
      2:{ intros j Hj. apply Hb. exact (merged_pay_all _ _ _ _ Hj). }
      rewrite (filter_none _ (merged str_float after slim)).
      2:{ intros j Hj. apply Ha. exact (merged_pay_all _ _ _ _ Hj). }
      rewrite app_nil_r. simpl. apply filter_all.
      intros j Hj. apply merged_pay_all in Hj. destruct Hj as [<-|[]].
      apply key_eqb_refl. }
    rewrite Hf, merged_one.
    destruct (matching (summary_key str_float) roster_key r slim) as [|e ms].
    + cbn [map Assignment pay].
      destruct (widened str_float (summary payroll) slim); reflexivity.
    + rewrite map_map. apply map_ext. intros e'. cbn [Assignment pay].
      destruct (widened str_float (summary payroll) slim); reflexivity.
Qed.

Lemma sort_values_stable_witness :
  filter (fun j => key_eqb (pay_key (mkpay "Jane Doe" (of_Z 20) (of_Z 8)))
                           (pay_key (pay j)))
         (sort_values
            (joined example_str_float
               (summary [mkpay "Jane Doe" (of_Z 20) (of_Z 8)])
               [mkroster "Jane Doe" (of_Z 20) (Text "B200");
                mkroster "Jane Doe" (of_Z 20) (Text "A100")]))
  = [mkjoined (Text "B200") (mkpay "Jane Doe" (of_Z 20) (of_Z 8));
     mkjoined (Text "A100") (mkpay "Jane Doe" (of_Z 20) (of_Z 8))].
Proof.
  rewrite (proj2 sort_values_stable example_str_float
             [mkpay "Jane Doe" (of_Z 20) (of_Z 8)]
             [mkroster "Jane Doe" (of_Z 20) (Text "B200");
              mkroster "Jane Doe" (of_Z 20) (Text "A100")]
             (mkpay "Jane Doe" (of_Z 20) (of_Z 8))
             ltac:(left; vm_compute; reflexivity)).
  vm_compute. reflexivity.
Defined.

(** ** The size of the export *)





End JoinFacts.

(* ===================================================================== *)
(** * Week-ending dates *)
(* ===================================================================== *)

Module WeekFacts.
Import PyStr PyFloat Py PyDate Pandas App DateFacts MostRecentSunday LineIds.

Lemma append_prefix_inj a a' b b' :
  String.length a = String.length a' -> (a ++ b = a' ++ b')%string ->
  a = a' /\ b = b'.
Proof.
  revert a'. induction a as [|c a IH]; intros [|c' a'] Hl H; simpl in *;
    try discriminate.
  - split; [reflexivity | exact H].
  - injection Hl as Hl. injection H as Hc H. destruct (IH a' Hl H) as [-> ->].
    subst c'. split; reflexivity.
Qed.

Lemma date_fields_eq d1 d2 :
  year d1 = year d2 -> month d1 = month d2 -> day d1 = day d2 -> d1 = d2.
Proof. destruct d1, d2; simpl; intros -> -> ->; reflexivity. Qed.

Lemma date_parts d :
  valid_date d ->
  String.length (format_0d 4 (Z.to_nat (year d))) = 4%nat /\
  String.length (format_0d 2 (Z.to_nat (month d))) = 2%nat /\
  String.length (format_0d 2 (Z.to_nat (day d))) = 2%nat /\
  (0 < year d /\ 0 < month d /\ 0 < day d)%Z.
Proof.
  intros (Hy & Hm & Hd). unfold MINYEAR, MAXYEAR in Hy.
  pose proof (days_in_month_le_31 (year d) (month d) Hm) as H31.
  destruct (fits_spec 4 _ four_digits (Z.to_nat (year d)) ltac:(lia)) as [Ly _].
  destruct (fits_spec 2 _ two_digits (Z.to_nat (month d)) ltac:(lia)) as [Lm _].
  destruct (fits_spec 2 _ two_digits (Z.to_nat (day d)) ltac:(lia)) as [Ld _].
  repeat split; try assumption; lia.
Qed.

Lemma strftime_Ymd_inj d1 d2 :
  valid_date d1 -> valid_date d2 -> strftime_Ymd d1 = strftime_Ymd d2 -> d1 = d2.
Proof.
  intros H1 H2 H.
  destruct (date_parts d1 H1) as (Ly1 & Lm1 & Ld1 & Py1 & Pm1 & Pd1).
  destruct (date_parts d2 H2) as (Ly2 & Lm2 & Ld2 & Py2 & Pm2 & Pd2).
  unfold strftime_Ymd in H.
  apply append_prefix_inj in H; [|congruence]. destruct H as [Hy H].
  apply append_prefix_inj in H; [|congruence]. destruct H as [Hm Hd].
  apply format_0d_inj in Hy, Hm, Hd.
  apply date_fields_eq; lia.
Qed.

Lemma strftime_mdY_inj d1 d2 :
  valid_date d1 -> valid_date d2 -> strftime_mdY d1 = strftime_mdY d2 -> d1 = d2.
Proof.
  intros H1 H2 H.
  destruct (date_parts d1 H1) as (Ly1 & Lm1 & Ld1 & Py1 & Pm1 & Pd1).
  destruct (date_parts d2 H2) as (Ly2 & Lm2 & Ld2 & Py2 & Pm2 & Pd2).
  unfold strftime_mdY in H.
  apply append_prefix_inj in H; [|congruence]. destruct H as [Hm H].
  simpl in H. injection H as H.
  apply append_prefix_inj in H; [|congruence]. destruct H as [Hd H].
  simpl in H. injection H as Hy.
  apply format_0d_inj in Hy, Hm, Hd.
  apply date_fields_eq; lia.
Qed.

Lemma line_id_prefix p1 p2 n m id :
  String.length p1 = String.length p2 ->
  In id (line_ids p1 n) -> In id (line_ids p2 m) -> p1 = p2.
Proof.
  unfold line_ids. intros Hl H1 H2.
  apply in_map_iff in H1. destruct H1 as (i & <- & _).
  apply in_map_iff in H2. destruct H2 as (j & H & _).
  symmetry in H. apply (append_prefix_inj _ _ _ _ Hl) in H. tauto.
Qed.

(** X20.  Two valid week-ending dates are told apart by everything the
    export derives from them: the ID prefix, the date written into the two
    date columns, and the file name.  So exports for different weeks never
    share a line ID, however many rows they have. *)
Theorem week_ending_date_separates d1 d2 :
  valid_date d1 -> valid_date d2 ->
  (strftime_Ymd d1 = strftime_Ymd d2 -> d1 = d2) /\
  (strftime_mdY d1 = strftime_mdY d2 -> d1 = d2) /\
  (forall rows1 rows2,
      file_name (export rows1 d1) = file_name (export rows2 d2) -> d1 = d2) /\
  (forall rows1 rows2 x1 x2,
      In x1 (final rows1 d1) -> In x2 (final rows2 d2) ->
      UniqueLineID x1 = UniqueLineID x2 -> d1 = d2) /\
  (forall rows1 rows2 x1 x2,
      In x1 (final rows1 d1) -> In x2 (final rows2 d2) ->
      WeekendingDate x1 = WeekendingDate x2 -> d1 = d2).
Proof.
  intros H1 H2.
  split; [apply strftime_Ymd_inj; assumption|].
  split; [apply strftime_mdY_inj; assumption|].
  split; [|split].
  - intros rows1 rows2 H. unfold export in H. cbn [file_name] in H.
    apply append_inj_l in H.
    apply append_prefix_inj in H.
    + apply strftime_Ymd_inj; tauto.
    + rewrite (proj1 (strftime_Ymd_eight d1 H1)), (proj1 (strftime_Ymd_eight d2 H2)).
      reflexivity.
  - intros rows1 rows2 x1 x2 Hx1 Hx2 Hid.
    apply strftime_Ymd_inj; try assumption.
    apply (line_id_prefix _ _ (List.length rows1) (List.length rows2)
             (UniqueLineID x1)).
    + rewrite (proj1 (strftime_Ymd_eight d1 H1)), (proj1 (strftime_Ymd_eight d2 H2)).
      reflexivity.
    + rewrite <- final_ids. apply in_map. exact Hx1.
    + rewrite Hid, <- final_ids. apply in_map. exact Hx2.
  - intros rows1 rows2 x1 x2 Hx1 Hx2 Hw.
    apply strftime_mdY_inj; try assumption.
    unfold final in Hx1, Hx2.
    apply in_map_iff in Hx1. destruct Hx1 as ([j1 i1] & <- & _).
    apply in_map_iff in Hx2. destruct Hx2 as ([j2 i2] & <- & _).
    exact Hw.
Qed.

Lemma week_ending_date_separates_witness :
  mkdate 2024 6 9 = mkdate 2024 6 9.
Proof.
  apply (proj1 (proj2 (proj2 (week_ending_date_separates
                                (mkdate 2024 6 9) (mkdate 2024 6 9)
                                ltac:(repeat split; vm_compute; discriminate)
                                ltac:(repeat split; vm_compute; discriminate))))
           [mkjoined NA (mkpay "Jane Doe" (of_Z 20) (of_Z 8))] []).
  reflexivity.
Defined.

(** ** The first week of the calendar *)

Local Open Scope Z_scope.

Lemma first_week_raises fuel :
  forall d,
    1 <= toordinal d < 7 ->
    (Z.to_nat (toordinal d) <= fuel)%nat ->
    back_to_sunday fuel d = Some (Raise (OverflowError "date value out of range")).
Proof.
  induction fuel as [|fuel IH]; intros d Ho Hfuel; [lia|].
  cbn [back_to_sunday].
  assert (Hw : weekday d <> 6).
  { unfold weekday. Z.div_mod_to_equations. lia. }
  destruct (Z.eqb_spec (weekday d) 6) as [Hs|_]; [contradiction|]. cbn [negb].
  unfold sub_days.
  destruct (Z.eq_dec (toordinal d) 1) as [E|E].
  - rewrite E. reflexivity.
  - assert (Hin : (0 <? toordinal d - 1) && (toordinal d - 1 <=? MAXORDINAL) = true).
    { apply andb_true_intro. unfold MAXORDINAL.
      split; [apply Z.ltb_lt | apply Z.leb_le]; lia. }
    rewrite Hin.
    assert (Ho' : toordinal (fromordinal (toordinal d - 1)) = toordinal d - 1)
      by (apply toordinal_fromordinal; lia).
    apply IH; rewrite Ho'; lia.
Qed.

Lemma first_week_dates d :
  valid_date d ->
  (toordinal d < 7 <-> year d = 1 /\ month d = 1 /\ day d <= 6).
Proof.
  intros Hv. pose proof Hv as (Hy & Hm & Hd). unfold MINYEAR, MAXYEAR in Hy.
  destruct (toordinal_bounds d Hv) as [[Hlo _] _].
  destruct (days_through_month (year d) 1 ltac:(lia)) as (_ & _ & Hnext).
  split.
  - intro H7.
    assert (Hy1 : year d = 1).
    { pose proof (days_before_year_mono 1 (year d) ltac:(lia)) as Hmono.
      change (days_before_year 1) with 0 in Hmono. lia. }
    assert (Hm1 : month d = 1).
    { destruct (Z.eq_dec (month d) 1) as [E|E]; [exact E|].
      specialize (Hnext (month d) ltac:(lia)).
      destruct (days_through_month (year d) (month d) Hm) as (H0 & _ & _).
      unfold toordinal, ymd2ord in H7. rewrite Hy1 in H7, Hnext.
      change (days_before_year 1) with 0 in H7.
      change (days_in_month 1 1) with 31 in Hnext.
      change (days_before_month 1 1) with 0 in Hnext.
      lia. }
    split; [exact Hy1|]. split; [exact Hm1|].
    unfold toordinal, ymd2ord in H7. rewrite Hy1, Hm1 in H7.
    change (days_before_year 1) with 0 in H7.
    change (days_before_month 1 1) with 0 in H7. lia.
  - intros (Hy1 & Hm1 & Hd6). unfold toordinal, ymd2ord. rewrite Hy1, Hm1.
    change (days_before_year 1) with 0.
    change (days_before_month 1 1) with 0. lia.
Qed.

(** X21.  For the six dates before the first Sunday of the calendar,
    0001-01-01 to 0001-01-06, and for no other valid date,
    [most_recent_sunday] raises [OverflowError]: the loop walks back to
    0001-01-01, a Monday, and the next subtraction leaves the range of
    [date].  As many iterations as the day of the month are enough to
    get there. *)
Theorem most_recent_sunday_first_week today anchor :
  let d := match anchor with None => today | Some a => a end in
  valid_date d ->
  (toordinal d < 7 <-> year d = 1 /\ month d = 1 /\ day d <= 6) /\
  (toordinal d < 7 ->
   forall fuel, (Z.to_nat (day d) <= fuel)%nat ->
                most_recent_sunday fuel today anchor
                = Some (Raise (OverflowError "date value out of range"))) /\
  (7 <= toordinal d ->
   forall fuel, (7 <= fuel)%nat ->
                exists r, most_recent_sunday fuel today anchor = Some (Ok r)).
Proof.
  intros d Hv.
  pose proof (first_week_dates d Hv) as Hfw.
  split; [exact Hfw|]. split.
  - intros H7 fuel Hfuel. unfold most_recent_sunday. fold d.
    destruct (toordinal_bounds d Hv) as [_ [H1 _]].
    apply first_week_raises; [lia|].
    destruct (proj1 Hfw H7) as (Hy1 & Hm1 & _).
    unfold toordinal, ymd2ord. rewrite Hy1, Hm1.
    change (days_before_year 1) with 0.
    change (days_before_month 1 1) with 0. lia.
  - intros H7 fuel Hfuel. unfold most_recent_sunday. fold d.
    destruct (toordinal_bounds d Hv) as [_ Hb].
    pose proof (Z.mod_pos_bound (toordinal d) 7 ltac:(lia)) as Hk.
    destruct (back_to_sunday_steps fuel d Hb) as (r & Hr & _).
    + Z.div_mod_to_equations. lia.
    + lia.
    + exists r. exact Hr.
Qed.

Lemma most_recent_sunday_first_week_witness :
  most_recent_sunday 4 (mkdate 2024 6 9) (Some (mkdate 1 1 4))
  = Some (Raise (OverflowError "date value out of range")).
Proof.
  apply (proj1 (proj2 (most_recent_sunday_first_week (mkdate 2024 6 9)
                         (Some (mkdate 1 1 4))
                         ltac:(repeat split; vm_compute; discriminate)))).
  - reflexivity.
  - vm_compute. apply le_n.
Defined.

End WeekFacts.

(* ===================================================================== *)
(** * The filter, and empty inputs *)
(* ===================================================================== *)

Module FilterFacts.
Import PyStr PyFloat Py PyDate Pandas App Filter SortFacts SidebarFacts.

Lemma map_at_twice i (f : cell -> cell) row :
  (forall c, f (f c) = f c) -> map_at i f (map_at i f row) = map_at i f row.
Proof.
  intro Hf. revert row. induction i as [|i IH]; intros [|c t]; simpl;
    try reflexivity.
  - rewrite Hf. reflexivity.
  - rewrite IH. reflexivity.
Qed.

Lemma filter_idem {A} (p : A -> bool) l : filter p (filter p l) = filter p l.
Proof.
  induction l as [|x l IH]; [reflexivity|]. simpl.
  destruct (p x) eqn:E; simpl; rewrite ?E, IH; reflexivity.
Qed.

Section WithStr.
Variable str_float : float -> string.

(** The filtered table in closed form. *)
Lemma payroll_ucla_rows df client_col i :
  index_of client_col (columns df) = Some i ->
  payroll_ucla str_float df client_col
  = Ok (mkdf (columns df)
          (map (map_at i (fun c => Text (py_str str_float c)))
               (filter (is_ucla_row str_float df client_col) (rows df)))).
Proof.
  intro Hi.
  assert (Hc : has_column df client_col = true).
  { unfold has_column. apply in_columns_eqb.
    clear - Hi. revert i Hi. induction (columns df) as [|c t IH]; intros i Hi;
      simpl in Hi; [discriminate|].
    destruct (String.eqb c client_col) eqn:E.
    - left. apply String.eqb_eq. exact E.
    - destruct (index_of client_col t) as [j|]; [|discriminate].
      right. apply (IH j). reflexivity. }
  unfold payroll_ucla. rewrite Hc. f_equal.
  unfold client_as_str, loc, mask_ucla, str_contains_nocase, astype_str, get_col.
  simpl columns. rewrite Hi. simpl. f_equal.
  rewrite !map_map.
  rewrite <- (map_map (map_at i (fun c => Text (py_str str_float c)))
                (fun row => contains (lower "UCLA")
                   (lower (py_str str_float
                      (at_col (mkdf (columns df)
                         (map (map_at i (fun c => Text (py_str str_float c))) (rows df)))
                         client_col row))))).
  rewrite select_map, filter_map_comm. f_equal.
  apply filter_ext. intros row. unfold is_ucla_row, at_col. simpl columns.
  rewrite Hi. rewrite client_str_same. reflexivity.
Qed.

(** X22.  Without the client column the filter raises [KeyError].  With
    it, the filtered table has the header of the payroll and a subset of
    its rows, every row it keeps is again a UCLA row of the filtered
    table, and filtering the result once more changes nothing. *)
Theorem payroll_ucla_idempotent :
  (forall df client_col,
      has_column df client_col = false ->
      payroll_ucla str_float df client_col = Raise (KeyError client_col)) /\
  (forall df client_col ucla,
      payroll_ucla str_float df client_col = Ok ucla ->
      columns ucla = columns df /\
      (List.length (rows ucla) <= List.length (rows df))%nat /\
      (forall row, In row (rows ucla) ->
                   is_ucla_row str_float ucla client_col row = true) /\
      payroll_ucla str_float ucla client_col = Ok ucla).
Proof.
  split.
  - intros df client_col H. unfold payroll_ucla. rewrite H. reflexivity.
  - intros df client_col ucla H.
    assert (Hc : has_column df client_col = true).
    { unfold payroll_ucla in H. destruct (has_column df client_col);
        [reflexivity | discriminate]. }
    destruct (has_column_index _ _ Hc) as [i Hi].
    rewrite (payroll_ucla_rows df client_col i Hi) in H. injection H as <-.
    set (g := map_at i (fun c => Text (py_str str_float c))).
    set (p := is_ucla_row str_float df client_col).
    assert (Hp : forall row,
               is_ucla_row str_float (mkdf (columns df) (map g (filter p (rows df))))
                 client_col (g row) = p row).
    { intro row. unfold p, is_ucla_row, at_col. simpl columns. rewrite Hi.
      unfold g. rewrite client_str_same. reflexivity. }
    split; [reflexivity|]. split; [|split].
    + simpl. rewrite length_map. apply filter_length_le.
    + intros row Hrow. simpl in Hrow. apply in_map_iff in Hrow.
      destruct Hrow as (row0 & <- & Hrow0). rewrite Hp.
      apply filter_In in Hrow0. tauto.
    + rewrite (payroll_ucla_rows _ client_col i) by exact Hi.
      simpl columns. simpl rows. f_equal. f_equal.
      rewrite filter_map_comm, map_map.
      rewrite (filter_ext _ p) by exact Hp.
      rewrite filter_idem. apply map_ext.
      intro row. unfold g. apply map_at_twice. reflexivity.
Qed.

Lemma pay_rows_nil names : pay_rows str_float names [] = [].
Proof. destruct names; reflexivity. Qed.

Lemma joined_no_roster summary_rows :
  joined str_float summary_rows [] = map (mkjoined NA) summary_rows.
Proof.
  rewrite Join.joined_blocks.
  induction summary_rows as [|r rows IH]; [reflexivity|].
  cbn [flat_map map matching filter app] in *. f_equal; try assumption.
Qed.

Lemma filter_all_na (rows : list PayRow) :
  filter (fun j => isna (Assignment j)) (map (mkjoined NA) rows)
  = map (mkjoined NA) rows.
Proof.
  induction rows as [|r rows IH]; [reflexivity|]. simpl. f_equal. exact IH.
Qed.

(** X23.  Empty inputs.  When no payroll row is a UCLA row and the
    script gets through, the export has no line, no warning is shown and
    the workbook holds the empty Export sheet only.  When the roster has
    no row, every summary record comes out unmatched, once, with NaN as
    its assignment, and all of them are on the Unmatched sheet. *)
Theorem empty_inputs :
  (forall payroll_df assign_df m custom_we out,
      (forall row, In row (rows payroll_df) ->
                   is_ucla_row str_float payroll_df (client_col m) row = false) ->
      run str_float payroll_df assign_df m custom_we = Some (Ok out) ->
      preview out = [] /\ warnings out = [] /\
      workbook out = [("Export", ExportSheet [])]) /\
  (forall summary_rows custom_we,
      joined str_float summary_rows [] = map (mkjoined NA) summary_rows /\
      Permutation (unmatched (joined str_float summary_rows [])) summary_rows /\
      List.length (final (joined str_float summary_rows []) custom_we)
      = List.length summary_rows /\
      (summary_rows <> [] ->
       warnings (export (joined str_float summary_rows []) custom_we)
       = [UNMATCHED_WARNING])).
Proof.
  split.
  - intros payroll_df assign_df m custom_we out Hnone Hrun.
    unfold run in Hrun.
    destruct (payroll_ucla str_float payroll_df (client_col m)) as [ucla|e] eqn:Eu;
      [|discriminate].
    assert (Hrows : rows ucla = []).
    { assert (Hc : has_column payroll_df (client_col m) = true).
      { unfold payroll_ucla in Eu. destruct (has_column payroll_df (client_col m));
          [reflexivity | discriminate]. }
      destruct (has_column_index _ _ Hc) as [i Hi].
      rewrite (payroll_ucla_rows _ _ i Hi) in Eu. injection Eu as <-. simpl.
      rewrite (JoinFacts.filter_none _ _ Hnone). reflexivity. }
    destruct (with_hours str_float ucla (first_col m) (last_col m) (full_name_col m)
                (reg_col m) (ot_col m) (dt_col m) (payrate_col m))
      as [[payroll|e]|] eqn:Ew; [|discriminate|discriminate].
    assert (Hpay : payroll = []).
    { destruct (Coercion.with_hours_inv _ _ _ _ _ _ _ _ _ _ Ew) as (names & _ & _ & Er).
      apply Coercion.records_length in Er.
      rewrite length_map, length_combine, Hrows in Er. cbn [List.length] in Er.
      rewrite Nat.min_0_r in Er. destruct payroll; [reflexivity | discriminate]. }
    subst payroll.
    destruct (assign_df_slim str_float assign_df (assign_name_col m)
                (assign_rate_col m) (assign_no_col m)) as [slim|e]; [|discriminate].
    destruct (existsb _ _); [discriminate|].
    destruct (existsb _ _); [discriminate|].
    destruct (String.eqb _ _); [discriminate|].
    injection Hrun as <-.
    change (summary []) with (@nil PayRow). rewrite Join.joined_blocks.
    cbn [flat_map]. repeat split.
  - intros summary_rows custom_we.
    pose proof (joined_no_roster summary_rows) as Hj.
    assert (Hp : Permutation (unmatched (joined str_float summary_rows []))
                             summary_rows).
    { rewrite Hj. etransitivity; [apply ExportFacts.unmatched_perm|].
      rewrite filter_all_na, map_map. simpl. rewrite map_id. apply Permutation_refl. }
    split; [exact Hj|]. split; [exact Hp|]. split.
    + rewrite LineIds.final_length, Hj. apply length_map.
    + intro Hne. unfold export. cbn [warnings].
      destruct (unmatched (joined str_float summary_rows [])) as [|u us] eqn:E;
        [|reflexivity].
      exfalso. apply Hne. apply Permutation_nil. exact Hp.
Qed.
End WithStr.

Lemma payroll_ucla_idempotent_witness :
  payroll_ucla example_str_float (mkdf ["Name"] [[Text "Jane Doe"]]) "Client"
  = Raise (KeyError "Client").
Proof.
  apply (proj1 (payroll_ucla_idempotent example_str_float)). reflexivity.
Defined.

Lemma empty_inputs_witness :
  warnings (export (joined example_str_float [mkpay "Jane Doe" (of_Z 20) (of_Z 8)] [])
                   (mkdate 2024 6 9))
  = [UNMATCHED_WARNING].
Proof.
  apply (proj2 (proj2 (proj2 (proj2 (empty_inputs example_str_float)
                                 [mkpay "Jane Doe" (of_Z 20) (of_Z 8)]
                                 (mkdate 2024 6 9))))).
  discriminate.
Defined.

End FilterFacts.

(* ===================================================================== *)
(** * From the joined rows back to their sources *)
(* ===================================================================== *)

Module PipelineFacts.
Import PyStr PyFloat Py PyDate Pandas App SortFacts GroupByFacts Aggregation Join
  LineIds ExportFacts.

Section WithStr.
Variable str_float : float -> string.

Lemma isna_upcast c : isna (upcast c) = isna c.
Proof. destruct c; try reflexivity. cbn [upcast isna]. apply FloatFacts.of_Z_not_nan. Qed.

(** X24.  Nothing in the export is made up: every line carries the name,
    rate and hours of one summary record and the chosen date in both date
    columns, and its assignment number is NaN when the roster has no row
    with the record's key, and otherwise the assignment number of a roster
    row with that key: the roster's cell itself, or the float nearest to
    it when the roster holds integers only and some record went
    unmatched. *)
Theorem export_lines_have_sources summary_rows slim custom_we x :
  In x (final (joined str_float summary_rows slim) custom_we) ->
  exists r,
    In r summary_rows /\
    x_name x = EmployeeName r /\ x_rate x = PayRate r /\ x_hours x = Hours r /\
    WorkDate x = strftime_mdY custom_we /\
    WeekendingDate x = strftime_mdY custom_we /\
    ((matching (summary_key str_float) roster_key r slim = [] /\ x_assignment x = NA)
     \/ exists e, In e slim /\
                  key_eqb (summary_key str_float r) (roster_key e) = true /\
                  x_assignment x
                  = (if widened str_float summary_rows slim
                     then upcast (AssignNo e) else AssignNo e) /\
                  (is_int (AssignNo e) = false -> x_assignment x = AssignNo e) /\
                  (forall n, AssignNo e = Int n ->
                             x_assignment x = Int n \/ x_assignment x = Num (of_Z n))).
Proof.
  intro Hx. apply In_nth_error in Hx. destruct Hx as [i Hi].
  rewrite final_nth_error in Hi.
  destruct (nth_error (sort_values (joined str_float summary_rows slim)) i)
    as [j|] eqn:Ej; [|discriminate].
  injection Hi as <-. apply nth_error_In in Ej.
  apply (Permutation_in _ (sort_by_perm joined_leb _)) in Ej.
  apply Join.joined_in in Ej. destruct Ej as (Hr & Hm).
  exists (pay j). split; [exact Hr|]. cbn [x_name x_rate x_hours WorkDate WeekendingDate
                                             x_assignment].
  repeat (split; [reflexivity|]).
  destruct Hm as [Hm|(e & He & Ha)]; [left; exact Hm|].
  right. exists e. unfold matching in He. apply filter_In in He.
  destruct He as [He Hk]. split; [exact He|]. split; [exact Hk|].
  split; [exact Ha|]. rewrite Ha. split.
  - intros Hi. destruct (widened str_float summary_rows slim); [|reflexivity].
    destruct (AssignNo e); try reflexivity. discriminate.
  - intros n ->. destruct (widened str_float summary_rows slim); [right | left];
      reflexivity.
Qed.

(** X25.  A summary record is reported as unmatched in two cases: the
    roster has no row with its key, or a roster row with its key has no
    assignment number (NaN).  No other record is on the Unmatched
    sheet. *)
Theorem unmatched_cases summary_rows slim p :
  In p (unmatched (joined str_float summary_rows slim)) <->
  In p summary_rows /\
  (matching (summary_key str_float) roster_key p slim = [] \/
   exists e, In e (matching (summary_key str_float) roster_key p slim) /\
             isna (AssignNo e) = true).
Proof.
  split.
  - intro H. apply (Permutation_in _ (unmatched_perm _)) in H.
    apply in_map_iff in H. destruct H as (j & <- & Hj).
    apply filter_In in Hj. destruct Hj as [Hj Hna].
    apply Join.joined_in in Hj. destruct Hj as (Hr & Hm).
    split; [exact Hr|].
    destruct Hm as [[Hnil _]|(e & He & Ha)]; [left; exact Hnil|].
    right. exists e. split; [exact He|]. rewrite Ha in Hna.
    destruct (widened str_float summary_rows slim); [|exact Hna].
    now rewrite isna_upcast in Hna.
  - intros (Hp & Hm).
    apply (Permutation_in _ (Permutation_sym (unmatched_perm _))).
    apply in_map_iff.
    destruct Hm as [Hnil|(e & He & Hna)].
    + exists (mkjoined NA p). split; [reflexivity|]. apply filter_In.
      split; [|reflexivity]. apply Join.joined_in. cbn [pay Assignment].
      split; [exact Hp|]. left. split; [exact Hnil|reflexivity].
    + exists (mkjoined (if widened str_float summary_rows slim
                        then upcast (AssignNo e) else AssignNo e) p).
      split; [reflexivity|]. apply filter_In. cbn [pay Assignment].
      split.
      * apply Join.joined_in. cbn [pay Assignment]. split; [exact Hp|].
        right. exists e. split; [exact He | reflexivity].
      * destruct (widened str_float summary_rows slim); [|exact Hna].
        now rewrite isna_upcast.
Qed.

End WithStr.

Lemma export_lines_have_sources_witness :
  exists r,
    In r [mkpay "Jane Doe" (of_Z 20) (of_Z 8); mkpay "John Roe" (of_Z 25) (of_Z 8)] /\
    x_name (mkexport (Num (of_Z 100)) "Jane Doe" (of_Z 20) "06/09/2024" "06/09/2024"
       (of_Z 8) "202406090001") = EmployeeName r /\
    x_rate (mkexport (Num (of_Z 100)) "Jane Doe" (of_Z 20) "06/09/2024" "06/09/2024"
       (of_Z 8) "202406090001") = PayRate r /\
    x_hours (mkexport (Num (of_Z 100)) "Jane Doe" (of_Z 20) "06/09/2024" "06/09/2024"
       (of_Z 8) "202406090001") = Hours r /\
    WorkDate (mkexport (Num (of_Z 100)) "Jane Doe" (of_Z 20) "06/09/2024" "06/09/2024"
       (of_Z 8) "202406090001") = strftime_mdY (mkdate 2024 6 9) /\
    WeekendingDate (mkexport (Num (of_Z 100)) "Jane Doe" (of_Z 20) "06/09/2024" "06/09/2024"
       (of_Z 8) "202406090001") = strftime_mdY (mkdate 2024 6 9) /\
    ((matching (summary_key example_str_float) roster_key r [mkroster "Jane Doe" (of_Z 20) (Int 100)] = [] /\
      x_assignment (mkexport (Num (of_Z 100)) "Jane Doe" (of_Z 20) "06/09/2024" "06/09/2024"
       (of_Z 8) "202406090001") = NA)
     \/ exists e,
          In e [mkroster "Jane Doe" (of_Z 20) (Int 100)] /\
          key_eqb (summary_key example_str_float r) (roster_key e) = true /\
          x_assignment (mkexport (Num (of_Z 100)) "Jane Doe" (of_Z 20) "06/09/2024" "06/09/2024"
       (of_Z 8) "202406090001")
          = (if widened example_str_float [mkpay "Jane Doe" (of_Z 20) (of_Z 8); mkpay "John Roe" (of_Z 25) (of_Z 8)] [mkroster "Jane Doe" (of_Z 20) (Int 100)]
             then upcast (AssignNo e) else AssignNo e) /\
          (is_int (AssignNo e) = false -> x_assignment (mkexport (Num (of_Z 100)) "Jane Doe" (of_Z 20) "06/09/2024" "06/09/2024"
       (of_Z 8) "202406090001") = AssignNo e) /\
          (forall n, AssignNo e = Int n ->
                     x_assignment (mkexport (Num (of_Z 100)) "Jane Doe" (of_Z 20) "06/09/2024" "06/09/2024"
       (of_Z 8) "202406090001") = Int n \/
                     x_assignment (mkexport (Num (of_Z 100)) "Jane Doe" (of_Z 20) "06/09/2024" "06/09/2024"
       (of_Z 8) "202406090001") = Num (of_Z n))).
Proof.
  apply (export_lines_have_sources example_str_float
           [mkpay "Jane Doe" (of_Z 20) (of_Z 8); mkpay "John Roe" (of_Z 25) (of_Z 8)]
           [mkroster "Jane Doe" (of_Z 20) (Int 100)] (mkdate 2024 6 9)).
  left. vm_compute. reflexivity.
Defined.

Lemma unmatched_cases_witness :
  In (mkpay "John Roe" (of_Z 25) (of_Z 8))
     (unmatched (joined example_str_float [mkpay "John Roe" (of_Z 25) (of_Z 8)]
                   [mkroster "John Roe" (of_Z 25) NA])).
Proof.
  apply (proj2 (unmatched_cases example_str_float
                  [mkpay "John Roe" (of_Z 25) (of_Z 8)]
                  [mkroster "John Roe" (of_Z 25) NA]
                  (mkpay "John Roe" (of_Z 25) (of_Z 8)))).
  split; [left; reflexivity|]. right.
  exists (mkroster "John Roe" (of_Z 25) NA). split; [|reflexivity].
  vm_compute. left. reflexivity.
Defined.


End PipelineFacts.
